(** * Credential and session security engine

    A shallow embedding of the authentication backend:

    - [app/core/security.py]: the signed token codec and the credential
      verifier;
    - [app/models/user.py], [app/models/auth.py], [app/models/session.py]:
      the persisted rows the engine reads and writes;
    - [app/services/auth_service.py]: login, lockout tracking, refresh and
      logout;
    - [app/services/two_factor_service.py]: TOTP and backup-code
      verification with its attempt counter;
    - [app/middleware/rate_limiter.py]: the sliding-window rate limiter.

    Conventions of the embedding.

    - A Python [datetime] is an integer number of microseconds since the
      epoch (the resolution of [datetime]); a [timedelta] is an integer
      number of microseconds.  The server clock is passed explicitly as
      [now]; the server is assumed to run in UTC, so that
      [datetime.utcnow().timestamp()] is the epoch time of [now].  The
      float of [time.time()] is read at the same resolution.
    - A function that may raise returns a [result]; a [try ... except]
      block is a [match] on that result.
    - Random values ([secrets.token_urlsafe], [pyotp.random_base32]) are
      explicit arguments.
    - The external libraries (python-jose, passlib, pyotp, Fernet) are
      interfaces (type classes); their contracts, where a proof needs one,
      are explicit hypotheses, and a small reference implementation of each
      interface is given to run the code on concrete inputs.
    - An SQL table is the list of its rows; [select ... where] is a filter
      and [update ... where ... values] maps the assignment over the
      matching rows.  An [AsyncSession] is a pair of the committed tables
      and the tables as seen inside the open transaction. *)

From Stdlib Require Import Ascii.
From stdpp Require Import base numbers option list strings gmap sorting.

Set Warnings "-register-all,-clear-no-such-hyp".
Open Scope Z_scope.

(** ** Python runtime *)

(** The exception classes the engine raises or catches.  [ConnectionError]
    is the built-in class; [Exception] stands for every other class, with
    the name of the class and the text of [str(e)]. *)
Inductive exn : Type :=
| JWTError (msg : string)
| TypeError (msg : string)
| ConnectionError (msg : string)
| AuthenticationError (msg : string)
| AccountLockedError (msg : string)
| TwoFactorError (msg : string)
| Exception (cls msg : string).

(** [str(e)] *)
Definition exn_str (e : exn) : string :=
  match e with
  | JWTError m | TypeError m | ConnectionError m | AuthenticationError m
  | AccountLockedError m | TwoFactorError m | Exception _ m => m
  end.

(** [isinstance(e, AuthenticationError)]: [AccountLockedError] is declared
    as a subclass of [AuthenticationError]. *)
Definition is_AuthenticationError (e : exn) : bool :=
  match e with
  | AuthenticationError _ | AccountLockedError _ => true
  | _ => false
  end.

Inductive result (A : Type) : Type :=
| Ok (a : A)
| Raise (e : exn).
Arguments Ok {A} a.
Arguments Raise {A} e.

(** Sequencing: an exception of the first statement skips the rest. *)
Definition bind {A B : Type} (r : result A) (k : A → result B) : result B :=
  match r with
  | Ok a => k a
  | Raise e => Raise e
  end.

Notation "'let*' x := r 'in' k" := (bind r (λ x, k))
  (at level 10, x name, r at level 100, k at level 200).

(** JSON values, as carried by token payloads (numbers are the integers
    the codec writes). *)
Inductive json : Type :=
| JNull
| JBool (b : bool)
| JNum (n : Z)
| JStr (s : string)
| JList (l : list json).

(** Python truthiness ([not v] is [negb (truthy v)]). *)
Definition truthy (v : json) : bool :=
  match v with
  | JNull => false
  | JBool b => b
  | JNum n => negb (n =? 0)
  | JStr s => negb (String.eqb s "")
  | JList l => match l with [] => false | _ => true end
  end.

Definition is_None (v : json) : bool :=
  match v with JNull => true | _ => false end.

(** [v != s] for a string [s]. *)
Definition json_ne_str (v : json) (s : string) : bool :=
  match v with
  | JStr s' => negb (String.eqb s' s)
  | _ => true
  end.

(** [d.get(k)]: [None] when the key is absent. *)
Definition dict_get (d : gmap string json) (k : string) : json :=
  default JNull (d !! k).

(** [d.get(k, dflt)] *)
Definition dict_get_default (d : gmap string json) (k : string) (dflt : json) : json :=
  default dflt (d !! k).

(** ** Dates and durations *)

Definition us_per_second : Z := 1000000.
Definition timedelta_seconds (n : Z) : Z := n * us_per_second.
Definition timedelta_minutes (n : Z) : Z := n * 60 * us_per_second.
Definition timedelta_days (n : Z) : Z := n * 86400 * us_per_second.

(** [int(d.timestamp())]: [int] truncates towards zero. *)
Definition int_timestamp (d : Z) : Z := d ÷ us_per_second.

(** [now.timestamp() > v] for a decoded claim [v]: a number compares, a
    boolean compares as 0 or 1, anything else is a [TypeError]. *)
Definition timestamp_gt (now : Z) (v : json) : result bool :=
  match v with
  | JNum e => Ok (e * us_per_second <? now)
  | JBool b => Ok ((if b then 1 else 0) * us_per_second <? now)
  | _ => Raise (TypeError "'>' not supported between instances")
  end.

(** ** app/core/config.py *)

Record Settings : Type := {
  SECRET_KEY : string;
  ALGORITHM : string;
  ACCESS_TOKEN_EXPIRE_MINUTES : Z;
  REFRESH_TOKEN_EXPIRE_DAYS : Z
}.

(** The defaults of [Settings]; the secret key is drawn at start-up. *)
Definition get_settings (secret : string) : Settings :=
  {| SECRET_KEY := secret;
     ALGORITHM := "HS256";
     ACCESS_TOKEN_EXPIRE_MINUTES := 15;
     REFRESH_TOKEN_EXPIRE_DAYS := 30 |}.

(** ** External libraries *)

(** python-jose: [jwt.encode(claims, key, algorithm)] and
    [jwt.decode(token, key, algorithms)].  Decoding reads the clock to
    validate the [exp] claim. *)
Class JoseLibrary : Type := {
  Token : Type;
  jwt_encode : gmap string json → string → string → Token;
  jwt_decode : Token → string → list string → Z → result (gmap string json)
}.

(** The claims python-jose validates after the signature: [exp] and [iat]
    must be integers, [sub] and [jti] strings, and [exp] must not lie
    before the current second. *)
Definition claim_ok (p : gmap string json) (k : string) (ok : json → bool) : bool :=
  match p !! k with
  | None => true
  | Some v => ok v
  end.

Definition jose_claims_valid (p : gmap string json) (now : Z) : bool :=
  claim_ok p "exp" (λ v, match v with JNum e => negb (e <? now `div` us_per_second) | _ => false end)
  && claim_ok p "iat" (λ v, match v with JNum _ => true | _ => false end)
  && claim_ok p "sub" (λ v, match v with JStr _ => true | _ => false end)
  && claim_ok p "jti" (λ v, match v with JStr _ => true | _ => false end).

(** passlib: [pwd_context.verify(plain, hashed)], which raises on a
    malformed hash. *)
Class PasswordContext : Type := {
  pwd_context_verify : string → string → result bool
}.

(** pyotp: [pyotp.TOTP(secret).verify(code, valid_window=w)] at the current
    time. *)
Class TotpLibrary : Type := {
  totp_verify : string → string → Z → Z → result bool
}.

(** Fernet, composed with [json.dumps] / [json.loads] of the list of
    hashed backup codes (a slot is a hash or [null]). *)
Class FernetCipher : Type := {
  Ciphertext : Type;
  cipher_encrypt : list (option string) → Ciphertext;
  cipher_decrypt : Ciphertext → result (list (option string))
}.

(** Decrypting what was encrypted gives the list back. *)
Definition fernet_round_trip `{FernetCipher} : Prop :=
  ∀ l : list (option string), cipher_decrypt (cipher_encrypt l) = Ok l.

(** ** app/core/security.py *)

Record TokenData : Type := {
  sub : json;
  email : json;
  roles : json;
  permissions : json;
  token_type : json;
  exp : json;
  iat : json;
  jti : option json
}.

Section Security.
Context `{JoseLibrary} `{PasswordContext} (settings : Settings).

(** [verify_password]: any exception of the hashing library is logged and
    answered with [False]. *)
Definition verify_password (plain_password hashed_password : string) : bool :=
  match pwd_context_verify plain_password hashed_password with
  | Ok b => b
  | Raise _ => false
  end.

Definition json_strs (l : list string) : json := JList (JStr <$> l).

(** [expires_delta] is an [Optional[timedelta]] tested with
    [if expires_delta:], which is false for [None] and for a zero
    duration. *)
Definition expiry (now : Z) (expires_delta : option Z) (dflt : Z) : Z :=
  match expires_delta with
  | Some d => if d =? 0 then now + dflt else now + d
  | None => now + dflt
  end.

(** The [to_encode] dictionary of an access token. *)
Definition access_claims (user_id email : string) (roles permissions : list string)
    (expire now : Z) : gmap string json :=
  {[ "sub" := JStr user_id;
     "email" := JStr email;
     "roles" := json_strs roles;
     "permissions" := json_strs permissions;
     "type" := JStr "access";
     "exp" := JNum (int_timestamp expire);
     "iat" := JNum (int_timestamp now) ]}.

(** [create_access_token]; the two readings of the clock (for [expire] and
    for [iat]) are taken at the same instant [now]. *)
Definition create_access_token (user_id email : string) (roles permissions : list string)
    (expires_delta : option Z) (now : Z) : Token :=
  let expire :=
    expiry now expires_delta (timedelta_minutes (ACCESS_TOKEN_EXPIRE_MINUTES settings)) in
  let to_encode := access_claims user_id email roles permissions expire now in
  jwt_encode to_encode (SECRET_KEY settings) (ALGORITHM settings).

(** The [to_encode] dictionary of a refresh token. *)
Definition refresh_claims (user_id token_id : string) (expire now : Z) : gmap string json :=
  {[ "sub" := JStr user_id;
     "type" := JStr "refresh";
     "jti" := JStr token_id;
     "exp" := JNum (int_timestamp expire);
     "iat" := JNum (int_timestamp now) ]}.

(** [token_id] is the value of [generate_token_id()]. *)
Definition create_refresh_token (user_id : string) (expires_delta : option Z)
    (token_id : string) (now : Z) : Token * string :=
  let expire :=
    expiry now expires_delta (timedelta_days (REFRESH_TOKEN_EXPIRE_DAYS settings)) in
  let to_encode := refresh_claims user_id token_id expire now in
  (jwt_encode to_encode (SECRET_KEY settings) (ALGORITHM settings), token_id).

(** The body of the [try] block of [verify_token]. *)
Definition verify_token_try (token : Token) (expected_type : string) (now : Z)
    : result (option TokenData) :=
  let* payload := jwt_decode token (SECRET_KEY settings) [ALGORITHM settings] now in
  let sub := dict_get payload "sub" in
  let token_type := dict_get payload "type" in
  let exp := dict_get payload "exp" in
  let iat := dict_get payload "iat" in
  if negb (truthy sub) || negb (truthy token_type) || is_None exp || is_None iat then
    Ok None
  else if json_ne_str token_type expected_type then
    Ok None
  else
    let* expired := timestamp_gt now exp in
    if expired then Ok None
    else if String.eqb expected_type "access" then
      let email := dict_get_default payload "email" (JStr "") in
      let roles := dict_get_default payload "roles" (JList []) in
      let permissions := dict_get_default payload "permissions" (JList []) in
      if negb (truthy email) then Ok None
      else Ok (Some {| sub := sub; email := email; roles := roles;
                       permissions := permissions; token_type := token_type;
                       exp := exp; iat := iat; jti := None |})
    else if String.eqb expected_type "refresh" then
      let jti := dict_get payload "jti" in
      if negb (truthy jti) then Ok None
      else Ok (Some {| sub := sub; email := JStr ""; roles := JList [];
                       permissions := JList []; token_type := token_type;
                       exp := exp; iat := iat; jti := Some jti |})
    else Ok None.

(** [verify_token]: both [except] clauses ([JWTError] and [Exception])
    answer [None]. *)
Definition verify_token (token : Token) (expected_type : string) (now : Z)
    : option TokenData :=
  match verify_token_try token expected_type now with
  | Ok r => r
  | Raise _ => None
  end.

End Security.

(** ** app/models *)

(** The columns of [Permission] and [Role] that the engine reads. *)
Record Permission : Type := {
  resource : string;
  action : string
}.

Record Role : Type := {
  role_name : string;
  role_permissions : list Permission
}.

Section Models.
Context `{FernetCipher}.

(** The columns of [User] that the engine reads or writes; [user_id] is
    [str(user.id)].  The roles are loaded with the row
    ([selectinload(User.roles)]). *)
Record User : Type := {
  user_id : string;
  user_email : string;
  hashed_password : option string;
  is_active : bool;
  is_verified : bool;
  totp_secret : option string;
  two_factor_enabled : bool;
  two_factor_verified_at : option Z;
  backup_codes : option Ciphertext;
  two_factor_recovery_codes_used : Z;
  failed_login_attempts : Z;
  locked_until : option Z;
  failed_2fa_attempts : Z;
  last_login : option Z;
  user_roles : list Role
}.

(** [User.is_locked] *)
Definition is_locked (u : User) (now : Z) : bool :=
  match locked_until u with
  | None => false
  | Some t => now <? t
  end.

(** [User.get_permissions]: the distinct ["resource:action"] strings of
    the user's roles. *)
Definition get_permissions (u : User) : list string :=
  remove_dups
    (r ← user_roles u; p ← role_permissions r; [resource p +:+ ":" +:+ action p]).

Record RefreshToken : Type := {
  token_id : string;
  rt_user_id : string;
  expires_at : Z;
  is_revoked : bool;
  revoked_at : option Z;
  used_at : option Z
}.

(** [RefreshToken.is_expired] *)
Definition is_expired (t : RefreshToken) (now : Z) : bool := expires_at t <? now.

(** [RefreshToken.is_valid] *)
Definition is_valid (t : RefreshToken) (now : Z) : bool :=
  negb (is_expired t now) && negb (is_revoked t).

Record UserSession : Type := {
  session_id : string;
  us_user_id : string;
  us_is_active : bool;
  ended_at : option Z
}.

(** The three tables. *)
Record Database : Type := {
  users : list User;
  refresh_tokens : list RefreshToken;
  user_sessions : list UserSession
}.

(** An [AsyncSession] with [autocommit=False]: statements act on
    [working]; [commit] makes it the persisted state, [rollback] discards
    it. *)
Record Session : Type := {
  committed : Database;
  working : Database
}.

Definition commit (s : Session) : Session :=
  {| committed := working s; working := working s |}.

Definition rollback (s : Session) : Session :=
  {| committed := committed s; working := committed s |}.

(** [result.scalar_one_or_none()] *)
Definition scalar_one_or_none {A : Type} (rows : list A) : result (option A) :=
  match rows with
  | [] => Ok None
  | [r] => Ok (Some r)
  | _ => Raise (Exception "MultipleResultsFound" "Multiple rows were found when one or none was required")
  end.

(** [update(T).where(p).values(f)] *)
Definition update_where {A : Type} (p : A → bool) (f : A → A) (rows : list A) : list A :=
  (λ r, if p r then f r else r) <$> rows.

Definition set_users (f : list User → list User) (s : Session) : Session :=
  {| committed := committed s;
     working := {| users := f (users (working s));
                   refresh_tokens := refresh_tokens (working s);
                   user_sessions := user_sessions (working s) |} |}.

Definition set_refresh_tokens (f : list RefreshToken → list RefreshToken) (s : Session) : Session :=
  {| committed := committed s;
     working := {| users := users (working s);
                   refresh_tokens := f (refresh_tokens (working s));
                   user_sessions := user_sessions (working s) |} |}.

Definition set_user_sessions (f : list UserSession → list UserSession) (s : Session) : Session :=
  {| committed := committed s;
     working := {| users := users (working s);
                   refresh_tokens := refresh_tokens (working s);
                   user_sessions := f (user_sessions (working s)) |} |}.

End Models.

(** ** app/schemas/auth.py *)

Record UserResponse : Type := {
  ur_id : string;
  ur_email : string;
  ur_is_active : bool;
  ur_is_verified : bool;
  ur_roles : list string;
  ur_last_login : option Z
}.

(** [LoginResponse]: [requires_2fa] and [temp_token] are declared with the
    defaults [False] and [None]. *)
Record LoginResponse `{JoseLibrary} : Type := {
  access_token : Token;
  refresh_token : Token;
  lr_token_type : string;
  expires_in : Z;
  user : UserResponse;
  requires_2fa : bool;
  temp_token : option string
}.

Record TokenRefreshResponse `{JoseLibrary} : Type := {
  new_access_token : Token;
  trr_token_type : string;
  trr_expires_in : Z
}.

(** ** app/services/auth_service.py *)

Section AuthService.
Context `{JoseLibrary} `{PasswordContext} `{FernetCipher} (settings : Settings).

(** The assignments of the [update(User)] statements. *)
Definition set_failed_login (attempts : Z) (lock : option (option Z)) (u : User) : User :=
  {| user_id := user_id u; user_email := user_email u;
     hashed_password := hashed_password u; is_active := is_active u;
     is_verified := is_verified u; totp_secret := totp_secret u;
     two_factor_enabled := two_factor_enabled u;
     two_factor_verified_at := two_factor_verified_at u;
     backup_codes := backup_codes u;
     two_factor_recovery_codes_used := two_factor_recovery_codes_used u;
     failed_login_attempts := attempts;
     locked_until := match lock with Some l => l | None => locked_until u end;
     failed_2fa_attempts := failed_2fa_attempts u;
     last_login := last_login u;
     user_roles := user_roles u |}.

Definition set_last_login (t : Z) (u : User) : User :=
  {| user_id := user_id u; user_email := user_email u;
     hashed_password := hashed_password u; is_active := is_active u;
     is_verified := is_verified u; totp_secret := totp_secret u;
     two_factor_enabled := two_factor_enabled u;
     two_factor_verified_at := two_factor_verified_at u;
     backup_codes := backup_codes u;
     two_factor_recovery_codes_used := two_factor_recovery_codes_used u;
     failed_login_attempts := failed_login_attempts u;
     locked_until := locked_until u;
     failed_2fa_attempts := failed_2fa_attempts u;
     last_login := Some t;
     user_roles := user_roles u |}.

Definition max_attempts : Z := 5.
Definition lockout_duration : Z := timedelta_minutes 30.

(** The [update_values] of [_handle_failed_login]: the counter read with
    the [user] object plus one, and [locked_until] only when the new
    counter reaches [max_attempts]. *)
Definition update_values (now : Z) (user : User) : User → User :=
  let new_attempts := failed_login_attempts user + 1 in
  if max_attempts <=? new_attempts
  then set_failed_login new_attempts (Some (Some (now + lockout_duration)))
  else set_failed_login new_attempts None.

(** The row of [user] after a recorded failure. *)
Definition record_failure (now : Z) (user : User) : User :=
  update_values now user user.

(** The reset of a successful login:
    [values(failed_login_attempts=0, locked_until=None)]. *)
Definition record_success (user : User) : User :=
  set_failed_login 0 (Some None) user.

Definition has_id (id : string) (u : User) : bool := String.eqb (user_id u) id.

(** [_handle_failed_login]: nothing is written when no user row is known. *)
Definition _handle_failed_login (s : Session) (user : option User) (now : Z) : Session :=
  match user with
  | Some u => set_users (update_where (has_id (user_id u)) (update_values now u)) s
  | None => s
  end.

(** The body of the [try] block of [authenticate_user]; the session is
    returned as it stands when the block is left.  [new_token_id] and
    [new_session_id] are the random values it draws. *)
Definition authenticate_user_try (s : Session) (email password : string)
    (new_token_id new_session_id : string) (now : Z) : result LoginResponse * Session :=
  match scalar_one_or_none (filter (λ u, user_email u = email) (users (working s))) with
  | Raise e => (Raise e, s)
  | Ok None =>
      (Raise (AuthenticationError "Invalid email or password"),
       _handle_failed_login s None now)
  | Ok (Some user) =>
      match hashed_password user with
      | None =>
          (Raise (AuthenticationError "Invalid email or password"),
           _handle_failed_login s None now)
      | Some hashed =>
          if String.eqb hashed "" then
            (Raise (AuthenticationError "Invalid email or password"),
             _handle_failed_login s None now)
          else if is_locked user now then
            (Raise (AccountLockedError "Account is locked until locked_until"), s)
          else if negb (verify_password password hashed) then
            (Raise (AuthenticationError "Invalid email or password"),
             _handle_failed_login s (Some user) now)
          else if negb (is_active user) then
            (Raise (AuthenticationError "Account is not active"),
             _handle_failed_login s (Some user) now)
          else
            let s1 :=
              if 0 <? failed_login_attempts user
              then set_users (update_where (has_id (user_id user)) record_success) s
              else s in
            let s2 := set_users (update_where (has_id (user_id user)) (set_last_login now)) s1 in
            let permissions : list string := [] in
            let role_names := role_name <$> user_roles user in
            let access := create_access_token settings (user_id user) (user_email user)
                            role_names permissions None now in
            let '(refresh_token_jwt, refresh_token_id) :=
              create_refresh_token settings (user_id user) None new_token_id now in
            (* the RefreshToken row, the UserSession row and the audit log
               are not added: those statements are commented out *)
            let s3 := commit s2 in
            (Ok {| access_token := access;
                   refresh_token := refresh_token_jwt;
                   lr_token_type := "bearer";
                   expires_in := ACCESS_TOKEN_EXPIRE_MINUTES settings * 60;
                   user := {| ur_id := user_id user; ur_email := user_email user;
                              ur_is_active := is_active user;
                              ur_is_verified := is_verified user;
                              ur_roles := role_names;
                              ur_last_login := last_login user |};
                   requires_2fa := false;
                   temp_token := None |}, s3)
      end
  end.

(** [authenticate_user]: both [except] clauses roll the session back; any
    exception that is not an [AuthenticationError] is turned into one. *)
Definition authenticate_user (s : Session) (email password : string)
    (new_token_id new_session_id : string) (now : Z) : result LoginResponse * Session :=
  match authenticate_user_try s email password new_token_id new_session_id now with
  | (Ok r, s') => (Ok r, s')
  | (Raise e, s') =>
      if is_AuthenticationError e then (Raise e, rollback s')
      else (Raise (AuthenticationError ("Authentication failed: " +:+ exn_str e)), rollback s')
  end.

Definition set_used_at (t : Z) (r : RefreshToken) : RefreshToken :=
  {| token_id := token_id r; rt_user_id := rt_user_id r; expires_at := expires_at r;
     is_revoked := is_revoked r; revoked_at := revoked_at r; used_at := Some t |}.

Definition revoke (t : Z) (r : RefreshToken) : RefreshToken :=
  {| token_id := token_id r; rt_user_id := rt_user_id r; expires_at := expires_at r;
     is_revoked := true; revoked_at := Some t; used_at := used_at r |}.

Definition end_session (t : Z) (r : UserSession) : UserSession :=
  {| session_id := session_id r; us_user_id := us_user_id r;
     us_is_active := false; ended_at := Some t |}.

(** [jti == RefreshToken.token_id] for the decoded claim. *)
Definition json_eq_str (v : json) (s : string) : bool := negb (json_ne_str v s).

Definition refresh_access_token_try (s : Session) (token : Token) (now : Z)
    : result TokenRefreshResponse * Session :=
  match verify_token settings token "refresh" now with
  | None => (Raise (AuthenticationError "Invalid refresh token"), s)
  | Some token_data =>
      match jti token_data with
      | None => (Raise (AuthenticationError "Invalid refresh token"), s)
      | Some id =>
          if negb (truthy id) then (Raise (AuthenticationError "Invalid refresh token"), s)
          else
            match scalar_one_or_none
                    (filter (λ r, json_eq_str id (token_id r) = true ∧ is_revoked r = false)
                       (refresh_tokens (working s))) with
            | Raise e => (Raise e, s)
            | Ok None => (Raise (AuthenticationError "Refresh token is invalid or expired"), s)
            | Ok (Some db_token) =>
                if negb (is_valid db_token now) then
                  (Raise (AuthenticationError "Refresh token is invalid or expired"), s)
                else
                  match scalar_one_or_none
                          (filter (λ u, user_id u = rt_user_id db_token) (users (working s))) with
                  | Raise e => (Raise e, s)
                  | Ok None => (Raise (AuthenticationError "User account is not active"), s)
                  | Ok (Some user) =>
                      if negb (is_active user) then
                        (Raise (AuthenticationError "User account is not active"), s)
                      else
                        let s1 :=
                          set_refresh_tokens
                            (update_where (λ r, json_eq_str id (token_id r)) (set_used_at now)) s in
                        let permissions := get_permissions user in
                        let role_names := role_name <$> user_roles user in
                        let access := create_access_token settings (user_id user)
                                        (user_email user) role_names permissions None now in
                        let s2 := commit s1 in
                        (Ok {| new_access_token := access;
                               trr_token_type := "bearer";
                               trr_expires_in := ACCESS_TOKEN_EXPIRE_MINUTES settings * 60 |}, s2)
                  end
            end
      end
  end.

Definition refresh_access_token (s : Session) (token : Token) (now : Z)
    : result TokenRefreshResponse * Session :=
  match refresh_access_token_try s token now with
  | (Ok r, s') => (Ok r, s')
  | (Raise e, s') =>
      if is_AuthenticationError e then (Raise e, rollback s')
      else (Raise (AuthenticationError ("Token refresh failed: " +:+ exn_str e)), rollback s')
  end.

(** [logout_user]: a [TokenData] object is always truthy, so the test
    [if token_data:] is the test that verification did not answer [None]. *)
Definition logout_user (s : Session) (token : Token) (now : Z) : bool * Session :=
  match verify_token settings token "access" now with
  | Some token_data =>
      let s1 :=
        set_refresh_tokens
          (update_where
             (λ r, json_eq_str (sub token_data) (rt_user_id r) && negb (is_revoked r))
             (revoke now)) s in
      let s2 :=
        set_user_sessions
          (update_where
             (λ r, json_eq_str (sub token_data) (us_user_id r) && us_is_active r)
             (end_session now)) s1 in
      (true, commit s2)
  | None => (false, s)
  end.


End AuthService.

(** ** app/services/two_factor_service.py *)

Section TwoFactorService.
Context `{PasswordContext} `{TotpLibrary} `{FernetCipher}.

Definition MAX_2FA_ATTEMPTS : Z := 5.
Definition LOCKOUT_DURATION : Z := 300.

Definition set_two_factor (enabled : bool) (verified_at : option Z) (attempts : Z)
    (u : User) : User :=
  {| user_id := user_id u; user_email := user_email u;
     hashed_password := hashed_password u; is_active := is_active u;
     is_verified := is_verified u; totp_secret := totp_secret u;
     two_factor_enabled := enabled;
     two_factor_verified_at := verified_at;
     backup_codes := backup_codes u;
     two_factor_recovery_codes_used := two_factor_recovery_codes_used u;
     failed_login_attempts := failed_login_attempts u;
     locked_until := locked_until u;
     failed_2fa_attempts := attempts;
     last_login := last_login u;
     user_roles := user_roles u |}.

(** [user.failed_2fa_attempts = n] *)
Definition set_failed_2fa (n : Z) (u : User) : User :=
  set_two_factor (two_factor_enabled u) (two_factor_verified_at u) n u.

Definition set_backup_codes (codes : option Ciphertext) (used : Z) (u : User) : User :=
  {| user_id := user_id u; user_email := user_email u;
     hashed_password := hashed_password u; is_active := is_active u;
     is_verified := is_verified u; totp_secret := totp_secret u;
     two_factor_enabled := two_factor_enabled u;
     two_factor_verified_at := two_factor_verified_at u;
     backup_codes := codes;
     two_factor_recovery_codes_used := used;
     failed_login_attempts := failed_login_attempts u;
     locked_until := locked_until u;
     failed_2fa_attempts := failed_2fa_attempts u;
     last_login := last_login u;
     user_roles := user_roles u |}.

(** [verify_totp]: an exception of the TOTP library is answered with
    [False]. *)
Definition verify_totp (secret code : string) (window : Z) (now : Z) : bool :=
  match totp_verify secret code window now with
  | Ok b => b
  | Raise _ => false
  end.

(** [if user.totp_secret:] *)
Definition usable_secret (u : User) : option string :=
  match totp_secret u with
  | Some secret => if String.eqb secret "" then None else Some secret
  | None => None
  end.

(** [verify_and_enable_totp]: the only place, with [disable_two_factor],
    that assigns [two_factor_verified_at]. *)
Definition verify_and_enable_totp (u : User) (totp_code : string) (now : Z)
    : result bool * User :=
  if two_factor_enabled u then
    (Raise (TwoFactorError "Two-factor authentication is already enabled"), u)
  else
    match usable_secret u with
    | None => (Raise (TwoFactorError "TOTP has not been set up"), u)
    | Some secret =>
        if negb (verify_totp secret totp_code 1 now) then
          (Raise (TwoFactorError "Invalid verification code"), u)
        else (Ok true, set_two_factor true (Some now) 0 u)
    end.

(** The test of the scanning loop: [hashed_code and
    verify_password(code, hashed_code)]. *)
Definition slot_matches (code : string) (slot : option string) : bool :=
  match slot with
  | Some hashed_code => negb (String.eqb hashed_code "") && verify_password code hashed_code
  | None => false
  end.

(** [for i, hashed_code in enumerate(hashed_codes)]: the index of the first
    slot that matches, counting from [i]. *)
Fixpoint scan_codes (code : string) (hashed_codes : list (option string)) (i : nat)
    : option nat :=
  match hashed_codes with
  | [] => None
  | slot :: rest =>
      if slot_matches code slot then Some i else scan_codes code rest (S i)
  end.

(** [_verify_backup_code]: a failure to decrypt is logged and answered
    with [False]. *)
Definition _verify_backup_code (u : User) (code : string) : bool * User :=
  match backup_codes u with
  | None => (false, u)
  | Some encrypted =>
      match cipher_decrypt encrypted with
      | Raise _ => (false, u)
      | Ok hashed_codes =>
          match scan_codes code hashed_codes 0 with
          | Some i =>
              (true,
               set_backup_codes (Some (cipher_encrypt (<[i := None]> hashed_codes)))
                 (two_factor_recovery_codes_used u + 1) u)
          | None => (false, u)
          end
      end
  end.

(** The lock-out test at the head of [verify_2fa_code]:
    [two_factor_verified_at + timedelta(seconds=LOCKOUT_DURATION)] is a
    [TypeError] when the column is [None]. *)
Definition check_locked_out (u : User) (now : Z) : result User :=
  if MAX_2FA_ATTEMPTS <=? failed_2fa_attempts u then
    match two_factor_verified_at u with
    | None => Raise (TypeError "unsupported operand type(s) for +: 'NoneType' and 'datetime.timedelta'")
    | Some verified_at =>
        let lockout_time := verified_at + timedelta_seconds LOCKOUT_DURATION in
        if now <? lockout_time then
          Raise (TwoFactorError "Too many failed attempts. Try again after lockout_time")
        else Ok (set_failed_2fa 0 u)
    end
  else Ok u.

Definition verify_2fa_code (u : User) (code : string) (is_backup : bool) (now : Z)
    : result bool * User :=
  if negb (two_factor_enabled u) then
    (Raise (TwoFactorError "Two-factor authentication is not enabled"), u)
  else
    match check_locked_out u now with
    | Raise e => (Raise e, u)
    | Ok u1 =>
        let '(verified, u2) :=
          if is_backup then _verify_backup_code u1 code
          else
            match usable_secret u1 with
            | Some secret => (verify_totp secret code 1 now, u1)
            | None => (false, u1)
            end in
        if verified then (Ok true, set_failed_2fa 0 u2)
        else (Ok false, set_failed_2fa (failed_2fa_attempts u2 + 1) u2)
    end.



(** The account after a run of TOTP attempts, each a code and a time. *)
Definition after_2fa_attempts (u : User) (attempts : list (string * Z)) : User :=
  foldl (λ acc a, (verify_2fa_code acc a.1 false a.2).2) u attempts.

End TwoFactorService.

(** ** app/middleware/rate_limiter.py *)

(** A Redis sorted set whose members are [str(score)]: the scores in
    ascending order, each once; [expire_at] is the deadline set by
    [EXPIRE]. *)
Record Bucket : Type := {
  members : list Z;
  expire_at : option Z
}.

(** The Redis server: its keys, and whether the next pipeline execution
    or the next [ZRANGE] raises. *)
Record Redis : Type := {
  keys : gmap string Bucket;
  execute_fault : option exn;
  zrange_fault : option exn
}.

Inductive log_level : Type := Warning | Error.

(** The [RateLimiter] object: whether [redis_client] is set, and
    [enabled]. *)
Record RateLimiter : Type := {
  has_client : bool;
  enabled : bool
}.

(** [RateLimiter(redis_client)] *)
Definition new_rate_limiter (client : bool) : RateLimiter :=
  {| has_client := client; enabled := client |}.

(** The sorted set stored at [key] as a command sees it at time [now]: a
    key whose deadline has passed is gone. *)
Definition zset_at (r : Redis) (key : string) (now : Z) : list Z :=
  match keys r !! key with
  | Some b =>
      match expire_at b with
      | Some t => if t <=? now then [] else members b
      | None => members b
      end
  | None => []
  end.

(** [ZREMRANGEBYSCORE key lo hi] removes the members with
    [lo <= score <= hi]. *)
Definition zremrangebyscore (lo hi : Z) (l : list Z) : list Z :=
  filter (λ x, ¬ (lo ≤ x ≤ hi)) l.

(** [ZADD key {str(x): x}]: an existing member keeps its place. *)
Fixpoint zadd (x : Z) (l : list Z) : list Z :=
  match l with
  | [] => [x]
  | y :: rest =>
      if x <? y then x :: y :: rest
      else if x =? y then y :: rest
      else y :: zadd x rest
  end.

(** [ZRANGE key 0 0 WITHSCORES]: the member of lowest score, if any. *)
Definition zrange_first (r : Redis) (key : string) (now : Z) : option Z :=
  head (zset_at r key now).

Definition set_keys (k : gmap string Bucket) (r : Redis) : Redis :=
  {| keys := k; execute_fault := execute_fault r; zrange_fault := zrange_fault r |}.

(** The pipeline of [check_rate_limit], executed as one transaction:
    [ZREMRANGEBYSCORE key 0 window_start], [ZCARD key],
    [ZADD key {str(now): now}], [EXPIRE key window].  It answers
    [results[1]], the cardinality before the addition. *)
Definition execute_pipeline (r : Redis) (key : string) (window : Z) (now : Z) : Z * Redis :=
  let window_start := now - timedelta_seconds window in
  let survivors := zremrangebyscore 0 window_start (zset_at r key now) in
  let bucket := {| members := zadd now survivors;
                   expire_at := Some (now + timedelta_seconds window) |} in
  (Z.of_nat (length survivors), set_keys (<[key := bucket]> (keys r)) r).

(** The body of the [try] block of [check_rate_limit]. *)
Definition check_rate_limit_try (r : Redis) (key : string) (limit window : Z) (now : Z)
    : result (bool * Z * Z) * Redis :=
  match execute_fault r with
  | Some e => (Raise e, r)
  | None =>
      let '(request_count, r') := execute_pipeline r key window now in
      if limit <=? request_count then
        match zrange_fault r with
        | Some e => (Raise e, r')
        | None =>
            let reset_time :=
              match zrange_first r' key now with
              | Some oldest => int_timestamp (oldest + timedelta_seconds window)
              | None => int_timestamp (now + timedelta_seconds window)
              end in
            (Ok (false, 0, reset_time), r')
        end
      else
        let remaining := limit - request_count - 1 in
        let reset_time := int_timestamp (now + timedelta_seconds window) in
        (Ok (true, remaining, reset_time), r')
  end.

(** [a in b] for strings. *)
Fixpoint contains (needle haystack : string) : bool :=
  String.prefix needle haystack
  || match haystack with
     | EmptyString => false
     | String _ rest => contains needle rest
     end.

Definition disable (rl : RateLimiter) : RateLimiter :=
  {| has_client := has_client rl; enabled := false |}.

(** The outcome of a check: the answer [(allowed, remaining, reset_time)],
    the limiter and the server afterwards, and what was logged. *)
Record Checked : Type := {
  answer : bool * Z * Z;
  limiter : RateLimiter;
  server : Redis;
  logged : list (log_level * string)
}.

(** [check_rate_limit], with its two [except] clauses. *)
Definition check_rate_limit (rl : RateLimiter) (r : Redis) (key : string)
    (limit window : Z) (now : Z) : Checked :=
  if negb (enabled rl) || negb (has_client rl) then
    {| answer := (true, limit, 0); limiter := rl; server := r; logged := [] |}
  else
    match check_rate_limit_try r key limit window now with
    | (Ok a, r') => {| answer := a; limiter := rl; server := r'; logged := [] |}
    | (Raise (ConnectionError msg), r') =>
        {| answer := (true, limit, 0); limiter := disable rl; server := r';
           logged := [(Warning, "Redis connection failed - disabling rate limiting")] |}
    | (Raise e, r') =>
        let error_message := exn_str e in
        if contains "Connection" error_message || contains "connection" error_message then
          {| answer := (true, limit, 0); limiter := disable rl; server := r';
             logged := [(Warning, "Redis connection issue - disabling rate limiting")] |}
        else
          {| answer := (true, limit, 0); limiter := rl; server := r';
             logged := [(Error, "Rate limit check failed")] |}
    end.

(** The exceptions the limiter treats as a lost connection: the built-in
    [ConnectionError], and any exception whose text mentions a
    connection. *)
Definition is_connection_error (e : exn) : bool :=
  match e with
  | ConnectionError _ => true
  | _ => contains "Connection" (exn_str e) || contains "connection" (exn_str e)
  end.

(** The answers [allowed] of successive checks of one key. *)
Fixpoint check_all (rl : RateLimiter) (r : Redis) (key : string) (limit window : Z)
    (times : list Z) : list bool :=
  match times with
  | [] => []
  | t :: rest =>
      let c := check_rate_limit rl r key limit window t in
      (answer c).1.1 :: check_all (limiter c) (server c) key limit window rest
  end.

(** ** The algorithm of the design notes

    The sliding-window check as the specification words it: drop the
    entries with timestamp before [now - window], count the survivors,
    reject without inserting when the count has reached the limit, and
    insert [now] only when admitting. *)
Definition spec_check (bucket : list Z) (limit window : Z) (now : Z)
    : (bool * Z * Z) * list Z :=
  let survivors := filter (λ x, ¬ (x < now - timedelta_seconds window)) bucket in
  let count := Z.of_nat (length survivors) in
  if limit <=? count then
    ((false, 0,
      match head survivors with
      | Some oldest => int_timestamp (oldest + timedelta_seconds window)
      | None => int_timestamp (now + timedelta_seconds window)
      end), survivors)
  else
    ((true, limit - count - 1, int_timestamp (now + timedelta_seconds window)),
     zadd now survivors).

Fixpoint spec_check_all (bucket : list Z) (limit window : Z) (times : list Z) : list bool :=
  match times with
  | [] => []
  | t :: rest =>
      let out := spec_check bucket limit window t in
      out.1.1.1 :: spec_check_all out.2 limit window rest
  end.

(** ** Contracts and rejection conditions *)

(** The contract of python-jose that the engine relies on: a token signed
    with a key decodes, with that key and algorithm, to the claims it was
    made from as long as the claims are valid at decoding time, and raises
    [JWTError] otherwise. *)
Class JoseContract `{JoseLibrary} : Prop := {
  jose_decode_encode :
    ∀ (p : gmap string json) (key alg : string) (now : Z),
      jose_claims_valid p now = true →
      jwt_decode (jwt_encode p key alg) key [alg] now = Ok p;
  jose_decode_invalid :
    ∀ (p : gmap string json) (key alg : string) (now : Z),
      jose_claims_valid p now = false →
      ∃ msg, jwt_decode (jwt_encode p key alg) key [alg] now = Raise (JWTError msg)
}.

(** The conditions on decoded claims under which verification must answer
    [None]: the kind is missing or is not the expected one, a required
    field is missing (or empty), or the current time is past the expiry. *)
Inductive claims_rejected (p : gmap string json) (expected_type : string) (now : Z) : Prop :=
| kind_missing : truthy (dict_get p "type") = false → claims_rejected p expected_type now
| kind_mismatch : json_ne_str (dict_get p "type") expected_type = true →
                  claims_rejected p expected_type now
| subject_missing : truthy (dict_get p "sub") = false → claims_rejected p expected_type now
| expiry_missing : dict_get p "exp" = JNull → claims_rejected p expected_type now
| issued_at_missing : dict_get p "iat" = JNull → claims_rejected p expected_type now
| email_missing : expected_type = "access" → truthy (dict_get_default p "email" (JStr "")) = false →
                  claims_rejected p expected_type now
| token_id_missing : expected_type = "refresh" → truthy (dict_get p "jti") = false →
                     claims_rejected p expected_type now
| expired (e : Z) : dict_get p "exp" = JNum e → e * us_per_second < now →
                    claims_rejected p expected_type now.

Section Rejection.
Context `{JoseLibrary} (settings : Settings).

(** A token is invalid when its signature does not verify (decoding
    raises) or its claims are rejected. *)
Inductive token_invalid (token : Token) (expected_type : string) (now : Z) : Prop :=
| signature_invalid (e : exn) :
    jwt_decode token (SECRET_KEY settings) [ALGORITHM settings] now = Raise e →
    token_invalid token expected_type now
| claims_invalid (p : gmap string json) :
    jwt_decode token (SECRET_KEY settings) [ALGORITHM settings] now = Ok p →
    claims_rejected p expected_type now →
    token_invalid token expected_type now.

End Rejection.

(** * Further parts of the engine *)

(** ** More of [app/core/security.py] *)

(** Python's character classes of one character of a [str]
    ([c.isupper()], [c.islower()], [c.isdigit()]); a string of the
    embedding holds the characters of a [str] one by one. *)
Class CharClasses : Type := {
  isupper : ascii → bool;
  islower : ascii → bool;
  isdigit : ascii → bool
}.

(** passlib: [pwd_context.hash(password)], with the salt it draws. *)
Class PasswordHasher : Type := {
  pwd_context_hash : string → string → string
}.

(** What the engine relies on from passlib: a hash is not empty and
    verifies the password it was made from. *)
Class PasswordContract `{PasswordContext} `{PasswordHasher} : Prop := {
  hash_verifies :
    ∀ salt password : string,
      pwd_context_verify password (pwd_context_hash salt password) = Ok true;
  hash_not_empty :
    ∀ salt password : string, pwd_context_hash salt password ≠ ""
}.

(** [get_password_hash] *)
Definition get_password_hash `{PasswordHasher} (salt password : string) : string :=
  pwd_context_hash salt password.

(** [any(p(c) for c in s)] *)
Definition any_char (p : ascii → bool) (s : string) : bool :=
  existsb p (String.list_ascii_of_string s).

(** The punctuation set of [is_password_strong]; its fourteenth character
    is the double quote. *)
Definition special_chars : string :=
  "!@#$%^&*(),.?" +:+ String (ascii_of_nat 34) ":{}|<>".

(** [c in special_chars] *)
Definition is_special (c : ascii) : bool :=
  existsb (Ascii.eqb c) (String.list_ascii_of_string special_chars).

Definition issue_length : string := "Password must be at least 8 characters long".
Definition issue_upper : string := "Password must contain at least one uppercase letter".
Definition issue_lower : string := "Password must contain at least one lowercase letter".
Definition issue_digit : string := "Password must contain at least one digit".
Definition issue_special : string := "Password must contain at least one special character".

(** [is_password_strong]: the issues are appended rule by rule. *)
Definition is_password_strong `{CharClasses} (password : string) : bool * list string :=
  let issues : list string := [] in
  let issues :=
    if (String.length password <? 8)%nat then issues ++ [issue_length] else issues in
  let issues :=
    if negb (any_char isupper password) then issues ++ [issue_upper] else issues in
  let issues :=
    if negb (any_char islower password) then issues ++ [issue_lower] else issues in
  let issues :=
    if negb (any_char isdigit password) then issues ++ [issue_digit] else issues in
  let issues :=
    if negb (any_char is_special password) then issues ++ [issue_special] else issues in
  ((length issues =? 0)%nat, issues).

(** [s.split(sep, 1)] when it has two parts. *)
Fixpoint split_once (sep : ascii) (s : string) : option (string * string) :=
  match s with
  | EmptyString => None
  | String c rest =>
      if Ascii.eqb c sep then Some (EmptyString, rest)
      else match split_once sep rest with
           | Some (before, after) => Some (String c before, after)
           | None => None
           end
  end.

(** [check_permission]: unpacking [required_permission.split(":", 1)] into
    two names is a [ValueError] when the string has no colon. *)
Definition check_permission (user_permissions : list string) (required_permission : string)
    : result bool :=
  if bool_decide ("*:*" ∈ user_permissions) then Ok true
  else if bool_decide (required_permission ∈ user_permissions) then Ok true
  else
    match split_once ":" required_permission with
    | None => Raise (Exception "ValueError" "not enough values to unpack (expected 2, got 1)")
    | Some (resource, action) =>
        let resource_wildcard := resource +:+ ":*" in
        if bool_decide (resource_wildcard ∈ user_permissions) then Ok true else Ok false
    end.

(** [has_role] *)
Definition has_role (user_roles : list string) (required_role : string) : bool :=
  bool_decide (required_role ∈ user_roles).

(** ** More of [app/services/auth_service.py] *)

(** The fields of [RegisterRequest] that reach the tables. *)
Record RegisterRequest : Type := {
  rr_email : string;
  rr_password : string
}.

(** [isinstance(e, ValueError)] *)
Definition is_ValueError (e : exn) : bool :=
  match e with
  | Exception cls _ => String.eqb cls "ValueError"
  | _ => false
  end.

Section Registration.
Context `{JoseLibrary} `{PasswordContext} `{PasswordHasher} `{CharClasses} `{FernetCipher}.

(** The row of [User(email=..., hashed_password=..., is_active=True,
    is_verified=False, is_superuser=False)], the other columns at their
    defaults. *)
Definition new_user (id email password_hash : string) (roles : list Role) : User :=
  {| user_id := id; user_email := email;
     hashed_password := Some password_hash; is_active := true;
     is_verified := false; totp_secret := None;
     two_factor_enabled := false; two_factor_verified_at := None;
     backup_codes := None; two_factor_recovery_codes_used := 0;
     failed_login_attempts := 0; locked_until := None;
     failed_2fa_attempts := 0; last_login := None;
     user_roles := roles |}.

(** The body of the [try] block of [register_user].  [roles_table] is the
    table of roles, [new_id] the identifier drawn for the row and [salt]
    the salt drawn by the hashing. *)
Definition register_user_try (s : Session) (roles_table : list Role)
    (registration_data : RegisterRequest) (new_id salt : string)
    : result UserResponse * Session :=
  match scalar_one_or_none
          (filter (λ u, user_email u = rr_email registration_data) (users (working s))) with
  | Raise e => (Raise e, s)
  | Ok (Some _) => (Raise (Exception "ValueError" "Email address is already registered"), s)
  | Ok None =>
      let '(is_strong, issues) := is_password_strong (rr_password registration_data) in
      if negb is_strong then
        (Raise (Exception "ValueError"
                  ("Password requirements not met: " +:+ String.concat ", " issues)), s)
      else
        let password_hash := get_password_hash salt (rr_password registration_data) in
        match scalar_one_or_none (filter (λ r, role_name r = "user") roles_table) with
        | Raise e =>
            (Raise e,
             set_users (λ rows, rows ++ [new_user new_id (rr_email registration_data)
                                           password_hash []]) s)
        | Ok user_role =>
            let user := new_user new_id (rr_email registration_data) password_hash
                          (match user_role with Some r => [r] | None => [] end) in
            let s1 := set_users (λ rows, rows ++ [user]) s in
            (Ok {| ur_id := user_id user; ur_email := user_email user;
                   ur_is_active := is_active user; ur_is_verified := is_verified user;
                   ur_roles := ["user"]; ur_last_login := None |}, commit s1)
        end
  end.

(** [register_user]: both [except] clauses roll the session back; an
    exception that is not a [ValueError] is turned into an
    [AuthenticationError]. *)
Definition register_user (s : Session) (roles_table : list Role)
    (registration_data : RegisterRequest) (new_id salt : string)
    : result UserResponse * Session :=
  match register_user_try s roles_table registration_data new_id salt with
  | (Ok r, s') => (Ok r, s')
  | (Raise e, s') =>
      if is_ValueError e then (Raise e, rollback s')
      else (Raise (AuthenticationError ("Registration failed: " +:+ exn_str e)), rollback s')
  end.

(** [check_user_permission]: every exception is logged and answered with
    [False]. *)
Definition check_user_permission (s : Session) (id required_permission : string) : bool :=
  match scalar_one_or_none (filter (λ u, user_id u = id) (users (working s))) with
  | Raise _ => false
  | Ok None => false
  | Ok (Some user) =>
      if negb (is_active user) then false
      else match check_permission (get_permissions user) required_permission with
           | Ok b => b
           | Raise _ => false
           end
  end.

End Registration.

(** ** [app/dependencies/auth.py] *)

(** [HTTPException(status_code, detail)] *)
Record HTTPException : Type := {
  status_code : Z;
  detail : string
}.

(** The fields of [CurrentUser] taken from the columns of the embedding. *)
Record CurrentUser : Type := {
  cu_id : string;
  cu_email : string;
  cu_is_active : bool;
  cu_is_verified : bool;
  cu_roles : list string;
  cu_permissions : list string
}.

Section Dependencies.
Context `{JoseLibrary} `{FernetCipher} (settings : Settings).

(** [get_current_user]; [credentials] is the bearer token of the request,
    if any.  An exception of the lookup is answered with status 500. *)
Definition get_current_user (s : Session) (credentials : option Token) (now : Z)
    : HTTPException + CurrentUser :=
  match credentials with
  | None => inl {| status_code := 401; detail := "Authentication credentials required" |}
  | Some token =>
      match verify_token settings token "access" now with
      | None => inl {| status_code := 401; detail := "Invalid or expired token" |}
      | Some token_data =>
          match scalar_one_or_none
                  (filter (λ u, json_eq_str (sub token_data) (user_id u) = true)
                     (users (working s))) with
          | Raise _ => inl {| status_code := 500; detail := "Authentication service error" |}
          | Ok None => inl {| status_code := 401; detail := "User not found" |}
          | Ok (Some user) =>
              if negb (is_active user) then
                inl {| status_code := 401; detail := "Account is not active" |}
              else if negb (is_verified user) then
                inl {| status_code := 401; detail := "Email address is not verified" |}
              else
                inr {| cu_id := user_id user; cu_email := user_email user;
                       cu_is_active := is_active user; cu_is_verified := is_verified user;
                       cu_roles := role_name <$> user_roles user;
                       cu_permissions := get_permissions user |}
          end
      end
  end.

(** [getattr(token_data, name)]: the attributes are those that
    [TokenData.__init__] assigns; any other name is an [AttributeError]. *)
Definition token_data_getattr (token_data : TokenData) (name : string) : result json :=
  if String.eqb name "sub" then Ok (sub token_data)
  else if String.eqb name "email" then Ok (email token_data)
  else if String.eqb name "roles" then Ok (roles token_data)
  else if String.eqb name "permissions" then Ok (permissions token_data)
  else if String.eqb name "token_type" then Ok (token_type token_data)
  else if String.eqb name "exp" then Ok (exp token_data)
  else if String.eqb name "iat" then Ok (iat token_data)
  else if String.eqb name "jti" then Ok (default JNull (jti token_data))
  else Raise (Exception "AttributeError"
                ("'TokenData' object has no attribute '" +:+ name +:+ "'")).

(** The body of the [try] block of [get_current_user_optional], which
    selects the user row by [token_data.user_id].  The permissions are
    the distinct names of the permissions of the roles, as in
    [User.get_permissions]. *)
Definition get_current_user_optional_try (s : Session) (token : Token) (now : Z)
    : result (option CurrentUser) :=
  match verify_token settings token "access" now with
  | None => Ok None
  | Some token_data =>
      let* id := token_data_getattr token_data "user_id" in
      let* found :=
        scalar_one_or_none
          (filter (λ u, json_eq_str id (user_id u) = true) (users (working s))) in
      match found with
      | None => Ok None
      | Some user =>
          if negb (is_active user) then Ok None
          else
            Ok (Some {| cu_id := user_id user; cu_email := user_email user;
                        cu_is_active := is_active user;
                        cu_is_verified := is_verified user;
                        cu_roles := role_name <$> user_roles user;
                        cu_permissions := get_permissions user |})
      end
  end.

(** [get_current_user_optional]: any exception means no authentication. *)
Definition get_current_user_optional (s : Session) (credentials : option Token) (now : Z)
    : option CurrentUser :=
  match credentials with
  | None => None
  | Some token =>
      match get_current_user_optional_try s token now with
      | Ok current_user => current_user
      | Raise _ => None
      end
  end.

(** [get_optional_current_user]: [get_current_user], with its
    [HTTPException] answered by [None]. *)
Definition get_optional_current_user (s : Session) (credentials : option Token) (now : Z)
    : option CurrentUser :=
  match credentials with
  | None => None
  | Some _ =>
      match get_current_user s credentials now with
      | inr current_user => Some current_user
      | inl _ => None
      end
  end.

(** [CurrentUser.has_permission] *)
Definition has_permission (current_user : CurrentUser) (required_permission : string)
    : result bool :=
  check_permission (cu_permissions current_user) required_permission.

End Dependencies.

Section RefreshConditions.
Context `{JoseLibrary} `{FernetCipher} (settings : Settings).

(** The conditions under which a refresh is served: the token verifies as
    a refresh token with token id [j]; exactly one record has that id and
    is not revoked, and it has not expired; exactly one user row has the
    record's user id, and it is active. *)
Definition refresh_served (s : Session) (token : Token) (now : Z) (j : json)
    (record : RefreshToken) (u : User) : Prop :=
  (∃ td, verify_token settings token "refresh" now = Some td ∧ jti td = Some j)
  ∧ truthy j = true
  ∧ filter (λ r, json_eq_str j (token_id r) = true ∧ is_revoked r = false)
      (refresh_tokens (working s)) = [record]
  ∧ is_valid record now = true
  ∧ filter (λ r, user_id r = rt_user_id record) (users (working s)) = [u]
  ∧ is_active u = true.

End RefreshConditions.

(** ** More of [app/services/two_factor_service.py] *)

Definition BACKUP_CODES_COUNT : nat := 10.

Definition backup_alphabet : string := "0123456789ABCDEFGHIJKLMNOPQRSTUVWXYZ".

(** The [k]-th call of [secrets.choice] on the alphabet, [rnd k] being the
    index drawn. *)
Definition choice (rnd : nat → nat) (k : nat) : ascii :=
  default "0"%char (String.get (rnd k `mod` 36)%nat backup_alphabet).

(** [''.join(secrets.choice(...) for _ in range(4))], from draw [k] on. *)
Definition four_chars (rnd : nat → nat) (k : nat) : string :=
  String (choice rnd k) (String (choice rnd (k + 1))
    (String (choice rnd (k + 2)) (String (choice rnd (k + 3)) EmptyString))).

(** The [i]-th code, [f"{part1}-{part2}"]. *)
Definition backup_code (rnd : nat → nat) (i : nat) : string :=
  four_chars rnd (8 * i) +:+ "-" +:+ four_chars rnd (8 * i + 4).

(** [_generate_backup_codes] *)
Definition _generate_backup_codes (rnd : nat → nat) : list string :=
  backup_code rnd <$> seq 0 BACKUP_CODES_COUNT.

(** The length bounds of [code] in [TwoFactorVerifyRequest] and
    [TwoFactorLoginRequest]: [min_length=6, max_length=8]. *)
Definition code_length_valid (code : string) : bool :=
  (6 <=? String.length code)%nat && (String.length code <=? 8)%nat.

(** What [setup_totp] hands back, without the rendering of the QR code and
    of the provisioning URI. *)
Record TotpSetup : Type := {
  setup_secret : string;
  setup_backup_codes : list string
}.

(** [get_2fa_status], without the WebAuthn entry. *)
Record TwoFactorStatus : Type := {
  status_enabled : bool;
  status_verified_at : option Z;
  backup_codes_remaining : Z;
  method_totp : bool;
  method_backup_codes : bool
}.

Section TwoFactorSetup.
Context `{PasswordContext} `{PasswordHasher} `{TotpLibrary} `{FernetCipher}.

(** [[get_password_hash(code) for code in backup_codes]], the [i]-th hash
    with the salt [salts i]. *)
Definition hash_codes (salts : nat → string) (codes : list string) : list (option string) :=
  imap (λ i code, Some (get_password_hash (salts i) code)) codes.

Definition set_totp_secret (secret : option string) (u : User) : User :=
  {| user_id := user_id u; user_email := user_email u;
     hashed_password := hashed_password u; is_active := is_active u;
     is_verified := is_verified u; totp_secret := secret;
     two_factor_enabled := two_factor_enabled u;
     two_factor_verified_at := two_factor_verified_at u;
     backup_codes := backup_codes u;
     two_factor_recovery_codes_used := two_factor_recovery_codes_used u;
     failed_login_attempts := failed_login_attempts u;
     locked_until := locked_until u;
     failed_2fa_attempts := failed_2fa_attempts u;
     last_login := last_login u;
     user_roles := user_roles u |}.

(** [setup_totp]; [secret] is the value of [pyotp.random_base32()]. *)
Definition setup_totp (u : User) (secret : string) (rnd : nat → nat) (salts : nat → string)
    : result TotpSetup * User :=
  if two_factor_enabled u then
    (Raise (TwoFactorError "Two-factor authentication is already enabled"), u)
  else
    let codes := _generate_backup_codes rnd in
    let encrypted_codes := cipher_encrypt (hash_codes salts codes) in
    (Ok {| setup_secret := secret; setup_backup_codes := codes |},
     set_backup_codes (Some encrypted_codes) 0 (set_totp_secret (Some secret) u)).

(** [regenerate_backup_codes] *)
Definition regenerate_backup_codes (u : User) (rnd : nat → nat) (salts : nat → string)
    : result (list string) * User :=
  if negb (two_factor_enabled u) then
    (Raise (TwoFactorError "Two-factor authentication is not enabled"), u)
  else
    let codes := _generate_backup_codes rnd in
    let encrypted_codes := cipher_encrypt (hash_codes salts codes) in
    (Ok codes, set_backup_codes (Some encrypted_codes) 0 u).

(** [verify_password(password, user.hashed_password)], which is [False]
    when the column is [None]. *)
Definition verify_user_password (u : User) (password : string) : bool :=
  match hashed_password u with
  | Some hashed => verify_password password hashed
  | None => false
  end.

(** [disable_two_factor] *)
Definition disable_two_factor (u : User) (password : string) : result bool * User :=
  if negb (two_factor_enabled u) then
    (Raise (TwoFactorError "Two-factor authentication is not enabled"), u)
  else if negb (verify_user_password u password) then
    (Raise (TwoFactorError "Invalid password"), u)
  else
    (Ok true,
     set_two_factor false None 0 (set_backup_codes None 0 (set_totp_secret None u))).

(** [get_2fa_status] *)
Definition get_2fa_status (u : User) : TwoFactorStatus :=
  {| status_enabled := two_factor_enabled u;
     status_verified_at := two_factor_verified_at u;
     backup_codes_remaining :=
       if two_factor_enabled u && bool_decide (is_Some (backup_codes u))
       then Z.of_nat BACKUP_CODES_COUNT - two_factor_recovery_codes_used u
       else 0;
     method_totp := bool_decide (is_Some (usable_secret u));
     method_backup_codes := bool_decide (is_Some (backup_codes u)) |}.

(** The operations of the two-factor service on one account. *)
Inductive two_factor_op : Type :=
| OpSetup (secret : string) (rnd : nat → nat) (salts : nat → string)
| OpEnable (totp_code : string) (now : Z)
| OpVerify (code : string) (is_backup : bool) (now : Z)
| OpRegenerate (rnd : nat → nat) (salts : nat → string)
| OpDisable (password : string).

(** The account after an operation, whether it returned or raised. *)
Definition after_op (u : User) (op : two_factor_op) : User :=
  match op with
  | OpSetup secret rnd salts => (setup_totp u secret rnd salts).2
  | OpEnable totp_code now => (verify_and_enable_totp u totp_code now).2
  | OpVerify code is_backup now => (verify_2fa_code u code is_backup now).2
  | OpRegenerate rnd salts => (regenerate_backup_codes u rnd salts).2
  | OpDisable password => (disable_two_factor u password).2
  end.

Definition after_ops (u : User) (ops : list two_factor_op) : User :=
  foldl after_op u ops.

(** The slots of the account's list that are still unused. *)
Definition unused_slots (l : list (option string)) : nat :=
  length (filter is_Some l).

(** The two-factor columns agree with one another: an enabled account
    has a usable secret and the time at which it was enabled, and the
    attempt counter is between 0 and [MAX_2FA_ATTEMPTS]. *)
Definition two_factor_consistent (u : User) : Prop :=
  (two_factor_enabled u = true →
   is_Some (usable_secret u) ∧ is_Some (two_factor_verified_at u))
  ∧ 0 ≤ failed_2fa_attempts u ≤ MAX_2FA_ATTEMPTS.

(** The stored list has [BACKUP_CODES_COUNT] slots, and the counter of
    used codes is the number of its slots that are [null]. *)
Definition backup_codes_consistent (u : User) : Prop :=
  match backup_codes u with
  | Some encrypted =>
      ∃ l : list (option string),
        encrypted = cipher_encrypt l
        ∧ length l = BACKUP_CODES_COUNT
        ∧ two_factor_recovery_codes_used u
          = Z.of_nat BACKUP_CODES_COUNT - Z.of_nat (unused_slots l)
  | None => True
  end.

End TwoFactorSetup.

(** ** More of [app/middleware/rate_limiter.py] *)

(** What the trimming of the pipeline leaves of the bucket of [key] at a
    time [t] later than every earlier request [prev]: the earlier requests
    less than a window old. *)
Definition tracks (key : string) (window : Z) (r : Redis) (prev : list Z) : Prop :=
  ∀ t, (∀ x, x ∈ prev → x < t) →
       zremrangebyscore 0 (t - timedelta_seconds window) (zset_at r key t)
       = filter (λ x, t - timedelta_seconds window < x) prev.

(** ** Reference implementations of the library interfaces

    Small executable stand-ins for the external libraries, used to run the
    engine on concrete inputs. *)
Module Reference.

(** A token is either text that is not a signed token, or claims together
    with the key and algorithm that signed them. *)
Inductive token : Type :=
| Garbage (text : string)
| Signed (claims : gmap string json) (key alg : string).

#[global] Instance jose : JoseLibrary := {|
  Token := token;
  jwt_encode p key alg := Signed p key alg;
  jwt_decode t key algorithms now :=
    match t with
    | Garbage _ => Raise (JWTError "Not enough segments")
    | Signed p k a =>
        if String.eqb k key && bool_decide (a ∈ algorithms) then
          if jose_claims_valid p now then Ok p
          else Raise (JWTError "Invalid claims")
        else Raise (JWTError "Signature verification failed")
    end
|}.

(** A hash is ["$<salt>$<password>"], with a one-character salt; anything
    else is not recognised as a hash. *)
#[global] Instance passlib : PasswordContext := {|
  pwd_context_verify plain hashed :=
    match hashed with
    | String "$"%char (String _ (String "$"%char rest)) => Ok (String.eqb rest plain)
    | _ => Raise (Exception "UnknownHashError" "hash could not be identified")
    end
|}.

(** The valid code of a secret is ["otp-<secret>"], at every time. *)
#[global] Instance pyotp : TotpLibrary := {|
  totp_verify secret code window now := Ok (String.eqb code ("otp-" +:+ secret))
|}.

(** The identity cipher. *)
#[global] Instance fernet : FernetCipher := {|
  Ciphertext := list (option string);
  cipher_encrypt l := l;
  cipher_decrypt c := Ok c
|}.

Definition settings : Settings := get_settings "server-secret".

(** 2023-11-14 22:13:20 UTC, and a fifth of a second later. *)
Definition t0 : Z := 1700000000 * us_per_second.
Definition t0' : Z := t0 + 200000.

(** An active account with two-factor authentication enabled an hour
    before [t0]. *)
Definition alice : User :=
  {| user_id := "user-1"; user_email := "alice@example.com";
     hashed_password := Some "$a$Secret123!"; is_active := true;
     is_verified := true; totp_secret := Some "JBSWY3DPEHPK3PXP";
     two_factor_enabled := true;
     two_factor_verified_at := Some (t0 - timedelta_minutes 60);
     backup_codes := Some [Some "$a$ABCD-1234"; Some "$b$WXYZ-9876"];
     two_factor_recovery_codes_used := 0;
     failed_login_attempts := 0;
     locked_until := None;
     failed_2fa_attempts := 0;
     last_login := None;
     user_roles := [ {| role_name := "user"; role_permissions := [] |} ] |}.

Definition db0 : Database :=
  {| users := [alice]; refresh_tokens := []; user_sessions := [] |}.

Definition session0 : Session := {| committed := db0; working := db0 |}.

(** The same tables with a refresh record and an open session of the
    account. *)
Definition alice_refresh : RefreshToken :=
  {| token_id := "jti-0"; rt_user_id := "user-1";
     expires_at := t0 + timedelta_days 30; is_revoked := false;
     revoked_at := None; used_at := None |}.

Definition alice_session : UserSession :=
  {| session_id := "sid-0"; us_user_id := "user-1"; us_is_active := true;
     ended_at := None |}.

Definition db1 : Database :=
  {| users := [alice]; refresh_tokens := [alice_refresh];
     user_sessions := [alice_session] |}.

Definition session1 : Session := {| committed := db1; working := db1 |}.

(** A Redis server with no key, and the same server out of reach. *)
Definition redis0 : Redis :=
  {| keys := ∅; execute_fault := None; zrange_fault := None |}.


(** A server whose bucket ["k"] holds one request, made [ago]
    microseconds before [t0]. *)
Definition redis_with (ago : Z) : Redis :=
  {| keys := {[ "k" := {| members := [t0 - ago]; expire_at := None |} ]};
     execute_fault := None; zrange_fault := None |}.

Definition rate_limiter : RateLimiter := new_rate_limiter true.

(** The times of [n] attempts, one microsecond apart, from [t0] on. *)
Definition attempt_times (n : nat) : list Z := (λ i : nat, t0 + Z.of_nat i) <$> seq 0 n.


(** The character classes of ASCII. *)
#[global] Instance char_classes : CharClasses := {|
  isupper c := (65 <=? nat_of_ascii c)%nat && (nat_of_ascii c <=? 90)%nat;
  islower c := (97 <=? nat_of_ascii c)%nat && (nat_of_ascii c <=? 122)%nat;
  isdigit c := (48 <=? nat_of_ascii c)%nat && (nat_of_ascii c <=? 57)%nat
|}.

(** The hash of [passlib] above, salted with the first character of the
    salt. *)
#[global] Instance hasher : PasswordHasher := {|
  pwd_context_hash salt password :=
    String "$"%char (String (default "s"%char (String.get 0 salt))
      (String "$"%char password))
|}.

(** The table of roles. *)
Definition roles_table : list Role :=
  [ {| role_name := "user";
       role_permissions := [ {| resource := "users"; action := "read" |} ] |};
    {| role_name := "admin";
       role_permissions := [ {| resource := "*"; action := "*" |} ] |} ].

Definition bob_request : RegisterRequest :=
  {| rr_email := "bob@example.com"; rr_password := "Abcdef1!" |}.

(** The account that registration creates for that request. *)
Definition bob : User :=
  new_user "user-2" "bob@example.com" (get_password_hash "s" "Abcdef1!") [].

(** Draws that walk through the alphabet, and salts. *)
Definition draws (k : nat) : nat := (7 * k + 3)%nat.
Definition salts (i : nat) : string := "s".

(** The claims of an access token and of a refresh token of the account,
    issued at [t0] with the default lifetimes. *)
Definition alice_access_data : TokenData :=
  {| sub := JStr "user-1"; email := JStr "alice@example.com";
     roles := JList [JStr "user"]; permissions := JList [];
     token_type := JStr "access"; exp := JNum 1700000900;
     iat := JNum 1700000000; jti := None |}.

Definition alice_refresh_data : TokenData :=
  {| sub := JStr "user-1"; email := JStr "";
     roles := JList []; permissions := JList [];
     token_type := JStr "refresh"; exp := JNum 1702592000;
     iat := JNum 1700000000; jti := Some (JStr "jti-0") |}.

End Reference.

(** * Properties of the token codec *)

(** A closed statement about a concrete run is settled by evaluating the
    run. *)
Ltac by_evaluation := cbn zeta; repeat split; vm_compute; reflexivity.

Section SecurityProperties.
Context `{JoseLibrary} (settings : Settings).

Lemma dict_get_missing (p : gmap string json) (k : string) :
  p !! k = None → dict_get p k = JNull.
Proof. intros Hk. unfold dict_get. by rewrite Hk. Qed.

Lemma verify_token_decode_raises (token : Token) (expected_type : string) (now : Z) (e : exn) :
  jwt_decode token (SECRET_KEY settings) [ALGORITHM settings] now = Raise e →
  verify_token settings token expected_type now = None.
Proof.
  intros Hdec. unfold verify_token, verify_token_try. by rewrite Hdec.
Qed.

Lemma verify_token_claims_rejected (token : Token) (expected_type : string) (now : Z)
    (p : gmap string json) :
  jwt_decode token (SECRET_KEY settings) [ALGORITHM settings] now = Ok p →
  claims_rejected p expected_type now →
  verify_token settings token expected_type now = None.
Proof.
  intros Hdec Hrej. unfold verify_token, verify_token_try. rewrite Hdec. cbn [bind].
  destruct (negb (truthy (dict_get p "sub")) || negb (truthy (dict_get p "type"))
            || is_None (dict_get p "exp") || is_None (dict_get p "iat")) eqn:Hreq;
    [done|].
  apply orb_false_elim in Hreq as [Hreq Hiat].
  apply orb_false_elim in Hreq as [Hreq Hexp].
  apply orb_false_elim in Hreq as [Hsub Htype].
  apply negb_false_iff in Hsub, Htype.
  destruct (json_ne_str (dict_get p "type") expected_type) eqn:Hkind; [done|].
  destruct Hrej as [Hr|Hr|Hr|Hr|Hr|Hacc Hr|Href Hr|e He Hlt]; try congruence.
  - rewrite Hr in Hexp. discriminate.
  - rewrite Hr in Hiat. discriminate.
  - subst expected_type.
    destruct (timestamp_gt now (dict_get p "exp")) as [[]|]; cbn; [done| |done].
    by rewrite Hr.
  - subst expected_type.
    destruct (timestamp_gt now (dict_get p "exp")) as [[]|]; cbn; [done| |done].
    by rewrite Hr.
  - rewrite He. cbn.
    by rewrite (proj2 (Z.ltb_lt _ _) Hlt).
Qed.

(** The claims of an access token, with the codec's own conventions. *)
Lemma verify_token_accepts_access (token : Token) (now : Z) (p : gmap string json)
    (uid mail : string) (e : Z) :
  jwt_decode token (SECRET_KEY settings) [ALGORITHM settings] now = Ok p →
  p !! "sub" = Some (JStr uid) → uid ≠ "" →
  p !! "type" = Some (JStr "access") →
  p !! "email" = Some (JStr mail) → mail ≠ "" →
  p !! "exp" = Some (JNum e) → now ≤ e * us_per_second →
  (∃ i, p !! "iat" = Some (JNum i)) →
  ∃ td, verify_token settings token "access" now = Some td
        ∧ sub td = JStr uid ∧ email td = JStr mail ∧ exp td = JNum e.
Proof.
  intros Hdec Hsub Huser Htype Hemail Hne Hexp Hle [i Hiat].
  unfold verify_token, verify_token_try. rewrite Hdec. cbn [bind].
  unfold dict_get, dict_get_default. rewrite Hsub, Htype, Hexp, Hiat, Hemail. cbn.
  apply String.eqb_neq in Huser, Hne. rewrite Huser, Hne. cbn.
  rewrite (proj2 (Z.ltb_ge _ _) Hle). cbn.
  eexists. split; [reflexivity|]. done.
Qed.

End SecurityProperties.

Section IssuedTokens.
Context `{JoseLibrary} `{!JoseContract} (settings : Settings).

Lemma quot_second_le (x : Z) : 0 ≤ x → int_timestamp x * us_per_second ≤ x.
Proof.
  intros Hx. unfold int_timestamp, us_per_second.
  rewrite Z.quot_div_nonneg by lia.
  pose proof (Z.mul_div_le x 1000000). lia.
Qed.


Lemma quot_second_neg (x : Z) : x < 0 → int_timestamp x * us_per_second ≤ 0.
Proof.
  intros Hx. unfold int_timestamp, us_per_second.
  assert (x ÷ 1000000 ≤ 0); [|lia].
  apply Z.quot_le_upper_bound; lia.
Qed.

(** A token that expired before it was issued. *)
Lemma negative_ttl_expired (d now now' : Z) :
  0 < now → d < 0 → now ≤ now' → int_timestamp (now + d) * us_per_second < now'.
Proof.
  intros Hnow Hd Hle.
  destruct (Z.lt_ge_cases (now + d) 0) as [Hneg|Hpos].
  - pose proof (quot_second_neg _ Hneg). lia.
  - pose proof (quot_second_le _ Hpos). lia.
Qed.

Lemma jose_valid_access_claims (uid mail : string) (rs ps : list string) (expire now now' : Z) :
  jose_claims_valid (access_claims uid mail rs ps expire now) now'
  = negb (int_timestamp expire <? now' `div` us_per_second).
Proof.
  unfold jose_claims_valid, claim_ok.
  change (access_claims uid mail rs ps expire now !! "exp")
    with (Some (JNum (int_timestamp expire))).
  change (access_claims uid mail rs ps expire now !! "iat")
    with (Some (JNum (int_timestamp now))).
  change (access_claims uid mail rs ps expire now !! "sub") with (Some (JStr uid)).
  change (access_claims uid mail rs ps expire now !! "jti") with (@None json).
  by rewrite !andb_true_r.
Qed.

Lemma jose_valid_refresh_claims (uid id : string) (expire now now' : Z) :
  jose_claims_valid (refresh_claims uid id expire now) now'
  = negb (int_timestamp expire <? now' `div` us_per_second).
Proof.
  unfold jose_claims_valid, claim_ok.
  change (refresh_claims uid id expire now !! "exp")
    with (Some (JNum (int_timestamp expire))).
  change (refresh_claims uid id expire now !! "iat")
    with (Some (JNum (int_timestamp now))).
  change (refresh_claims uid id expire now !! "sub") with (Some (JStr uid)).
  change (refresh_claims uid id expire now !! "jti") with (Some (JStr id)).
  by rewrite !andb_true_r.
Qed.

(** Whatever claims a signed token was made from, verification answers
    [None] as soon as those claims are rejected. *)
Lemma verify_signed_rejected (p : gmap string json) (expected_type : string) (now : Z) :
  claims_rejected p expected_type now →
  verify_token settings (jwt_encode p (SECRET_KEY settings) (ALGORITHM settings))
    expected_type now = None.
Proof.
  intros Hrej.
  destruct (jose_claims_valid p now) eqn:Hvalid.
  - eapply verify_token_claims_rejected; [|exact Hrej].
    by apply jose_decode_encode.
  - destruct (jose_decode_invalid p (SECRET_KEY settings) (ALGORITHM settings) now Hvalid)
      as [msg Hdec].
    by eapply verify_token_decode_raises.
Qed.

Lemma access_token_as_refresh (uid mail : string) (rs ps : list string)
    (d : option Z) (now now' : Z) :
  verify_token settings (create_access_token settings uid mail rs ps d now) "refresh" now' = None.
Proof.
  unfold create_access_token. cbn zeta.
  apply verify_signed_rejected. by apply kind_mismatch.
Qed.

Lemma refresh_token_as_access (uid id : string) (d : option Z) (now now' : Z) :
  verify_token settings (create_refresh_token settings uid d id now).1 "access" now' = None.
Proof.
  unfold create_refresh_token. cbn zeta. cbn [fst].
  apply verify_signed_rejected. by apply kind_mismatch.
Qed.

Lemma negative_ttl_access_rejected (uid mail : string) (rs ps : list string) (d now now' : Z) :
  0 < now → d < 0 → now ≤ now' →
  verify_token settings (create_access_token settings uid mail rs ps (Some d) now) "access" now'
  = None.
Proof.
  intros Hnow Hd Hle. unfold create_access_token, expiry. cbn zeta.
  rewrite (proj2 (Z.eqb_neq d 0)) by lia.
  apply verify_signed_rejected.
  eapply expired; [reflexivity|].
  by apply negative_ttl_expired.
Qed.

Lemma negative_ttl_refresh_rejected (uid id : string) (d now now' : Z) :
  0 < now → d < 0 → now ≤ now' →
  verify_token settings (create_refresh_token settings uid (Some d) id now).1 "refresh" now'
  = None.
Proof.
  intros Hnow Hd Hle. unfold create_refresh_token, expiry. cbn zeta. cbn [fst].
  rewrite (proj2 (Z.eqb_neq d 0)) by lia.
  apply verify_signed_rejected.
  eapply expired; [reflexivity|].
  by apply negative_ttl_expired.
Qed.

(** An access token verifies, with its subject, at any time up to the
    second of its expiry. *)
Lemma access_token_verifies_until (uid mail : string) (rs ps : list string)
    (d : option Z) (now now' : Z) :
  uid ≠ "" → mail ≠ "" →
  now' ≤ int_timestamp
           (expiry now d (timedelta_minutes (ACCESS_TOKEN_EXPIRE_MINUTES settings)))
         * us_per_second →
  ∃ td, verify_token settings (create_access_token settings uid mail rs ps d now) "access" now'
        = Some td ∧ sub td = JStr uid ∧ email td = JStr mail.
Proof.
  intros Huid Hmail Hle. unfold create_access_token. cbn zeta.
  set (expire := expiry now d _) in *.
  edestruct (verify_token_accepts_access settings
               (jwt_encode (access_claims uid mail rs ps expire now)
                  (SECRET_KEY settings) (ALGORITHM settings))
               now' (access_claims uid mail rs ps expire now) uid mail
               (int_timestamp expire)) as (td & Htd & Hsub & Hemail & _);
    try done; try reflexivity.
  - apply jose_decode_encode. rewrite jose_valid_access_claims.
    apply negb_true_iff, Z.ltb_ge.
    apply Z.div_le_upper_bound; unfold us_per_second in *; lia.
  - by eexists.
  - by exists td.
Qed.

End IssuedTokens.

(** The reference codec honours the contract of the JWT library. *)
#[global] Instance reference_jose_contract : @JoseContract Reference.jose.
Proof.
  split.
  - intros p key alg now Hvalid. cbn.
    rewrite String.eqb_refl, Hvalid.
    by rewrite bool_decide_eq_true_2 by set_solver.
  - intros p key alg now Hvalid. cbn.
    rewrite String.eqb_refl, Hvalid.
    rewrite bool_decide_eq_true_2 by set_solver. by eexists.
Qed.

(** C7, as amended.  [verify_token] is a function into [option TokenData]:
    every exception of its body, whatever its class, is answered with
    [None].  It
    answers [None] for every token whose signature does not verify, whose
    kind is missing or is not the expected kind, which lacks a required
    field, or whose expiry lies strictly before the current time.  In
    particular an access token checked as a refresh token is rejected, and
    the other way round, and so is a token issued with a negative
    lifetime. *)
Theorem verify_token_rejects_invalid `{JoseLibrary} `{!JoseContract} (settings : Settings) :
  (∀ (token : Token) (expected_type : string) (now : Z),
     token_invalid settings token expected_type now →
     verify_token settings token expected_type now = None)
  ∧ (∀ (uid mail : string) (rs ps : list string) (d : option Z) (now now' : Z),
       verify_token settings (create_access_token settings uid mail rs ps d now) "refresh" now'
       = None)
  ∧ (∀ (uid id : string) (d : option Z) (now now' : Z),
       verify_token settings (create_refresh_token settings uid d id now).1 "access" now'
       = None)
  ∧ (∀ (uid mail : string) (rs ps : list string) (d now now' : Z),
       0 < now → d < 0 → now ≤ now' →
       verify_token settings (create_access_token settings uid mail rs ps (Some d) now)
         "access" now' = None)
  ∧ (∀ (uid id : string) (d now now' : Z),
       0 < now → d < 0 → now ≤ now' →
       verify_token settings (create_refresh_token settings uid (Some d) id now).1
         "refresh" now' = None)
  ∧ (∀ (token : Token) (expected_type : string) (now : Z) (e : exn),
       verify_token_try settings token expected_type now = Raise e →
       verify_token settings token expected_type now = None).
Proof.
  split; [|split; [|split; [|split; [|split]]]].
  - intros token expected_type now [e Hdec|p Hdec Hrej].
    + by eapply verify_token_decode_raises.
    + by eapply verify_token_claims_rejected.
  - apply access_token_as_refresh.
  - apply refresh_token_as_access.
  - apply negative_ttl_access_rejected.
  - apply negative_ttl_refresh_rejected.
  - intros token expected_type now e Hraise. unfold verify_token. by rewrite Hraise.
Qed.

Lemma verify_token_rejects_invalid_witness :
  verify_token Reference.settings (Reference.Garbage "invalid-token") "access" Reference.t0
  = None
  ∧ verify_token Reference.settings
      (create_access_token Reference.settings "user-1" "alice@example.com" ["user"] []
         (Some (timedelta_seconds (-1))) Reference.t0)
      "access" Reference.t0 = None.
Proof.
  split.
  - apply (proj1 (verify_token_rejects_invalid Reference.settings)).
    eapply signature_invalid. reflexivity.
  - apply (proj1 (proj2 (proj2 (proj2 (verify_token_rejects_invalid Reference.settings)))));
      vm_compute; done.
Defined.

(** C7, as stated, fails for a lifetime of zero.  A token issued with
    [expires_delta = timedelta(0)] gets the default lifetime and is
    accepted at once and ten minutes later; and a token whose expiry is
    exactly the current time is accepted. *)
Lemma zero_ttl_token_accepted :
  let issued :=
    create_access_token Reference.settings "user-1" "alice@example.com" ["user"] []
      (Some 0) Reference.t0 in
  let expiring :=
    jwt_encode
      (access_claims "user-1" "alice@example.com" ["user"] [] Reference.t0 Reference.t0)
      (SECRET_KEY Reference.settings) (ALGORITHM Reference.settings) in
  (∃ td, verify_token Reference.settings issued "access" Reference.t0 = Some td
         ∧ sub td = JStr "user-1")
  ∧ (∃ td, verify_token Reference.settings issued "access"
             (Reference.t0 + timedelta_minutes 10) = Some td
           ∧ sub td = JStr "user-1")
  ∧ (∃ td, verify_token Reference.settings expiring "access" Reference.t0 = Some td
           ∧ exp td = JNum (int_timestamp Reference.t0)).
Proof.
  cbn zeta. repeat split; eexists; (split; [vm_compute; reflexivity|reflexivity]).
Qed.




(** * Properties of the lockout tracker *)

Section LockoutProperties.
Context `{FernetCipher}.








(** The row written by [_handle_failed_login] is the row of
    [record_failure]. *)
Lemma handle_failed_login_row (s : Session) (u : User) (now : Z) :
  u ∈ users (working s) →
  record_failure now u ∈ users (working (_handle_failed_login s (Some u) now)).
Proof.
  intros Hin. cbn. unfold update_where.
  apply list_elem_of_fmap. exists u. split; [|done].
  unfold has_id. by rewrite String.eqb_refl.
Qed.


End LockoutProperties.



(** * Properties of the session orchestrator *)

Section AuthProperties.
Context `{JoseLibrary} `{PasswordContext} `{FernetCipher} (settings : Settings).

(** What a successful login is: the one row with that email has a
    password hash that verifies, is neither locked nor inactive; the
    answer carries full tokens, and the session is committed with the
    counters reset and [last_login] set.  Nothing here reads
    [two_factor_enabled]. *)
Lemma authenticate_user_success (s s' : Session) (mail password tid sid : string) (now : Z)
    (resp : LoginResponse) :
  authenticate_user settings s mail password tid sid now = (Ok resp, s') →
  ∃ (u : User) (hashed : string),
    filter (λ r, user_email r = mail) (users (working s)) = [u]
    ∧ hashed_password u = Some hashed ∧ hashed ≠ ""
    ∧ is_locked u now = false
    ∧ verify_password password hashed = true
    ∧ is_active u = true
    ∧ access_token resp
      = create_access_token settings (user_id u) (user_email u)
          (role_name <$> user_roles u) [] None now
    ∧ refresh_token resp = (create_refresh_token settings (user_id u) None tid now).1
    ∧ requires_2fa resp = false
    ∧ temp_token resp = None
    ∧ refresh_tokens (working s') = refresh_tokens (working s)
    ∧ user_sessions (working s') = user_sessions (working s)
    ∧ committed s' = working s'.
Proof.
  unfold authenticate_user, authenticate_user_try.
  destruct (filter _ (users (working s))) as [|u [|u' rows]] eqn:Hrows; cbn;
    [discriminate| |discriminate].
  destruct (hashed_password u) as [hashed|] eqn:Hhash; cbn; [|discriminate].
  destruct (String.eqb hashed "") eqn:Hempty; cbn; [discriminate|].
  destruct (is_locked u now) eqn:Hlocked; cbn; [discriminate|].
  destruct (verify_password password hashed) eqn:Hpw; cbn; [|discriminate].
  destruct (is_active u) eqn:Hactive; cbn; [|discriminate].
  intros [= <- <-]. exists u, hashed. cbn.
  apply String.eqb_neq in Hempty.
  repeat split; try done.
  - by destruct (0 <? failed_login_attempts u).
  - by destruct (0 <? failed_login_attempts u).
Qed.

(** The converse: such a login succeeds, whatever [two_factor_enabled]
    says. *)
Lemma authenticate_user_succeeds (s : Session) (u : User) (hashed password tid sid : string)
    (now : Z) :
  filter (λ r, user_email r = user_email u) (users (working s)) = [u] →
  hashed_password u = Some hashed → hashed ≠ "" →
  is_locked u now = false →
  verify_password password hashed = true →
  is_active u = true →
  ∃ (resp : LoginResponse) (s' : Session),
    authenticate_user settings s (user_email u) password tid sid now = (Ok resp, s').
Proof.
  intros Hrows Hhash Hne Hlocked Hpw Hactive.
  unfold authenticate_user, authenticate_user_try.
  rewrite Hrows. cbn. rewrite Hhash. cbn.
  apply String.eqb_neq in Hne. rewrite Hne, Hlocked, Hpw, Hactive. cbn.
  by do 2 eexists.
Qed.

(** A login that fails on the password leaves nothing behind: the counter
    written by [_handle_failed_login] is rolled back with the session. *)
Lemma authenticate_user_wrong_password (s : Session) (u : User) (hashed password tid sid : string)
    (now : Z) :
  filter (λ r, user_email r = user_email u) (users (working s)) = [u] →
  hashed_password u = Some hashed → hashed ≠ "" →
  is_locked u now = false →
  verify_password password hashed = false →
  authenticate_user settings s (user_email u) password tid sid now
  = (Raise (AuthenticationError "Invalid email or password"), rollback s).
Proof.
  intros Hrows Hhash Hne Hlocked Hpw.
  unfold authenticate_user, authenticate_user_try.
  rewrite Hrows. cbn. rewrite Hhash. cbn.
  apply String.eqb_neq in Hne. by rewrite Hne, Hlocked, Hpw.
Qed.

End AuthProperties.

Section SessionProperties.
Context `{JoseLibrary} `{PasswordContext} `{FernetCipher} (settings : Settings).

Lemma filter_none {A : Type} (P : A → Prop) `{!∀ x, Decision (P x)} (l : list A) :
  (∀ x, x ∈ l → ¬ P x) → filter P l = [].
Proof.
  intros Hnone. destruct (filter P l) as [|x l'] eqn:Hf; [done|].
  assert (Hx : x ∈ filter P l) by (rewrite Hf; left).
  apply list_elem_of_filter in Hx as [HP Hin]. by destruct (Hnone x Hin).
Qed.

(** The token id that a verified refresh token carries is the one it was
    issued with. *)
Lemma verify_refresh_token_jti `{!JoseContract} (uid tid : string) (expire now now' : Z)
    (td : TokenData) :
  verify_token settings
    (jwt_encode (refresh_claims uid tid expire now) (SECRET_KEY settings) (ALGORITHM settings))
    "refresh" now' = Some td →
  jti td = Some (JStr tid).
Proof.
  destruct (jose_claims_valid (refresh_claims uid tid expire now) now') eqn:Hvalid.
  - unfold verify_token, verify_token_try.
    rewrite (jose_decode_encode _ _ _ _ Hvalid). cbn [bind].
    unfold dict_get.
    change (refresh_claims uid tid expire now !! "sub") with (Some (JStr uid)).
    change (refresh_claims uid tid expire now !! "type") with (Some (JStr "refresh")).
    change (refresh_claims uid tid expire now !! "exp")
      with (Some (JNum (int_timestamp expire))).
    change (refresh_claims uid tid expire now !! "iat")
      with (Some (JNum (int_timestamp now))).
    change (refresh_claims uid tid expire now !! "jti") with (Some (JStr tid)).
    cbn. repeat case_match; intros; by simplify_eq.
  - destruct (jose_decode_invalid _ (SECRET_KEY settings) (ALGORITHM settings) _ Hvalid)
      as [msg Hdec].
    by rewrite (verify_token_decode_raises settings _ _ _ _ Hdec).
Qed.

(** C1 (the code departs from it).  A login whose password verifies
    succeeds with full access and refresh tokens, [requires_2fa = False]
    and no temporary token, also when two-factor authentication is enabled
    on the account: [authenticate_user] never reads
    [two_factor_enabled]. *)
Theorem login_ignores_two_factor (s : Session) (u : User) (hashed password tid sid : string)
    (now : Z) :
  two_factor_enabled u = true →
  filter (λ r, user_email r = user_email u) (users (working s)) = [u] →
  hashed_password u = Some hashed → hashed ≠ "" →
  is_locked u now = false →
  verify_password password hashed = true →
  is_active u = true →
  ∃ (resp : LoginResponse) (s' : Session),
    authenticate_user settings s (user_email u) password tid sid now = (Ok resp, s')
    ∧ requires_2fa resp = false
    ∧ temp_token resp = None
    ∧ access_token resp
      = create_access_token settings (user_id u) (user_email u)
          (role_name <$> user_roles u) [] None now
    ∧ refresh_token resp = (create_refresh_token settings (user_id u) None tid now).1.
Proof.
  intros _ Hrows Hhash Hne Hlocked Hpw Hactive.
  destruct (authenticate_user_succeeds settings s u hashed password tid sid now)
    as (resp & s' & Hlogin); try done.
  exists resp, s'. split; [done|].
  destruct (authenticate_user_success settings _ _ _ _ _ _ _ _ Hlogin)
    as (u' & hashed' & Hrows' & _ & _ & _ & _ & _ & Hacc & Href & H2fa & Htemp & _).
  rewrite Hrows in Hrows'. injection Hrows' as <-. done.
Qed.

(** C2 (the code departs from it).  A successful login adds no row to the
    refresh-token table, so the refresh token it hands out, whose token id
    is fresh, is refused by [refresh_access_token] at any time. *)
Theorem login_refresh_token_not_persisted `{!JoseContract} (s s' : Session)
    (mail password tid sid : string) (now : Z) (resp : LoginResponse) :
  authenticate_user settings s mail password tid sid now = (Ok resp, s') →
  refresh_tokens (working s') = refresh_tokens (working s)
  ∧ refresh_tokens (committed s') = refresh_tokens (working s)
  ∧ ((∀ r, r ∈ refresh_tokens (working s) → token_id r ≠ tid) →
     ∀ now' : Z,
       ∃ msg, refresh_access_token settings s' (refresh_token resp) now'
              = (Raise (AuthenticationError msg), s')).
Proof.
  intros Hlogin.
  destruct (authenticate_user_success settings _ _ _ _ _ _ _ _ Hlogin)
    as (u & hashed & _ & _ & _ & _ & _ & _ & _ & Href & _ & _ & Hsame & _ & Hcommitted).
  split; [done|]. split; [by rewrite Hcommitted|].
  intros Hfresh now'.
  assert (Hroll : rollback s' = s').
  { destruct s' as [c w]. cbn in *. by subst. }
  rewrite Href. unfold create_refresh_token. cbn zeta. cbn [fst].
  unfold refresh_access_token, refresh_access_token_try.
  destruct (verify_token settings _ "refresh" now') as [td|] eqn:Hverify;
    [|cbn; rewrite Hroll; by eexists].
  rewrite (verify_refresh_token_jti _ _ _ _ _ _ Hverify).
  destruct (negb (truthy (JStr tid))); [cbn; rewrite Hroll; by eexists|].
  rewrite filter_none; [cbn; rewrite Hroll; by eexists|].
  intros r Hr [Heq _]. rewrite Hsame in Hr.
  apply (Hfresh r Hr). unfold json_eq_str, json_ne_str in Heq.
  apply negb_true_iff, negb_false_iff, String.eqb_eq in Heq. done.
Qed.

(** C10.  When the access token does not verify, [logout_user] answers
    [False] and the session, committed and working tables alike, is
    exactly what it was: no refresh record is revoked and no user session
    is ended.  This covers every invalid token (bad signature, missing or
    wrong kind, missing field, expired), and in particular an access token
    of this server presented after its expiry. *)
Theorem logout_unverified_token_no_effect `{!JoseContract} (s : Session) :
  (∀ (token : Token) (now : Z),
     verify_token settings token "access" now = None →
     logout_user settings s token now = (false, s))
  ∧ (∀ (token : Token) (now : Z),
       token_invalid settings token "access" now →
       logout_user settings s token now = (false, s))
  ∧ (∀ (uid mail : string) (rs ps : list string) (d : option Z) (now now' : Z),
       int_timestamp (expiry now d (timedelta_minutes (ACCESS_TOKEN_EXPIRE_MINUTES settings)))
       * us_per_second < now' →
       logout_user settings s (create_access_token settings uid mail rs ps d now) now'
       = (false, s)).
Proof.
  assert (Hnone : ∀ (token : Token) (now : Z),
            verify_token settings token "access" now = None →
            logout_user settings s token now = (false, s)).
  { intros token now Hverify. unfold logout_user. by rewrite Hverify. }
  split; [done|]. split.
  - intros token now [e Hdec|p Hdec Hrej]; apply Hnone.
    + by eapply verify_token_decode_raises.
    + by eapply verify_token_claims_rejected.
  - intros uid mail rs ps d now now' Hlate. apply Hnone.
    unfold create_access_token. cbn zeta.
    apply verify_signed_rejected.
    by eapply expired.
Qed.

End SessionProperties.

(** * Properties of the two-factor engine *)

Section TwoFactorProperties.
Context `{PasswordContext} `{TotpLibrary} `{FernetCipher}.

Lemma scan_codes_Some (code : string) (l : list (option string)) (i j : nat) :
  scan_codes code l i = Some j →
  ∃ (k : nat) (slot : option string),
    j = (i + k)%nat ∧ l !! k = Some slot ∧ slot_matches code slot = true
    ∧ ∀ (k' : nat) (slot' : option string),
        (k' < k)%nat → l !! k' = Some slot' → slot_matches code slot' = false.
Proof.
  revert i. induction l as [|slot l IH]; intros i; cbn; [done|].
  destruct (slot_matches code slot) eqn:Hslot.
  - intros [= <-]. exists 0%nat, slot. repeat split; [lia|done|lia].
  - intros Hscan. destruct (IH _ Hscan) as (k & slot' & -> & Hk & Hm & Hfirst).
    exists (S k), slot'. repeat split; [lia|done|done|].
    intros [|k'] slot'' Hlt; cbn; [by intros [= <-]|].
    apply Hfirst. lia.
Qed.

Lemma scan_codes_None (code : string) (l : list (option string)) (i : nat) :
  scan_codes code l i = None ↔ ∀ slot, slot ∈ l → slot_matches code slot = false.
Proof.
  revert i. induction l as [|slot l IH]; intros i; cbn.
  - split; [|done]. intros _ slot Hin. by apply elem_of_nil in Hin.
  - destruct (slot_matches code slot) eqn:Hslot.
    + split; [done|]. intros Hall. rewrite Hall in Hslot; [done|left].
    + rewrite IH. split.
      * intros Hall slot' [->|Hin]%elem_of_cons; [done|by apply Hall].
      * intros Hall slot' Hin. apply Hall. by right.
Qed.

Lemma slot_matches_Some (code : string) (slot : option string) :
  slot_matches code slot = true →
  ∃ h, slot = Some h ∧ verify_password code h = true.
Proof.
  destruct slot as [h|]; cbn; [|done].
  intros [_ Hv]%andb_true_iff. by exists h.
Qed.






End TwoFactorProperties.

(** The identity cipher honours the contract of Fernet. *)
Lemma reference_fernet_round_trip : @fernet_round_trip Reference.fernet.
Proof. by intros l. Qed.



Section TwoFactorLockout.
Context `{PasswordContext} `{TotpLibrary} `{FernetCipher}.

(** Enabling two-factor authentication is what sets
    [two_factor_verified_at]; a verification attempt never changes it. *)
Lemma verify_2fa_code_keeps_verified_at (u : User) (code : string) (is_backup : bool)
    (now : Z) :
  two_factor_verified_at (verify_2fa_code u code is_backup now).2 = two_factor_verified_at u.
Proof.
  unfold verify_2fa_code, check_locked_out, _verify_backup_code.
  repeat case_match; simplify_eq; done.
Qed.

Lemma verify_and_enable_totp_sets_verified_at (u u' : User) (totp_code : string) (now : Z) :
  verify_and_enable_totp u totp_code now = (Ok true, u') →
  two_factor_enabled u' = true
  ∧ two_factor_verified_at u' = Some now
  ∧ failed_2fa_attempts u' = 0.
Proof.
  unfold verify_and_enable_totp.
  destruct (two_factor_enabled u); [done|].
  destruct (usable_secret u) as [secret|]; [|done].
  destruct (verify_totp secret totp_code 1 now); [|done].
  by intros [= <-].
Qed.


End TwoFactorLockout.


(** The same run, step by step: five wrong codes in a row, then a sixth
    wrong code one microsecond later is simply answered [False] with the
    counter at 1, and the right code is accepted. *)
Lemma two_factor_sixth_attempt_not_locked :
  let wrong := (λ t : Z, ("000000", t)) <$> Reference.attempt_times 5 in
  let locked := after_2fa_attempts Reference.alice wrong in
  let sixth := verify_2fa_code locked "000000" false (Reference.t0 + 5) in
  failed_2fa_attempts locked = 5
  ∧ sixth.1 = Ok false
  ∧ failed_2fa_attempts sixth.2 = 1
  ∧ (verify_2fa_code locked "otp-JBSWY3DPEHPK3PXP" false (Reference.t0 + 5)).1 = Ok true.
Proof. by_evaluation. Qed.

Lemma login_ignores_two_factor_witness :
  ∃ (resp : LoginResponse) (s' : Session),
    authenticate_user Reference.settings Reference.session0 "alice@example.com"
      "Secret123!" "jti-1" "sid-1" Reference.t0 = (Ok resp, s')
    ∧ requires_2fa resp = false
    ∧ temp_token resp = None
    ∧ access_token resp
      = create_access_token Reference.settings "user-1" "alice@example.com" ["user"] []
          None Reference.t0
    ∧ refresh_token resp
      = (create_refresh_token Reference.settings "user-1" None "jti-1" Reference.t0).1.
Proof.
  apply (login_ignores_two_factor Reference.settings Reference.session0 Reference.alice
           "$a$Secret123!" "Secret123!" "jti-1" "sid-1" Reference.t0);
    vm_compute; done.
Defined.

(** The tokens handed to the two-factor account are full tokens: the
    access token verifies as such a minute later. *)
Lemma login_with_two_factor_yields_access :
  two_factor_enabled Reference.alice = true
  ∧ ∃ (resp : LoginResponse) (td : TokenData),
      (authenticate_user Reference.settings Reference.session0 "alice@example.com"
         "Secret123!" "jti-1" "sid-1" Reference.t0).1 = Ok resp
      ∧ verify_token Reference.settings (access_token resp) "access"
          (Reference.t0 + timedelta_minutes 1) = Some td
      ∧ sub td = JStr "user-1".
Proof.
  split; [reflexivity|].
  destruct (authenticate_user_succeeds Reference.settings Reference.session0 Reference.alice
              "$a$Secret123!" "Secret123!" "jti-1" "sid-1" Reference.t0)
    as (resp & s' & Hlogin); [vm_compute; done..|].
  destruct (authenticate_user_success Reference.settings _ _ _ _ _ _ _ _ Hlogin)
    as (u & hashed & Hrows & _ & _ & _ & _ & _ & Hacc & _).
  vm_compute in Hrows. injection Hrows as <-.
  change (user_email Reference.alice) with "alice@example.com" in Hlogin.
  rewrite Hlogin.
  exists resp. eexists. split; [reflexivity|]. rewrite Hacc.
  split; [vm_compute; reflexivity|reflexivity].
Qed.

Lemma login_refresh_token_not_persisted_witness :
  let out :=
    authenticate_user Reference.settings Reference.session0 "alice@example.com"
      "Secret123!" "jti-1" "sid-1" Reference.t0 in
  ∃ resp : LoginResponse,
    out.1 = Ok resp
    ∧ refresh_tokens (committed out.2) = []
    ∧ ∃ msg, refresh_access_token Reference.settings out.2 (refresh_token resp)
               (Reference.t0 + timedelta_minutes 1)
             = (Raise (AuthenticationError msg), out.2).
Proof.
  destruct (authenticate_user_succeeds Reference.settings Reference.session0 Reference.alice
              "$a$Secret123!" "Secret123!" "jti-1" "sid-1" Reference.t0)
    as (resp & s' & Hlogin); [vm_compute; done..|].
  change (user_email Reference.alice) with "alice@example.com" in Hlogin.
  cbn zeta. rewrite Hlogin. cbn [fst snd].
  exists resp. split; [done|].
  destruct (login_refresh_token_not_persisted Reference.settings _ _ _ _ _ _ _ _ Hlogin)
    as (_ & Hcommitted & Hrefused).
  split; [exact Hcommitted|].
  apply Hrefused. intros r Hr. by apply elem_of_nil in Hr.
Defined.

Lemma logout_unverified_token_no_effect_witness :
  logout_user Reference.settings Reference.session1
    (create_access_token Reference.settings "user-1" "alice@example.com" ["user"] []
       None Reference.t0)
    (Reference.t0 + timedelta_minutes 16)
  = (false, Reference.session1).
Proof.
  apply (proj2 (proj2 (logout_unverified_token_no_effect Reference.settings
                         Reference.session1))).
  vm_compute. reflexivity.
Defined.

(** For comparison, the same logout with the token still valid revokes the
    refresh record and ends the session. *)
Lemma logout_valid_token_revokes :
  let out :=
    logout_user Reference.settings Reference.session1
      (create_access_token Reference.settings "user-1" "alice@example.com" ["user"] []
         None Reference.t0)
      (Reference.t0 + timedelta_minutes 14) in
  out.1 = true
  ∧ is_revoked <$> refresh_tokens (committed out.2) = [true]
  ∧ us_is_active <$> user_sessions (committed out.2) = [false].
Proof. by_evaluation. Qed.

(** * Properties of the rate limiter *)

Section RateLimiterProperties.

Lemma zadd_elem_of (x y : Z) (l : list Z) : y ∈ zadd x l ↔ y = x ∨ y ∈ l.
Proof.
  induction l as [|z l IH]; cbn.
  - set_solver.
  - destruct (x <? z) eqn:Hlt; [set_solver|].
    destruct (x =? z) eqn:Heq.
    + apply Z.eqb_eq in Heq as ->. set_solver.
    + rewrite elem_of_cons, IH. set_solver.
Qed.

Lemma zadd_sorted (x : Z) (l : list Z) :
  StronglySorted Z.lt l → StronglySorted Z.lt (zadd x l).
Proof.
  induction l as [|z l IH]; cbn; intros Hsorted.
  - repeat constructor.
  - apply StronglySorted_inv in Hsorted as [Hl Hz].
    destruct (x <? z) eqn:Hlt.
    + apply Z.ltb_lt in Hlt. constructor; [by constructor|].
      constructor; [done|]. eapply Forall_impl; [exact Hz|]. intros; cbn in *; lia.
    + destruct (x =? z) eqn:Heq; [by constructor|].
      apply Z.ltb_ge in Hlt. apply Z.eqb_neq in Heq.
      constructor; [by apply IH|].
      apply Forall_forall. intros y [->|Hy]%zadd_elem_of; [lia|].
      by eapply Forall_forall in Hz.
Qed.

Lemma zremrangebyscore_sorted (lo hi : Z) (l : list Z) :
  StronglySorted Z.lt l → StronglySorted Z.lt (zremrangebyscore lo hi l).
Proof.
  unfold zremrangebyscore. induction l as [|z l IH]; intros Hsorted; [constructor|].
  apply StronglySorted_inv in Hsorted as [Hl Hz].
  rewrite filter_cons. case_decide; [|by apply IH].
  constructor; [by apply IH|].
  apply Forall_forall. intros y [_ Hy]%list_elem_of_filter.
  by eapply Forall_forall in Hz.
Qed.

Lemma head_zadd (x y : Z) (l : list Z) :
  head l = Some y → y ≤ x → head (zadd x l) = Some y.
Proof.
  destruct l as [|z l]; cbn; [done|]. intros [= ->] Hle.
  rewrite (proj2 (Z.ltb_ge _ _) Hle). by destruct (x =? y).
Qed.

Lemma zset_at_after_pipeline (r : Redis) (key : string) (window now : Z) :
  zset_at (execute_pipeline r key window now).2 key now
  = if 0 <? window
    then zadd now (zremrangebyscore 0 (now - timedelta_seconds window) (zset_at r key now))
    else [].
Proof.
  unfold execute_pipeline, zset_at at 1. cbn. rewrite lookup_insert_eq. cbn.
  unfold timedelta_seconds, us_per_second.
  destruct (0 <? window) eqn:Hw.
  - apply Z.ltb_lt in Hw. by rewrite (proj2 (Z.leb_gt _ _)) by lia.
  - apply Z.ltb_ge in Hw. by rewrite (proj2 (Z.leb_le _ _)) by lia.
Qed.

(** The pipeline keeps the sorted set sorted, so that its head is its
    oldest member. *)
Lemma execute_pipeline_sorted (r : Redis) (key : string) (window now : Z) :
  StronglySorted Z.lt (zset_at r key now) →
  StronglySorted Z.lt (zset_at (execute_pipeline r key window now).2 key now).
Proof.
  intros Hsorted. rewrite zset_at_after_pipeline.
  destruct (0 <? window); [|constructor].
  by apply zadd_sorted, zremrangebyscore_sorted.
Qed.

End RateLimiterProperties.

Section RateLimiterCheck.
Variables (rl : RateLimiter) (r : Redis) (key : string) (limit window now : Z).
Hypothesis Henabled : enabled rl = true.
Hypothesis Hclient : has_client rl = true.

Lemma check_rate_limit_enabled :
  check_rate_limit rl r key limit window now
  = match check_rate_limit_try r key limit window now with
    | (Ok a, r') => {| answer := a; limiter := rl; server := r'; logged := [] |}
    | (Raise e, r') =>
        if is_connection_error e then
          {| answer := (true, limit, 0); limiter := disable rl; server := r';
             logged := [(Warning,
                         match e with
                         | ConnectionError _ =>
                             "Redis connection failed - disabling rate limiting"
                         | _ => "Redis connection issue - disabling rate limiting"
                         end)] |}
        else
          {| answer := (true, limit, 0); limiter := rl; server := r';
             logged := [(Error, "Rate limit check failed")] |}
    end.
Proof.
  unfold check_rate_limit. rewrite Henabled, Hclient. cbn [negb orb].
  destruct (check_rate_limit_try r key limit window now) as [[a|e] r']; [done|].
  destruct e; try done; unfold is_connection_error; cbn [exn_str];
    by destruct (contains "Connection" _ || contains "connection" _).
Qed.

(** C5, as amended.  With the limiter enabled and the store in reach, a
    check drops the entries of the bucket whose score lies in
    [[0, now - window]], counts the survivors, and inserts [now] into the
    bucket whether it admits or rejects, setting the expiry of the key to
    [now + window].  When the count has reached the limit it answers
    [allowed = False], [remaining = 0] and a reset time which is
    [int(oldest + window)] for the oldest survivor (as long as the window
    is positive and that survivor is not after [now]) and
    [int(now + window)] when nothing survives; otherwise it answers
    [allowed = True], [remaining = limit - count - 1] and
    [int(now + window)]. *)
Theorem check_rate_limit_sliding_window :
  execute_fault r = None → zrange_fault r = None →
  let live := zset_at r key now in
  let survivors := filter (λ x, ¬ (0 ≤ x ≤ now - timedelta_seconds window)) live in
  let count := Z.of_nat (length survivors) in
  let c := check_rate_limit rl r key limit window now in
  keys (server c) !! key
  = Some {| members := zadd now survivors;
            expire_at := Some (now + timedelta_seconds window) |}
  ∧ (∀ k, k ≠ key → keys (server c) !! k = keys r !! k)
  ∧ (∀ x, x ∈ zadd now survivors
          ↔ x = now ∨ (x ∈ live ∧ ¬ (0 ≤ x ≤ now - timedelta_seconds window)))
  ∧ limiter c = rl
  ∧ logged c = []
  ∧ (count < limit →
     answer c = (true, limit - count - 1, int_timestamp (now + timedelta_seconds window)))
  ∧ (limit ≤ count →
     ∃ reset_time, answer c = (false, 0, reset_time)
       ∧ (∀ oldest, 0 < window → head survivors = Some oldest → oldest ≤ now →
            reset_time = int_timestamp (oldest + timedelta_seconds window))
       ∧ (survivors = [] → reset_time = int_timestamp (now + timedelta_seconds window))).
Proof.
  intros Hexec Hzrange live survivors count c.
  assert (Hc : c = match check_rate_limit_try r key limit window now with
                   | (Ok a, r') => {| answer := a; limiter := rl; server := r'; logged := [] |}
                   | (Raise e, r') => c
                   end).
  { unfold c. rewrite check_rate_limit_enabled.
    by destruct (check_rate_limit_try r key limit window now) as [[a|e] r']. }
  unfold check_rate_limit_try in Hc. rewrite Hexec, Hzrange in Hc.
  pose proof (zset_at_after_pipeline r key window now) as Hafter.
  unfold execute_pipeline in Hc, Hafter. cbn [snd] in Hafter.
  fold live in Hc, Hafter.
  unfold zremrangebyscore in Hc, Hafter. fold survivors in Hc, Hafter.
  fold count in Hc.
  assert (Hserver : keys (server c) !! key
                    = Some {| members := zadd now survivors;
                              expire_at := Some (now + timedelta_seconds window) |}
                    ∧ (∀ k, k ≠ key → keys (server c) !! k = keys r !! k)
                    ∧ limiter c = rl ∧ logged c = []).
  { rewrite Hc. destruct (limit <=? count); cbn; rewrite lookup_insert_eq;
      (repeat split; try done); intros k Hk; by rewrite lookup_insert_ne. }
  destruct Hserver as (Hkey & Hother & Hlimiter & Hlogged).
  split; [done|]. split; [done|]. split.
  { intros x. rewrite zadd_elem_of. unfold survivors.
    by rewrite list_elem_of_filter, (and_comm (x ∈ live)). }
  split; [done|]. split; [done|]. split.
  - intros Hlt. rewrite Hc. by rewrite (proj2 (Z.leb_gt _ _) Hlt).
  - intros Hle. rewrite Hc. rewrite (proj2 (Z.leb_le _ _) Hle).
    unfold zrange_first. rewrite Hafter. eexists. split; [reflexivity|]. split.
    + intros oldest Hw Hhead Hold. rewrite (proj2 (Z.ltb_lt _ _) Hw).
      by rewrite (head_zadd _ _ _ Hhead Hold).
    + intros Hnil. rewrite Hnil. by destruct (0 <? window).
Qed.


(** The store is out of reach when the pipeline, or the later [ZRANGE],
    raises. *)
Lemma check_rate_limit_try_outage (e : exn) :
  execute_fault r = Some e →
  check_rate_limit_try r key limit window now = (Raise e, r).
Proof. intros Hfault. unfold check_rate_limit_try. by rewrite Hfault. Qed.

End RateLimiterCheck.

Lemma check_rate_limit_sliding_window_witness :
  let c := check_rate_limit Reference.rate_limiter (Reference.redis_with 1) "k" 1 60
             Reference.t0 in
  keys (server c) !! "k"
  = Some {| members := [Reference.t0 - 1; Reference.t0];
            expire_at := Some (Reference.t0 + timedelta_seconds 60) |}
  ∧ answer c = (false, 0, 1700000059).
Proof.
  cbn zeta.
  pose proof (check_rate_limit_sliding_window Reference.rate_limiter (Reference.redis_with 1)
                "k" 1 60 Reference.t0 eq_refl eq_refl eq_refl eq_refl)
    as (Hkey & _ & _ & _ & _ & _ & Hreject).
  split; [exact Hkey|].
  destruct Hreject as (reset_time & -> & Holdest & _); [vm_compute; discriminate|].
  rewrite (Holdest (Reference.t0 - 1)); [reflexivity|reflexivity|reflexivity|].
  vm_compute. discriminate.
Defined.

(** C5, as stated, fails.  A rejected request is inserted into the bucket
    all the same, so that with a limit of one request per minute a client
    admitted at [t0] and rejected thirty seconds later is still rejected
    sixty-one seconds after [t0], where the algorithm as specified admits
    it.  And an entry exactly [window] old is dropped by the check, where
    the algorithm as specified still counts it. *)
Lemma rejected_request_is_counted :
  let times :=
    [Reference.t0; Reference.t0 + timedelta_seconds 30; Reference.t0 + timedelta_seconds 61] in
  let rejected :=
    check_rate_limit Reference.rate_limiter (Reference.redis_with 1) "k" 1 60 Reference.t0 in
  let boundary :=
    check_rate_limit Reference.rate_limiter (Reference.redis_with (timedelta_seconds 60))
      "k" 1 60 Reference.t0 in
  check_all Reference.rate_limiter Reference.redis0 "k" 1 60 times = [true; false; false]
  ∧ spec_check_all [] 1 60 times = [true; false; true]
  ∧ (answer rejected).1.1 = false
  ∧ zset_at (server rejected) "k" Reference.t0 = [Reference.t0 - 1; Reference.t0]
  ∧ (spec_check [Reference.t0 - 1] 1 60 Reference.t0).2 = [Reference.t0 - 1]
  ∧ (answer boundary).1.1 = true
  ∧ (spec_check [Reference.t0 - timedelta_seconds 60] 1 60 Reference.t0).1.1.1 = false.
Proof. by_evaluation. Qed.


(** The same outage reported by the Redis client library, whose own
    exception classes are recognised by their message. *)
Lemma redis_client_error_allowed :
  let down :=
    {| keys := ∅;
       execute_fault :=
         Some (Exception "redis.exceptions.ConnectionError"
                 "Error 111 connecting to localhost:6379. Connection refused.");
       zrange_fault := None |} in
  let c := check_rate_limit Reference.rate_limiter down "k" 5 300 Reference.t0 in
  answer c = (true, 5, 0)
  ∧ logged c = [(Warning, "Redis connection issue - disabling rate limiting")]
  ∧ enabled (limiter c) = false.
Proof. by_evaluation. Qed.

(** * Further properties of the token codec and credential verifier *)

Section PasswordStrength.
Context `{CharClasses}.

Lemma is_password_strong_issues (password : string) :
  (is_password_strong password).2
  = (if (String.length password <? 8)%nat then [issue_length] else [])
    ++ (if any_char isupper password then [] else [issue_upper])
    ++ (if any_char islower password then [] else [issue_lower])
    ++ (if any_char isdigit password then [] else [issue_digit])
    ++ (if any_char is_special password then [] else [issue_special]).
Proof.
  unfold is_password_strong. cbn [snd].
  destruct (String.length password <? 8)%nat, (any_char isupper password),
    (any_char islower password), (any_char isdigit password),
    (any_char is_special password); reflexivity.
Qed.

(** X1.  [is_password_strong] reports every rule the password breaks, in
    the order of the rules, not just the first: each of the five messages
    is in the list exactly when its rule is broken, and the password is
    strong exactly when the list is empty, that is when it has at least 8
    characters, an uppercase letter, a lowercase letter, a digit and a
    character of the punctuation set. *)
Theorem is_password_strong_reports_all (password : string) :
  let '(is_strong, issues) := is_password_strong password in
  (is_strong = true ↔ issues = [])
  ∧ (is_strong = true ↔
       (8 ≤ String.length password)%nat
       ∧ any_char isupper password = true ∧ any_char islower password = true
       ∧ any_char isdigit password = true ∧ any_char is_special password = true)
  ∧ (issue_length ∈ issues ↔ (String.length password < 8)%nat)
  ∧ (issue_upper ∈ issues ↔ any_char isupper password = false)
  ∧ (issue_lower ∈ issues ↔ any_char islower password = false)
  ∧ (issue_digit ∈ issues ↔ any_char isdigit password = false)
  ∧ (issue_special ∈ issues ↔ any_char is_special password = false)
  ∧ issues `sublist_of`
      [issue_length; issue_upper; issue_lower; issue_digit; issue_special].
Proof.
  pose proof (is_password_strong_issues password) as Hissues.
  destruct (is_password_strong password) as [is_strong issues] eqn:Hstrong.
  assert (Hok : is_strong = (length issues =? 0)%nat).
  { unfold is_password_strong in Hstrong. by injection Hstrong as <- <-. }
  cbn [snd] in Hissues. subst is_strong. rewrite Hissues. clear Hissues Hstrong.
  rewrite <- Nat.ltb_ge.
  destruct (String.length password <? 8)%nat eqn:Hlen;
    [apply Nat.ltb_lt in Hlen|apply Nat.ltb_ge in Hlen];
    destruct (any_char isupper password), (any_char islower password),
      (any_char isdigit password), (any_char is_special password);
    cbn [app length Nat.eqb];
    (repeat split; try done; try lia; try (intros; exfalso; lia);
     try (intros Hin; repeat (apply elem_of_cons in Hin as [Hin|Hin]; [discriminate|]);
          by apply elem_of_nil in Hin);
     try (intros _; repeat first [by left|right]);
     try (intros (_ & ? & ? & ? & ?); done);
     try (intros (? & ? & ? & ? & ?); done)).
  all: try (by repeat first [apply sublist_nil|apply sublist_skip|apply sublist_cons]).
Qed.

End PasswordStrength.

Section Permissions.

Lemma split_once_Some (sep : ascii) (s before after : string) :
  split_once sep s = Some (before, after) →
  s = before +:+ String sep after ∧ ¬ (sep ∈ String.list_ascii_of_string before).
Proof.
  revert before. induction s as [|c s IH]; intros before; cbn; [done|].
  destruct (Ascii.eqb c sep) eqn:Hc.
  - apply Ascii.eqb_eq in Hc as ->. intros [= <- <-]. cbn. split; [done|].
    by intros Hin%elem_of_nil.
  - destruct (split_once sep s) as [[b a]|]; [|done].
    intros [= <- <-]. destruct (IH b eq_refl) as [-> Hnot]. cbn. split; [done|].
    apply Ascii.eqb_neq in Hc. intros [?|?]%elem_of_cons; [congruence|done].
Qed.

Lemma split_once_None (sep : ascii) (s : string) :
  split_once sep s = None ↔ ¬ (sep ∈ String.list_ascii_of_string s).
Proof.
  induction s as [|c s IH]; cbn.
  - split; [|done]. by intros _ Hin%elem_of_nil.
  - destruct (Ascii.eqb c sep) eqn:Hc.
    + apply Ascii.eqb_eq in Hc as ->. split; [done|]. intros Hnot. destruct Hnot. left.
    + apply Ascii.eqb_neq in Hc. destruct (split_once sep s) as [[b a]|].
      * split; [done|]. intros Hnot. exfalso. apply Hnot. right.
        destruct (decide (sep ∈ String.list_ascii_of_string s)) as [|Hn]; [done|].
        by apply IH in Hn.
      * split; [|done]. intros _ [?|Hin]%elem_of_cons; [congruence|].
        by apply (proj1 IH).
Qed.

Lemma check_permission_Ok_true (perms : list string) (required_permission : string) :
  check_permission perms required_permission = Ok true ↔
    "*:*" ∈ perms
    ∨ required_permission ∈ perms
    ∨ ∃ resource action : string,
        required_permission = resource +:+ ":" +:+ action
        ∧ ¬ (":"%char ∈ String.list_ascii_of_string resource)
        ∧ resource +:+ ":*" ∈ perms.
Proof.
  unfold check_permission.
  case_bool_decide as Hall; [by split; [left|]|].
  case_bool_decide as Hexact; [by split; [right; left|]|].
  destruct (split_once ":" required_permission) as [[resource action]|] eqn:Hsplit.
  - apply split_once_Some in Hsplit as [Heq Hnot].
    case_bool_decide as Hwild.
    + split; [|done]. intros _. right. right. by exists resource, action.
    + split; [done|]. intros [?|[?|(res & act & Hreq & Hres & Hin)]]; [done|done|].
      exfalso. apply Hwild.
      assert (res = resource) as <-; [|done].
      clear -Hreq Heq Hres Hnot. rewrite Hreq in Heq. clear Hreq.
      revert resource Heq Hnot. induction res as [|c res IH]; intros [|d resource]; cbn.
      * done.
      * intros [= <- _] Hn. destruct Hn. left.
      * intros [= -> _]. destruct Hres. left.
      * intros [= <- Heq] Hn. f_equal. apply IH; [|done|].
        -- intros Hin. apply Hres. by right.
        -- intros Hin. apply Hn. by right.
  - split; [done|]. intros [?|[?|(res & act & Hreq & Hres & Hin)]]; [done|done|].
    apply split_once_None in Hsplit. exfalso. apply Hsplit. rewrite Hreq.
    clear. induction res as [|c res IH]; cbn; [left|by right].
Qed.

(** X2.  [check_permission] grants exactly when the user holds ["*:*"],
    the permission itself, or the wildcard ["resource:*"] of the
    permission's resource (the text before its first colon); and granting
    is monotone: whoever holds more permissions is granted at least as
    much. *)
Theorem check_permission_grants (user_permissions : list string)
    (required_permission : string) :
  (check_permission user_permissions required_permission = Ok true ↔
     "*:*" ∈ user_permissions
     ∨ required_permission ∈ user_permissions
     ∨ ∃ resource action : string,
         required_permission = resource +:+ ":" +:+ action
         ∧ ¬ (":"%char ∈ String.list_ascii_of_string resource)
         ∧ resource +:+ ":*" ∈ user_permissions)
  ∧ (∀ more : list string,
       user_permissions ⊆ more →
       check_permission user_permissions required_permission = Ok true →
       check_permission more required_permission = Ok true).
Proof.
  split; [apply check_permission_Ok_true|].
  intros more Hsub Hgrant. apply check_permission_Ok_true.
  apply check_permission_Ok_true in Hgrant.
  destruct Hgrant as [?|[?|(res & act & ? & ? & ?)]]; [left|right; left|right; right].
  - by apply Hsub.
  - by apply Hsub.
  - exists res, act. split; [done|]. split; [done|]. by apply Hsub.
Qed.

(** X3.  A required permission without a colon that the user does not
    hold literally (and who is not a super admin) makes [check_permission]
    raise [ValueError] instead of answering [False]; callers that guard it
    with [try], like [check_user_permission], answer [False]. *)
Theorem check_permission_malformed (user_permissions : list string)
    (required_permission : string) :
  (∃ msg, check_permission user_permissions required_permission
          = Raise (Exception "ValueError" msg)) ↔
    ("*:*" ∉ user_permissions)
    ∧ (required_permission ∉ user_permissions)
    ∧ ¬ (":"%char ∈ String.list_ascii_of_string required_permission).
Proof.
  unfold check_permission.
  case_bool_decide as Hall; [split; [by intros [? ?]|by intros [? _]]|].
  case_bool_decide as Hexact; [split; [by intros [? ?]|by intros (_ & ? & _)]|].
  destruct (split_once ":" required_permission) as [[resource action]|] eqn:Hsplit.
  - split; [intros [msg Hraise]; by case_bool_decide|].
    intros (_ & _ & Hnone). apply split_once_None in Hnone. congruence.
  - apply split_once_None in Hsplit. split; [done|]. intros _. by eexists.
Qed.

End Permissions.

Section TokenSoundness.
Context `{JoseLibrary} (settings : Settings).

(** X4.  Whatever [verify_token] accepts has been decoded with the
    server's key, is of the expected kind, which is access or refresh,
    names a subject, and is not past its expiry; an access token carries an
    email and no token id, a refresh token a token id and neither roles
    nor permissions. *)
Theorem verify_token_accepts_only (token : Token) (expected_type : string) (now : Z)
    (td : TokenData) :
  verify_token settings token expected_type now = Some td →
  ∃ p : gmap string json,
    jwt_decode token (SECRET_KEY settings) [ALGORITHM settings] now = Ok p
    ∧ sub td = dict_get p "sub" ∧ truthy (sub td) = true
    ∧ token_type td = JStr expected_type
    ∧ (expected_type = "access" ∨ expected_type = "refresh")
    ∧ exp td = dict_get p "exp" ∧ timestamp_gt now (exp td) = Ok false
    ∧ (expected_type = "access" →
       email td = dict_get_default p "email" (JStr "") ∧ truthy (email td) = true
       ∧ jti td = None)
    ∧ (expected_type = "refresh" →
       (∃ j, jti td = Some j ∧ j = dict_get p "jti" ∧ truthy j = true)
       ∧ roles td = JList [] ∧ permissions td = JList []).
Proof.
  unfold verify_token, verify_token_try.
  destruct (jwt_decode token _ _ now) as [p|e] eqn:Hdec; cbn [bind]; [|done].
  destruct (negb (truthy (dict_get p "sub")) || negb (truthy (dict_get p "type"))
            || is_None (dict_get p "exp") || is_None (dict_get p "iat")) eqn:Hreq;
    [done|].
  apply orb_false_elim in Hreq as [Hreq _].
  apply orb_false_elim in Hreq as [Hreq _].
  apply orb_false_elim in Hreq as [Hsub _].
  apply negb_false_iff in Hsub.
  destruct (json_ne_str (dict_get p "type") expected_type) eqn:Hkind; [done|].
  assert (Htype : dict_get p "type" = JStr expected_type).
  { unfold json_ne_str in Hkind. destruct (dict_get p "type"); try done.
    by apply negb_false_iff, String.eqb_eq in Hkind as ->. }
  destruct (timestamp_gt now (dict_get p "exp")) as [[]|] eqn:Hexp; cbn [bind]; [done| |done].
  destruct (String.eqb expected_type "access") eqn:Hacc.
  - apply String.eqb_eq in Hacc as ->.
    destruct (negb (truthy (dict_get_default p "email" (JStr "")))) eqn:Hemail; [done|].
    apply negb_false_iff in Hemail.
    intros [= <-]. exists p. cbn.
    repeat split; first [done | by left | intros [=]].
  - destruct (String.eqb expected_type "refresh") eqn:Href; [|done].
    apply String.eqb_eq in Href as ->.
    destruct (negb (truthy (dict_get p "jti"))) eqn:Hjti; [done|].
    apply negb_false_iff in Hjti.
    intros [= <-]. exists p. cbn.
    repeat split; first [done | by right | intros [=] | by eexists].
Qed.

(** X5.  A refresh token round-trips: for a non-empty subject id and a
    non-empty token id, the token made by [create_refresh_token] verifies
    as a refresh token at every time up to the whole second of its expiry,
    and yields the subject and the token id it was made with, and neither
    roles nor permissions; the identifier returned beside the token is
    that token id. *)
Theorem refresh_token_round_trip `{!JoseContract} (uid tid : string)
    (expires_delta : option Z) (now now' : Z) :
  uid ≠ "" → tid ≠ "" →
  now' ≤ int_timestamp
           (expiry now expires_delta (timedelta_days (REFRESH_TOKEN_EXPIRE_DAYS settings)))
         * us_per_second →
  (create_refresh_token settings uid expires_delta tid now).2 = tid
  ∧ ∃ td : TokenData,
      verify_token settings (create_refresh_token settings uid expires_delta tid now).1
        "refresh" now' = Some td
      ∧ sub td = JStr uid ∧ jti td = Some (JStr tid)
      ∧ roles td = JList [] ∧ permissions td = JList [].
Proof.
  intros Huid Htid Hle. split; [done|].
  unfold create_refresh_token. cbn zeta. cbn [fst].
  set (expire := expiry now expires_delta _) in *.
  unfold verify_token, verify_token_try.
  rewrite jose_decode_encode.
  - cbn [bind]. unfold dict_get.
    change (refresh_claims uid tid expire now !! "sub") with (Some (JStr uid)).
    change (refresh_claims uid tid expire now !! "type") with (Some (JStr "refresh")).
    change (refresh_claims uid tid expire now !! "exp")
      with (Some (JNum (int_timestamp expire))).
    change (refresh_claims uid tid expire now !! "iat")
      with (Some (JNum (int_timestamp now))).
    change (refresh_claims uid tid expire now !! "jti") with (Some (JStr tid)).
    cbn. apply String.eqb_neq in Huid, Htid. rewrite Huid, Htid. cbn.
    rewrite (proj2 (Z.ltb_ge _ _) Hle). cbn. by eexists.
  - rewrite jose_valid_refresh_claims.
    apply negb_true_iff, Z.ltb_ge.
    apply Z.div_le_upper_bound; unfold us_per_second in *; lia.
Qed.

End TokenSoundness.

Lemma refresh_token_round_trip_witness :
  ∃ td : TokenData,
    verify_token Reference.settings
      (create_refresh_token Reference.settings "user-1" None "jti-1" Reference.t0).1
      "refresh" (Reference.t0 + timedelta_days 29) = Some td
    ∧ sub td = JStr "user-1" ∧ jti td = Some (JStr "jti-1")
    ∧ roles td = JList [] ∧ permissions td = JList [].
Proof.
  apply (refresh_token_round_trip Reference.settings "user-1" "jti-1" None Reference.t0
           (Reference.t0 + timedelta_days 29));
    vm_compute; done.
Defined.

Lemma verify_token_accepts_only_witness :
  ∃ p : gmap string json,
    jwt_decode
      (create_access_token Reference.settings "user-1" "alice@example.com" ["user"] []
         None Reference.t0)
      (SECRET_KEY Reference.settings) [ALGORITHM Reference.settings] Reference.t0 = Ok p
    ∧ dict_get p "sub" = JStr "user-1".
Proof.
  destruct (verify_token_accepts_only Reference.settings
              (create_access_token Reference.settings "user-1" "alice@example.com"
                 ["user"] [] None Reference.t0)
              "access" Reference.t0
              {| sub := JStr "user-1"; email := JStr "alice@example.com";
                 roles := json_strs ["user"]; permissions := json_strs [];
                 token_type := JStr "access"; exp := JNum 1700000900;
                 iat := JNum 1700000000; jti := None |})
    as (p & Hdec & Hsub & _); [vm_compute; reflexivity|].
  exists p. split; [exact Hdec|]. by rewrite <- Hsub.
Defined.

(** * Further properties of the session orchestrator *)

Section LoginOutcomes.
Context `{JoseLibrary} `{PasswordContext} `{FernetCipher} (settings : Settings).

(** X6.  A login succeeds exactly when one row has the email, that row
    has a non-empty password hash which verifies the password, and the
    account is neither locked at that time nor inactive. *)
Theorem login_succeeds_exactly_when (s : Session) (mail password tid sid : string) (now : Z) :
  (∃ (resp : LoginResponse) (s' : Session),
     authenticate_user settings s mail password tid sid now = (Ok resp, s'))
  ↔ ∃ (u : User) (hashed : string),
      filter (λ r, user_email r = mail) (users (working s)) = [u]
      ∧ hashed_password u = Some hashed ∧ hashed ≠ ""
      ∧ is_locked u now = false
      ∧ verify_password password hashed = true
      ∧ is_active u = true.
Proof.
  split.
  - intros (resp & s' & Hlogin).
    destruct (authenticate_user_success settings _ _ _ _ _ _ _ _ Hlogin)
      as (u & hashed & Hrows & Hhash & Hne & Hlocked & Hpw & Hactive & _).
    by exists u, hashed.
  - intros (u & hashed & Hrows & Hhash & Hne & Hlocked & Hpw & Hactive).
    assert (Hmail : user_email u = mail).
    { assert (Hin : u ∈ filter (λ r, user_email r = mail) (users (working s)))
        by (rewrite Hrows; left).
      by apply list_elem_of_filter in Hin as [? _]. }
    subst mail. by eapply authenticate_user_succeeds.
Qed.

(** X7.  A login that fails changes nothing: whatever the reason, the
    exception is an [AuthenticationError] (or its subclass
    [AccountLockedError]) and the session is rolled back to the committed
    tables, so that the failed-attempt counter written by
    [_handle_failed_login] is discarded with it. *)
Theorem failed_login_rolls_back (s s' : Session) (mail password tid sid : string) (now : Z)
    (e : exn) :
  authenticate_user settings s mail password tid sid now = (Raise e, s') →
  is_AuthenticationError e = true
  ∧ s' = rollback s
  ∧ users (working s') = users (committed s).
Proof.
  unfold authenticate_user.
  destruct (authenticate_user_try settings s mail password tid sid now)
    as [[resp|e'] s1] eqn:Htry; [done|].
  assert (Hcommitted : committed s1 = committed s).
  { unfold authenticate_user_try in Htry.
    repeat case_match; simplify_eq; try done;
      unfold _handle_failed_login, set_users; done. }
  assert (Hroll : rollback s1 = rollback s) by (unfold rollback; by rewrite Hcommitted).
  destruct (is_AuthenticationError e') eqn:Hcls; intros [= <- <-];
    rewrite Hroll; done.
Qed.

(** X8.  An unknown email, an account without a password hash and a wrong
    password on an unlocked account are answered alike: the same
    exception, with the same text, and the same rolled-back session. *)
Theorem credential_failures_alike (s : Session) (mail password tid sid : string) (now : Z) :
  let unknown := filter (λ r, user_email r = mail) (users (working s)) = [] in
  let no_hash :=
    ∃ u, filter (λ r, user_email r = mail) (users (working s)) = [u]
         ∧ (hashed_password u = None ∨ hashed_password u = Some "") in
  let wrong_password :=
    ∃ u hashed, filter (λ r, user_email r = mail) (users (working s)) = [u]
                ∧ hashed_password u = Some hashed ∧ hashed ≠ ""
                ∧ is_locked u now = false
                ∧ verify_password password hashed = false in
  unknown ∨ no_hash ∨ wrong_password →
  authenticate_user settings s mail password tid sid now
  = (Raise (AuthenticationError "Invalid email or password"), rollback s).
Proof.
  intros unknown no_hash wrong_password Hcase.
  unfold authenticate_user, authenticate_user_try.
  destruct Hcase as [Hrows|[(u & Hrows & Hhash)|(u & hashed & Hrows & Hhash & Hne & Hl & Hpw)]];
    rewrite Hrows; cbn.
  - done.
  - by destruct Hhash as [->| ->].
  - rewrite Hhash. cbn. apply String.eqb_neq in Hne. by rewrite Hne, Hl, Hpw.
Qed.

(** X9.  A successful login commits; it adds and removes no row; the rows
    of the account have [last_login] set to the time of the login and, if
    the account had failed attempts, the counter at 0 and the lock
    cleared; the rows of other accounts, the refresh records and the user
    sessions are what they were. *)
Theorem successful_login_effects (s s' : Session) (mail password tid sid : string) (now : Z)
    (resp : LoginResponse) :
  authenticate_user settings s mail password tid sid now = (Ok resp, s') →
  ∃ u : User,
    filter (λ r, user_email r = mail) (users (working s)) = [u]
    ∧ ur_id (user resp) = user_id u
    ∧ committed s' = working s'
    ∧ user_email <$> users (working s') = user_email <$> users (working s)
    ∧ (∀ r, r ∈ users (working s') → user_id r = user_id u →
         last_login r = Some now
         ∧ (0 < failed_login_attempts u →
            failed_login_attempts r = 0 ∧ locked_until r = None))
    ∧ (∀ r, user_id r ≠ user_id u →
         r ∈ users (working s') ↔ r ∈ users (working s))
    ∧ refresh_tokens (working s') = refresh_tokens (working s)
    ∧ user_sessions (working s') = user_sessions (working s).
Proof.
  unfold authenticate_user, authenticate_user_try.
  destruct (filter _ (users (working s))) as [|u [|u' rows]] eqn:Hrows; cbn;
    [discriminate| |discriminate].
  destruct (hashed_password u) as [hashed|]; cbn; [|discriminate].
  destruct (String.eqb hashed ""); cbn; [discriminate|].
  destruct (is_locked u now); cbn; [discriminate|].
  destruct (verify_password password hashed); cbn; [|discriminate].
  destruct (is_active u); cbn; [|discriminate].
  intros [= <- <-]. exists u.
  set (id := user_id u).
  set (s2 := set_users (update_where (has_id id) (set_last_login now)) _).
  change (working (commit s2)) with (working s2).
  split; [done|]. split; [done|]. split; [done|].
  assert (Hrows' :
    users (working s2)
    = (λ r, if has_id id r
            then set_last_login now
                   (if 0 <? failed_login_attempts u then record_success r else r)
            else r) <$> users (working s)).
  { subst s2. destruct (0 <? failed_login_attempts u); cbn; unfold update_where.
    - rewrite <- list_fmap_compose. apply list_fmap_ext. intros _ r _. cbn.
      unfold has_id. destruct (String.eqb (user_id r) id) eqn:Hid; cbn; by rewrite Hid.
    - done. }
  assert (Hother : refresh_tokens (working s2) = refresh_tokens (working s)
                   ∧ user_sessions (working s2) = user_sessions (working s)).
  { subst s2. by destruct (0 <? failed_login_attempts u). }
  rewrite Hrows'. clear Hrows'.
  split; [|split; [|split; [|split]]].
  - rewrite <- list_fmap_compose. apply list_fmap_ext. intros _ r _. cbn.
    destruct (has_id id r); [|done]. by destruct (0 <? failed_login_attempts u).
  - intros r (r0 & -> & Hr0)%list_elem_of_fmap Hid.
    destruct (has_id id r0) eqn:Hhas.
    + split; [done|]. intros Hpos. by rewrite (proj2 (Z.ltb_lt _ _) Hpos).
    + unfold has_id in Hhas. apply String.eqb_neq in Hhas. done.
  - intros r Hid. rewrite list_elem_of_fmap. split.
    + intros (r0 & -> & Hr0). destruct (has_id id r0) eqn:Hhas; [|done].
      exfalso. apply Hid. unfold has_id in Hhas. apply String.eqb_eq in Hhas.
      by destruct (0 <? failed_login_attempts u).
    + intros Hr. exists r. split; [|done].
      unfold has_id. by rewrite (proj2 (String.eqb_neq _ _) Hid).
  - apply Hother.
  - apply Hother.
Qed.

End LoginOutcomes.

Lemma failed_login_rolls_back_witness :
  (authenticate_user Reference.settings Reference.session0 "alice@example.com"
     "wrong-password" "jti-1" "sid-1" Reference.t0).2 = Reference.session0.
Proof.
  assert (Hwrong :
    authenticate_user Reference.settings Reference.session0
      (user_email Reference.alice) "wrong-password" "jti-1" "sid-1" Reference.t0
    = (Raise (AuthenticationError "Invalid email or password"),
       rollback Reference.session0)).
  { apply authenticate_user_wrong_password with (hashed := "$a$Secret123!");
      vm_compute; done. }
  change (user_email Reference.alice) with "alice@example.com" in Hwrong.
  destruct (authenticate_user Reference.settings Reference.session0 "alice@example.com"
              "wrong-password" "jti-1" "sid-1" Reference.t0) as [[resp|e] s'] eqn:Hlogin.
  - discriminate Hwrong.
  - by destruct (failed_login_rolls_back Reference.settings _ _ _ _ _ _ _ _ Hlogin)
      as (_ & -> & _).
Defined.

Lemma credential_failures_alike_witness :
  authenticate_user Reference.settings Reference.session0 "nobody@example.com"
    "Secret123!" "jti-1" "sid-1" Reference.t0
  = authenticate_user Reference.settings Reference.session0 "alice@example.com"
      "wrong-password" "jti-1" "sid-1" Reference.t0.
Proof.
  rewrite (credential_failures_alike Reference.settings Reference.session0
             "nobody@example.com" "Secret123!" "jti-1" "sid-1" Reference.t0);
    [|left; vm_compute; reflexivity].
  rewrite (credential_failures_alike Reference.settings Reference.session0
             "alice@example.com" "wrong-password" "jti-1" "sid-1" Reference.t0);
    [reflexivity|].
  right. right. exists Reference.alice, "$a$Secret123!".
  repeat split; vm_compute; done.
Defined.

Lemma successful_login_effects_witness :
  ∃ (resp : LoginResponse) (s' : Session),
    authenticate_user Reference.settings Reference.session0 "alice@example.com"
      "Secret123!" "jti-1" "sid-1" Reference.t0 = (Ok resp, s')
    ∧ committed s' = working s'
    ∧ user_email <$> users (working s') = ["alice@example.com"].
Proof.
  destruct (authenticate_user_succeeds Reference.settings Reference.session0 Reference.alice
              "$a$Secret123!" "Secret123!" "jti-1" "sid-1" Reference.t0)
    as (resp & s' & Hlogin); [vm_compute; done..|].
  change (user_email Reference.alice) with "alice@example.com" in Hlogin.
  exists resp, s'. split; [exact Hlogin|].
  destruct (successful_login_effects Reference.settings _ _ _ _ _ _ _ _ Hlogin)
    as (u & _ & _ & Hcommitted & Hemails & _).
  split; [exact Hcommitted|]. by rewrite Hemails.
Defined.

Section LogoutAndRefresh.
Context `{JoseLibrary} `{PasswordContext} `{FernetCipher} (settings : Settings).

Lemma elem_of_update_where {A : Type} (p : A → bool) (f : A → A) (rows : list A) (x : A) :
  x ∈ update_where p f rows ↔
    ∃ r, r ∈ rows ∧ x = (if p r then f r else r).
Proof.
  unfold update_where. rewrite list_elem_of_fmap. naive_solver.
Qed.

Lemma filter_update_where {A : Type} (P : A → Prop) `{!∀ x, Decision (P x)}
    (p : A → bool) (f : A → A) (rows : list A) :
  (∀ x, P (f x) ↔ P x) →
  filter P (update_where p f rows) = update_where p f (filter P rows).
Proof.
  intros Hf. unfold update_where. induction rows as [|r rows IH]; [done|].
  assert (Hr : P (if p r then f r else r) ↔ P r) by (destruct (p r); [apply Hf|done]).
  rewrite fmap_cons, !filter_cons.
  destruct (decide (P (if p r then f r else r))) as [HP|HP], (decide (P r)) as [HP'|HP'];
    rewrite ?fmap_cons, IH; try done; exfalso; tauto.
Qed.

(** X10.  A logout with an access token that verifies answers [True] and
    commits; it revokes every refresh record of the token's subject and
    ends every session of that subject; it adds and removes no record,
    and leaves the records and sessions of other subjects, and the user
    rows, as they were. *)
Theorem logout_revokes_subject (s : Session) (token : Token) (now : Z) (td : TokenData) :
  verify_token settings token "access" now = Some td →
  ∃ s' : Session,
    logout_user settings s token now = (true, s')
    ∧ committed s' = working s'
    ∧ users (working s') = users (working s)
    ∧ token_id <$> refresh_tokens (working s') = token_id <$> refresh_tokens (working s)
    ∧ (∀ r, r ∈ refresh_tokens (working s') →
         json_eq_str (sub td) (rt_user_id r) = true →
         is_revoked r = true ∧ ∀ t, is_valid r t = false)
    ∧ (∀ r, json_eq_str (sub td) (rt_user_id r) = false →
         r ∈ refresh_tokens (working s') ↔ r ∈ refresh_tokens (working s))
    ∧ (∀ x, x ∈ user_sessions (working s') →
         json_eq_str (sub td) (us_user_id x) = true → us_is_active x = false)
    ∧ (∀ x, json_eq_str (sub td) (us_user_id x) = false →
         x ∈ user_sessions (working s') ↔ x ∈ user_sessions (working s)).
Proof.
  intros Hverify. unfold logout_user. rewrite Hverify.
  eexists. split; [reflexivity|]. cbn -[update_where].
  split; [done|]. split; [done|]. split; [|split; [|split; [|split]]].
  - unfold update_where. rewrite <- list_fmap_compose. apply list_fmap_ext.
    intros _ r _. cbn. by destruct (_ && _).
  - intros r (r0 & Hr0 & ->)%elem_of_update_where Hown.
    destruct (json_eq_str (sub td) (rt_user_id r0)) eqn:Hown0; cbn in *.
    + destruct (is_revoked r0) eqn:Hrev; cbn.
      * split; [done|]. intros t. unfold is_valid. rewrite Hrev. apply andb_false_r.
      * split; [done|]. intros t. unfold is_valid. cbn. apply andb_false_r.
    + congruence.
  - intros r Hown. rewrite elem_of_update_where. split.
    + intros (r0 & Hr0 & ->).
      destruct (json_eq_str (sub td) (rt_user_id r0)) eqn:Hown0; cbn in *; [|done].
      destruct (is_revoked r0); cbn in *; [done|congruence].
    + intros Hr. exists r. split; [done|]. by rewrite Hown.
  - intros x (x0 & Hx0 & ->)%elem_of_update_where Hown.
    destruct (json_eq_str (sub td) (us_user_id x0)) eqn:Hown0; cbn in *; [|congruence].
    by destruct (us_is_active x0) eqn:Hact.
  - intros x Hown. rewrite elem_of_update_where. split.
    + intros (x0 & Hx0 & ->).
      destruct (json_eq_str (sub td) (us_user_id x0)) eqn:Hown0; cbn in *; [|done].
      destruct (us_is_active x0); cbn in *; [congruence|done].
    + intros Hx. exists x. split; [done|]. by rewrite Hown.
Qed.

(** X11.  After such a logout, a refresh token whose records belong to the
    logged-out subject is refused by [refresh_access_token], at any time,
    and the refusal changes nothing. *)
Theorem refresh_refused_after_logout (s : Session) (access refresh : Token) (now now' : Z)
    (td td' : TokenData) (j : json) :
  verify_token settings access "access" now = Some td →
  verify_token settings refresh "refresh" now' = Some td' →
  jti td' = Some j →
  (∀ r, r ∈ refresh_tokens (working s) → json_eq_str j (token_id r) = true →
        json_eq_str (sub td) (rt_user_id r) = true) →
  let s' := (logout_user settings s access now).2 in
  ∃ msg, refresh_access_token settings s' refresh now'
         = (Raise (AuthenticationError msg), s').
Proof.
  intros Haccess Hrefresh Hjti Hown s'.
  subst s'. unfold logout_user. rewrite Haccess. cbn [snd].
  set (s1 := commit _).
  assert (Hroll : rollback s1 = s1) by done.
  unfold refresh_access_token, refresh_access_token_try. rewrite Hrefresh, Hjti.
  destruct (negb (truthy j)); [cbn; rewrite Hroll; by eexists|].
  rewrite filter_none; [cbn; rewrite Hroll; by eexists|].
  intros r Hr [Hmatch Hnot]. subst s1. cbn in Hr.
  apply elem_of_update_where in Hr as (r0 & Hr0 & ->).
  destruct (json_eq_str (sub td) (rt_user_id r0) && negb (is_revoked r0)) eqn:Hcond.
  - done.
  - rewrite (Hown r0 Hr0 Hmatch), Hnot in Hcond. done.
Qed.

Lemma refresh_access_token_served (s : Session) (token : Token) (now : Z) (j : json)
    (record : RefreshToken) (u : User) :
  refresh_served settings s token now j record u →
  refresh_access_token settings s token now
  = (Ok {| new_access_token :=
             create_access_token settings (user_id u) (user_email u)
               (role_name <$> user_roles u) (get_permissions u) None now;
           trr_token_type := "bearer";
           trr_expires_in := ACCESS_TOKEN_EXPIRE_MINUTES settings * 60 |},
     commit (set_refresh_tokens
               (update_where (λ r, json_eq_str j (token_id r)) (set_used_at now)) s)).
Proof.
  intros ((td & Hverify & Hjti) & Htruthy & Hrecords & Hvalid & Husers & Hactive).
  unfold refresh_access_token, refresh_access_token_try.
  rewrite Hverify, Hjti, Htruthy. cbn [negb]. rewrite Hrecords. cbn.
  rewrite Hvalid. cbn [negb]. rewrite Husers. cbn. by rewrite Hactive.
Qed.

(** X12.  A refresh that is served returns an access token made from the
    user's current roles and permissions, commits, and only stamps
    [used_at] on the record: the record stays unrevoked with the same
    expiry, so the same refresh token is served again at any later time at
    which it still verifies and the record has not expired (the token id
    is not rotated). *)
Theorem refresh_is_repeatable (s : Session) (token : Token) (now now2 : Z) (j : json)
    (record : RefreshToken) (u : User) :
  refresh_served settings s token now j record u →
  ∃ (resp : TokenRefreshResponse) (s' : Session),
    refresh_access_token settings s token now = (Ok resp, s')
    ∧ new_access_token resp
      = create_access_token settings (user_id u) (user_email u)
          (role_name <$> user_roles u) (get_permissions u) None now
    ∧ committed s' = working s'
    ∧ users (working s') = users (working s)
    ∧ filter (λ r, json_eq_str j (token_id r) = true ∧ is_revoked r = false)
        (refresh_tokens (working s')) = [set_used_at now record]
    ∧ ((∃ td2, verify_token settings token "refresh" now2 = Some td2 ∧ jti td2 = Some j) →
       is_valid record now2 = true →
       ∃ (resp2 : TokenRefreshResponse) (s2 : Session),
         refresh_access_token settings s' token now2 = (Ok resp2, s2)).
Proof.
  intros Hserved. pose proof Hserved as (Htd & Htruthy & Hrecords & Hvalid & Husers & Hactive).
  do 2 eexists.
  split; [exact (refresh_access_token_served s token now j record u Hserved)|].
  cbn -[update_where].
  split; [done|]. split; [done|]. split; [done|].
  assert (Hrecords' :
    filter (λ r, json_eq_str j (token_id r) = true ∧ is_revoked r = false)
      (update_where (λ r, json_eq_str j (token_id r)) (set_used_at now)
         (refresh_tokens (working s))) = [set_used_at now record]).
  { rewrite filter_update_where by done. rewrite Hrecords. cbn.
    assert (Hin : record ∈ filter
              (λ r, json_eq_str j (token_id r) = true ∧ is_revoked r = false)
              (refresh_tokens (working s))) by (rewrite Hrecords; left).
    apply list_elem_of_filter in Hin as [[-> _] _]. done. }
  split; [done|].
  intros Htd2 Hvalid2. do 2 eexists.
  apply refresh_access_token_served with (j := j) (record := set_used_at now record) (u := u).
  repeat split; try done.
Qed.

(** X13.  A refresh is served only under those conditions: never for a
    token that does not verify as a refresh token, for a record that is
    missing, revoked or expired, or for a user that is missing or
    inactive; and every refusal is an [AuthenticationError] that leaves
    the session rolled back. *)
Theorem refresh_served_only_if (s s' : Session) (token : Token) (now : Z) :
  (∀ resp : TokenRefreshResponse,
     refresh_access_token settings s token now = (Ok resp, s') →
     ∃ (j : json) (record : RefreshToken) (u : User),
       refresh_served settings s token now j record u
       ∧ is_revoked record = false ∧ now ≤ expires_at record)
  ∧ (∀ e : exn,
       refresh_access_token settings s token now = (Raise e, s') →
       (∃ msg, e = AuthenticationError msg) ∧ s' = rollback s).
Proof.
  unfold refresh_access_token, refresh_access_token_try, refresh_served.
  destruct (verify_token settings token "refresh" now) as [td|] eqn:Hverify;
    [|split; [done|]; intros e [= <- <-]; split; [by eexists|done]].
  destruct (jti td) as [j|] eqn:Hjti;
    [|split; [done|]; intros e [= <- <-]; split; [by eexists|done]].
  destruct (negb (truthy j)) eqn:Htruthy;
    [split; [done|]; intros e [= <- <-]; split; [by eexists|done]|].
  apply negb_false_iff in Htruthy.
  destruct (filter _ (refresh_tokens (working s))) as [|record [|record' rest]] eqn:Hrecords;
    cbn; [split; [done|]; intros e [= <- <-]; split; [by eexists|done]|
          |split; [done|]; intros e [= <- <-]; split; [by eexists|done]].
  destruct (negb (is_valid record now)) eqn:Hvalid;
    [split; [done|]; intros e [= <- <-]; split; [by eexists|done]|].
  apply negb_false_iff in Hvalid.
  destruct (filter _ (users (working s))) as [|u [|u' rows]] eqn:Husers;
    cbn; [split; [done|]; intros e [= <- <-]; split; [by eexists|done]|
          |split; [done|]; intros e [= <- <-]; split; [by eexists|done]].
  destruct (negb (is_active u)) eqn:Hactive;
    [split; [done|]; intros e [= <- <-]; split; [by eexists|done]|].
  apply negb_false_iff in Hactive.
  split; [|done].
  intros resp _. exists j, record, u.
  split; [by repeat split; eauto|].
  unfold is_valid, is_expired in Hvalid.
  apply andb_true_iff in Hvalid as [Hexp Hrev].
  apply negb_true_iff in Hexp, Hrev. apply Z.ltb_ge in Hexp. done.
Qed.

End LogoutAndRefresh.

Lemma logout_revokes_subject_witness :
  ∃ s' : Session,
    logout_user Reference.settings Reference.session1
      (create_access_token Reference.settings "user-1" "alice@example.com" ["user"] []
         None Reference.t0)
      (Reference.t0 + timedelta_minutes 14) = (true, s')
    ∧ committed s' = working s'.
Proof.
  destruct (logout_revokes_subject Reference.settings Reference.session1
              (create_access_token Reference.settings "user-1" "alice@example.com"
                 ["user"] [] None Reference.t0)
              (Reference.t0 + timedelta_minutes 14) Reference.alice_access_data)
    as (s' & Hlogout & Hcommitted & _); [vm_compute; reflexivity|].
  by exists s'.
Defined.

Lemma refresh_refused_after_logout_witness :
  let access :=
    create_access_token Reference.settings "user-1" "alice@example.com" ["user"] []
      None Reference.t0 in
  let refresh :=
    (create_refresh_token Reference.settings "user-1" None "jti-0" Reference.t0).1 in
  let s' :=
    (logout_user Reference.settings Reference.session1 access
       (Reference.t0 + timedelta_minutes 14)).2 in
  ∃ msg, refresh_access_token Reference.settings s' refresh
           (Reference.t0 + timedelta_minutes 20)
         = (Raise (AuthenticationError msg), s').
Proof.
  cbn zeta.
  apply (refresh_refused_after_logout Reference.settings Reference.session1 _ _
           (Reference.t0 + timedelta_minutes 14) (Reference.t0 + timedelta_minutes 20)
           Reference.alice_access_data Reference.alice_refresh_data (JStr "jti-0"));
    [vm_compute; reflexivity|vm_compute; reflexivity|reflexivity|].
  intros r Hr _. apply list_elem_of_singleton in Hr as ->. reflexivity.
Defined.

Lemma reference_refresh_served :
  refresh_served Reference.settings Reference.session1
    (create_refresh_token Reference.settings "user-1" None "jti-0" Reference.t0).1
    (Reference.t0 + timedelta_minutes 20) (JStr "jti-0")
    Reference.alice_refresh Reference.alice.
Proof.
  split; [exists Reference.alice_refresh_data; split; [vm_compute; reflexivity|reflexivity]|].
  repeat split; vm_compute; reflexivity.
Qed.

Lemma refresh_is_repeatable_witness :
  ∃ (resp : TokenRefreshResponse) (s' : Session),
    refresh_access_token Reference.settings Reference.session1
      (create_refresh_token Reference.settings "user-1" None "jti-0" Reference.t0).1
      (Reference.t0 + timedelta_minutes 20) = (Ok resp, s')
    ∧ new_access_token resp
      = create_access_token Reference.settings "user-1" "alice@example.com" ["user"]
          (get_permissions Reference.alice) None (Reference.t0 + timedelta_minutes 20).
Proof.
  destruct (refresh_is_repeatable Reference.settings Reference.session1 _
              (Reference.t0 + timedelta_minutes 20) (Reference.t0 + timedelta_minutes 40)
              _ _ _ reference_refresh_served)
    as (resp & s' & Hrefresh & Htoken & _).
  by exists resp, s'.
Defined.

Lemma refresh_served_only_if_witness :
  ∃ (j : json) (record : RefreshToken) (u : User),
    refresh_served Reference.settings Reference.session1
      (create_refresh_token Reference.settings "user-1" None "jti-0" Reference.t0).1
      (Reference.t0 + timedelta_minutes 20) j record u
    ∧ is_revoked record = false
    ∧ Reference.t0 + timedelta_minutes 20 ≤ expires_at record.
Proof.
  exact (proj1 (refresh_served_only_if Reference.settings Reference.session1 _ _
                  (Reference.t0 + timedelta_minutes 20)) _
           (refresh_access_token_served Reference.settings _ _ _ _ _ _
              reference_refresh_served)).
Defined.

(** * Properties of registration and of the authentication dependency *)

Section RegistrationProperties.
Context `{JoseLibrary} `{PasswordContext} `{PasswordHasher} `{CharClasses} `{FernetCipher}.

Lemma register_user_cases (s : Session) (roles_table : list Role)
    (data : RegisterRequest) (new_id salt : string) :
  let taken := filter (λ u, user_email u = rr_email data) (users (working s)) in
  let named := filter (λ r, role_name r = "user") roles_table in
  let out := register_user s roles_table data new_id salt in
  match taken with
  | [] =>
      if (is_password_strong (rr_password data)).1 then
        match named with
        | [] | [_] =>
            out = (Ok {| ur_id := new_id; ur_email := rr_email data; ur_is_active := true;
                         ur_is_verified := false; ur_roles := ["user"];
                         ur_last_login := None |},
                   commit (set_users
                             (λ rows, rows ++ [new_user new_id (rr_email data)
                                                 (get_password_hash salt (rr_password data))
                                                 named]) s))
        | _ => ∃ msg, out = (Raise (AuthenticationError msg), rollback s)
        end
      else
        out = (Raise (Exception "ValueError"
                        ("Password requirements not met: "
                         +:+ String.concat ", " (is_password_strong (rr_password data)).2)),
               rollback s)
  | [_] => out = (Raise (Exception "ValueError" "Email address is already registered"),
                  rollback s)
  | _ => ∃ msg, out = (Raise (AuthenticationError msg), rollback s)
  end.
Proof.
  cbn zeta. unfold register_user, register_user_try.
  destruct (filter _ (users (working s))) as [|u [|u' rows]]; cbn -[is_password_strong];
    [|done|by eexists].
  destruct (is_password_strong (rr_password data)) as [[] issues]; cbn; [|done].
  destruct (filter _ roles_table) as [|r [|r' rs]]; cbn; [done|done|by eexists].
Qed.

(** X14.  [register_user] creates the account exactly when no row has the
    email, the password is strong and the role table is sound; the row it
    appends is active, unverified, unlocked, without two-factor
    authentication, and holds the hash of the password; the session is
    committed.  An email already registered and a weak password are
    [ValueError]s, the latter listing every issue; and whenever
    registration raises, the session is rolled back. *)
Theorem register_user_outcome (s : Session) (roles_table : list Role)
    (data : RegisterRequest) (new_id salt : string) :
  (∀ (resp : UserResponse) (s' : Session),
     register_user s roles_table data new_id salt = (Ok resp, s') →
     filter (λ u, user_email u = rr_email data) (users (working s)) = []
     ∧ (is_password_strong (rr_password data)).1 = true
     ∧ ur_id resp = new_id ∧ ur_email resp = rr_email data
     ∧ committed s' = working s'
     ∧ ∃ roles : list Role,
         users (working s')
         = users (working s)
           ++ [new_user new_id (rr_email data)
                 (get_password_hash salt (rr_password data)) roles])
  ∧ (∀ u : User,
       filter (λ u, user_email u = rr_email data) (users (working s)) = [u] →
       register_user s roles_table data new_id salt
       = (Raise (Exception "ValueError" "Email address is already registered"), rollback s))
  ∧ (filter (λ u, user_email u = rr_email data) (users (working s)) = [] →
     (is_password_strong (rr_password data)).1 = false →
     register_user s roles_table data new_id salt
     = (Raise (Exception "ValueError"
                 ("Password requirements not met: "
                  +:+ String.concat ", " (is_password_strong (rr_password data)).2)),
        rollback s))
  ∧ (∀ (e : exn) (s' : Session),
       register_user s roles_table data new_id salt = (Raise e, s') → s' = rollback s).
Proof.
  pose proof (register_user_cases s roles_table data new_id salt) as Hcases.
  cbn zeta in Hcases.
  destruct (filter _ (users (working s))) as [|u [|u' rows]] eqn:Htaken.
  - destruct (is_password_strong (rr_password data)).1 eqn:Hstrong.
    + destruct (filter _ roles_table) as [|r [|r' rs]] eqn:Hnamed.
      * rewrite Hcases. split; [|split; [done|split; [done|done]]].
        intros resp s' [= <- <-]. repeat split; try done. by eexists.
      * rewrite Hcases. split; [|split; [done|split; [done|done]]].
        intros resp s' [= <- <-]. repeat split; try done. by eexists.
      * destruct Hcases as [msg ->]. split; [done|]. split; [done|]. split; [done|].
        by intros e s' [= <- <-].
    + rewrite Hcases. split; [done|]. split; [done|]. split; [done|].
      by intros e s' [= <- <-].
  - rewrite Hcases. split; [done|]. split; [done|]. split; [done|].
    by intros e s' [= <- <-].
  - destruct Hcases as [msg ->]. split; [done|]. split; [done|]. split; [done|].
    by intros e s' [= <- <-].
Qed.

(** X15.  Registration keeps the emails of the user table distinct: if no
    two rows share an email before, in the committed and in the working
    tables, none do after, whether the call returned or raised. *)
Theorem register_user_keeps_emails_distinct (s : Session) (roles_table : list Role)
    (data : RegisterRequest) (new_id salt : string) :
  NoDup (user_email <$> users (committed s)) →
  NoDup (user_email <$> users (working s)) →
  let s' := (register_user s roles_table data new_id salt).2 in
  NoDup (user_email <$> users (committed s'))
  ∧ NoDup (user_email <$> users (working s')).
Proof.
  intros Hcommitted Hworking s'. subst s'.
  pose proof (register_user_cases s roles_table data new_id salt) as Hcases.
  cbn zeta in Hcases.
  assert (Hfresh : filter (λ u, user_email u = rr_email data) (users (working s)) = [] →
            NoDup (user_email <$> (users (working s)
                     ++ [new_user new_id (rr_email data)
                           (get_password_hash salt (rr_password data))
                           (filter (λ r, role_name r = "user") roles_table)]))).
  { intros Hnone. rewrite fmap_app. apply NoDup_app. split; [done|]. split.
    - intros mail (u & -> & Hu)%list_elem_of_fmap Hin.
      apply list_elem_of_singleton in Hin. cbn in Hin.
      assert (Hin' : u ∈ filter (λ u, user_email u = rr_email data) (users (working s)))
        by by apply list_elem_of_filter.
      rewrite Hnone in Hin'. by apply elem_of_nil in Hin'.
    - apply NoDup_singleton. }
  destruct (filter _ (users (working s))) as [|u [|u' rows]] eqn:Htaken.
  - destruct (is_password_strong (rr_password data)).1.
    + destruct (filter _ roles_table) as [|r [|r' rs]] eqn:Hnamed.
      * rewrite Hcases. cbn. split; by apply Hfresh.
      * rewrite Hcases. cbn. split; by apply Hfresh.
      * by destruct Hcases as [msg ->].
    + by rewrite Hcases.
  - by rewrite Hcases.
  - by destruct Hcases as [msg ->].
Qed.

End RegistrationProperties.

Section RegisterThenLogin.
Context `{JoseLibrary} `{PasswordContext} `{PasswordHasher} `{CharClasses} `{FernetCipher}
  `{!PasswordContract} (settings : Settings).

(** X16.  A registered account can log in at once: after a successful
    [register_user], [authenticate_user] with the same email and password
    succeeds at any time, and answers for the identifier of the new
    row. *)
Theorem register_then_login (s s1 : Session) (roles_table : list Role)
    (data : RegisterRequest) (new_id salt tid sid : string) (now : Z)
    (registered : UserResponse) :
  register_user s roles_table data new_id salt = (Ok registered, s1) →
  ∃ (resp : LoginResponse) (s2 : Session),
    authenticate_user settings s1 (rr_email data) (rr_password data) tid sid now
    = (Ok resp, s2)
    ∧ ur_id (user resp) = new_id
    ∧ ur_is_verified (user resp) = false
    ∧ requires_2fa resp = false.
Proof.
  intros Hregister.
  destruct (register_user_outcome s roles_table data new_id salt) as (Hok & _).
  destruct (Hok _ _ Hregister) as (Hnone & _ & _ & _ & _ & roles & Husers).
  set (u := new_user new_id (rr_email data)
              (get_password_hash salt (rr_password data)) roles) in *.
  assert (Hrows : filter (λ r, user_email r = rr_email data) (users (working s1)) = [u]).
  { rewrite Husers, filter_app, Hnone, filter_cons, filter_nil. by case_decide. }
  destruct (authenticate_user_succeeds settings s1 u
              (get_password_hash salt (rr_password data)) (rr_password data) tid sid now)
    as (resp & s2 & Hlogin); try done.
  - apply hash_not_empty.
  - unfold verify_password, get_password_hash. by rewrite hash_verifies.
  - change (user_email u) with (rr_email data) in Hlogin.
    exists resp, s2. split; [exact Hlogin|].
    unfold authenticate_user, authenticate_user_try in Hlogin.
    rewrite Hrows in Hlogin. cbn in Hlogin.
    destruct (String.eqb _ ""); cbn in Hlogin; [discriminate|].
    destruct (verify_password _ _); cbn in Hlogin; [|discriminate].
    by injection Hlogin as <- <-.
Qed.

End RegisterThenLogin.

Lemma reference_password_contract : @PasswordContract Reference.passlib Reference.hasher.
Proof. split; intros salt password; cbn; [by rewrite String.eqb_refl|done]. Qed.

Lemma register_user_keeps_emails_distinct_witness :
  NoDup (user_email <$> users (working
           (register_user Reference.session0 Reference.roles_table Reference.bob_request
              "user-2" "s").2)).
Proof.
  apply (register_user_keeps_emails_distinct Reference.session0 Reference.roles_table
           Reference.bob_request "user-2" "s");
    apply NoDup_singleton.
Defined.

Lemma register_then_login_witness :
  ∃ (resp : LoginResponse) (s2 : Session),
    authenticate_user Reference.settings
      (register_user Reference.session0 Reference.roles_table Reference.bob_request
         "user-2" "s").2
      "bob@example.com" "Abcdef1!" "jti-1" "sid-1" Reference.t0 = (Ok resp, s2)
    ∧ ur_id (user resp) = "user-2".
Proof.
  pose proof reference_password_contract as Hcontract.
  destruct (register_user Reference.session0 Reference.roles_table Reference.bob_request
              "user-2" "s") as [[registered|e] s1] eqn:Hregister;
    [|vm_compute in Hregister; discriminate].
  destruct (register_then_login Reference.settings _ _ _ _ _ _ "jti-1" "sid-1" Reference.t0
              _ Hregister) as (resp & s2 & Hlogin & Hid & _).
  by exists resp, s2.
Defined.

(** * Properties of the permission check and of the authentication dependency *)

Section UserPermission.
Context `{JoseLibrary} `{PasswordContext} `{PasswordHasher} `{CharClasses} `{FernetCipher}.

(** X17.  [check_user_permission] answers [True] exactly when one row has
    the identifier, the account is active and its current permissions
    grant the required one; an unknown or inactive account, an identifier
    shared by several rows and a required permission without a colon
    that is not held are all answered [False]. *)
Theorem check_user_permission_true_iff (s : Session) (id required_permission : string) :
  check_user_permission s id required_permission = true ↔
    ∃ u : User,
      filter (λ r, user_id r = id) (users (working s)) = [u]
      ∧ is_active u = true
      ∧ ("*:*" ∈ get_permissions u
         ∨ required_permission ∈ get_permissions u
         ∨ ∃ resource action : string,
             required_permission = resource +:+ ":" +:+ action
             ∧ ¬ (":"%char ∈ String.list_ascii_of_string resource)
             ∧ resource +:+ ":*" ∈ get_permissions u).
Proof.
  unfold check_user_permission.
  destruct (filter _ (users (working s))) as [|u [|u' rows]]; cbn.
  - split; [done|]. by intros (u & ? & _).
  - destruct (is_active u) eqn:Hactive; cbn.
    + destruct (check_permission (get_permissions u) required_permission) as [b|e] eqn:Hcheck.
      * split.
        -- intros ->. exists u. split; [done|]. split; [done|].
           by apply check_permission_Ok_true.
        -- intros (u0 & [= <-] & _ & Hgrant).
           apply check_permission_Ok_true in Hgrant. congruence.
      * split; [done|]. intros (u0 & [= <-] & _ & Hgrant).
        apply check_permission_Ok_true in Hgrant. congruence.
    + split; [done|]. intros (u0 & [= <-] & ? & _). congruence.
  - split; [done|]. by intros (u0 & ? & _).
Qed.

End UserPermission.

Section CurrentUserProperties.
Context `{JoseLibrary} `{FernetCipher} (settings : Settings).

(** X18.  [get_current_user] lets a request through only with a bearer
    token that verifies as an access token at that time and whose subject
    is the identifier of exactly one row, active and verified; what it
    hands on is read from that row, so the roles and permissions are the
    current ones of the tables, whatever the token claims.  Every refusal
    is a 401, except that a subject shared by several rows is a 500. *)
Theorem get_current_user_admits_only (s : Session) (credentials : option Token) (now : Z) :
  (∀ cu : CurrentUser,
     get_current_user settings s credentials now = inr cu →
     ∃ (token : Token) (td : TokenData) (u : User),
       credentials = Some token
       ∧ verify_token settings token "access" now = Some td
       ∧ filter (λ r, json_eq_str (sub td) (user_id r) = true) (users (working s)) = [u]
       ∧ is_active u = true ∧ is_verified u = true
       ∧ cu_id cu = user_id u ∧ cu_email cu = user_email u
       ∧ cu_roles cu = role_name <$> user_roles u
       ∧ cu_permissions cu = get_permissions u)
  ∧ (∀ e : HTTPException,
       get_current_user settings s credentials now = inl e →
       status_code e = 401
       ∨ (status_code e = 500
          ∧ ∃ (token : Token) (td : TokenData) (u u' : User),
              credentials = Some token
              ∧ verify_token settings token "access" now = Some td
              ∧ u ∈ users (working s) ∧ u' ∈ users (working s)
              ∧ json_eq_str (sub td) (user_id u) = true
              ∧ json_eq_str (sub td) (user_id u') = true)).
Proof.
  unfold get_current_user.
  destruct credentials as [token|]; [|split; [done|by intros e [= <-]; left]].
  destruct (verify_token settings token "access" now) as [td|] eqn:Hverify;
    [|split; [done|by intros e [= <-]; left]].
  destruct (filter _ (users (working s))) as [|u [|u' rows]] eqn:Hrows; cbn.
  - split; [done|by intros e [= <-]; left].
  - destruct (is_active u) eqn:Hactive; cbn; [|split; [done|by intros e [= <-]; left]].
    destruct (is_verified u) eqn:Hverified; cbn; [|split; [done|by intros e [= <-]; left]].
    split; [|done]. intros cu [= <-]. by exists token, td, u.
  - split; [done|]. intros e [= <-]. right. split; [done|].
    assert (Hu : u ∈ filter (λ r, json_eq_str (sub td) (user_id r) = true) (users (working s)))
      by (rewrite Hrows; left).
    assert (Hu' : u' ∈ filter (λ r, json_eq_str (sub td) (user_id r) = true)
                    (users (working s)))
      by (rewrite Hrows; right; left).
    apply list_elem_of_filter in Hu as [? ?], Hu' as [? ?].
    by exists token, td, u, u'.
Qed.

End CurrentUserProperties.

Section RegisteredButUnverified.
Context `{JoseLibrary} `{PasswordContext} `{PasswordHasher} `{CharClasses} `{FernetCipher}
  `{!JoseContract} `{!PasswordContract} (settings : Settings).

Lemma json_eq_str_JStr (a b : string) : json_eq_str (JStr a) b = true ↔ a = b.
Proof.
  unfold json_eq_str, json_ne_str. rewrite negb_true_iff, negb_false_iff.
  apply String.eqb_eq.
Qed.

(** X19.  Registration alone does not open the authenticated endpoints:
    the account that [register_user] creates can log in, and the access
    token of that login verifies, but [get_current_user] refuses it with
    401 "Email address is not verified" for as long as the token lives. *)
Theorem registered_account_is_refused (s s1 s2 : Session) (roles_table : list Role)
    (data : RegisterRequest) (new_id salt tid sid : string) (now now' : Z)
    (registered : UserResponse) (resp : LoginResponse) :
  new_id ≠ "" → rr_email data ≠ "" →
  (∀ r, r ∈ users (working s) → user_id r ≠ new_id) →
  register_user s roles_table data new_id salt = (Ok registered, s1) →
  authenticate_user settings s1 (rr_email data) (rr_password data) tid sid now
  = (Ok resp, s2) →
  now' ≤ int_timestamp (now + timedelta_minutes (ACCESS_TOKEN_EXPIRE_MINUTES settings))
         * us_per_second →
  (∃ td, verify_token settings (access_token resp) "access" now' = Some td
         ∧ sub td = JStr new_id)
  ∧ get_current_user settings s2 (Some (access_token resp)) now'
    = inl {| status_code := 401; detail := "Email address is not verified" |}.
Proof.
  intros Hid Hmail Hfresh Hregister Hlogin Hlife.
  pose proof (register_user_cases s roles_table data new_id salt) as Hcases.
  cbn zeta in Hcases. rewrite Hregister in Hcases.
  destruct (filter (λ u, user_email u = rr_email data) (users (working s)))
    as [|u0 [|u0' rows0]] eqn:Hnone; [|done|by destruct Hcases].
  destruct (is_password_strong (rr_password data)).1; [|done].
  set (roles := filter (λ r, role_name r = "user") roles_table) in *.
  set (u := new_user new_id (rr_email data)
              (get_password_hash salt (rr_password data)) roles) in *.
  assert (Hs1 : users (working s1) = users (working s) ++ [u]).
  { destruct roles as [|r [|r' rs]]; [by injection Hcases as _ -> ..|by destruct Hcases]. }
  clear Hcases.
  assert (Hrows : filter (λ r, user_email r = rr_email data) (users (working s1)) = [u]).
  { rewrite Hs1, filter_app, Hnone, filter_cons, filter_nil. by case_decide. }
  revert Hlogin. unfold authenticate_user, authenticate_user_try.
  rewrite Hrows. cbn.
  destruct (String.eqb _ ""); cbn; [discriminate|].
  destruct (verify_password _ _); cbn; [|discriminate].
  intros [= <- <-]. cbn [access_token].
  destruct (access_token_verifies_until settings new_id (rr_email data)
              (role_name <$> roles) [] None now now') as (td & Hverify & Hsub & _);
    [done..|].
  split; [by exists td|].
  unfold get_current_user. rewrite Hverify, Hsub. cbn -[update_where filter].
  assert (Hfound :
    filter (λ r, json_eq_str (JStr new_id) (user_id r) = true)
      (update_where (has_id new_id) (set_last_login now) (users (working s1)))
    = [set_last_login now u]).
  { rewrite Hs1. unfold update_where. rewrite fmap_app, filter_app.
    rewrite (filter_none _ (_ <$> users (working s))).
    - change (_ <$> [u]) with [if has_id new_id u then set_last_login now u else u].
      assert (has_id new_id u = true) as -> by apply String.eqb_refl.
      rewrite filter_cons, filter_nil. case_decide as Hdec; [done|].
      exfalso. apply Hdec. by apply json_eq_str_JStr.
    - intros r (r0 & -> & Hr0)%list_elem_of_fmap Heq%json_eq_str_JStr.
      apply (Hfresh r0 Hr0). unfold has_id in Heq.
      destruct (String.eqb (user_id r0) new_id) eqn:Hr; [by apply String.eqb_eq in Hr|done]. }
  by rewrite Hfound.
Qed.

End RegisteredButUnverified.

Lemma registered_account_is_refused_witness :
  ∃ (resp : LoginResponse) (s2 : Session),
    authenticate_user Reference.settings
      (register_user Reference.session0 Reference.roles_table Reference.bob_request
         "user-2" "s").2
      "bob@example.com" "Abcdef1!" "jti-1" "sid-1" Reference.t0 = (Ok resp, s2)
    ∧ get_current_user Reference.settings s2 (Some (access_token resp))
        (Reference.t0 + timedelta_minutes 1)
      = inl {| status_code := 401; detail := "Email address is not verified" |}.
Proof.
  pose proof reference_password_contract as Hcontract.
  destruct (register_user Reference.session0 Reference.roles_table Reference.bob_request
              "user-2" "s") as [[registered|e] s1] eqn:Hregister;
    [|vm_compute in Hregister; discriminate].
  cbn [snd].
  assert (Hs1 : s1 = commit (set_users
                  (λ rows, rows ++ [new_user "user-2" "bob@example.com"
                                      (get_password_hash "s" "Abcdef1!")
                                      (filter (λ r, role_name r = "user")
                                         Reference.roles_table)])
                  Reference.session0)).
  { vm_compute in Hregister. injection Hregister as _ <-. vm_compute. reflexivity. }
  destruct (authenticate_user_succeeds Reference.settings s1
              (new_user "user-2" "bob@example.com" (get_password_hash "s" "Abcdef1!")
                 (filter (λ r, role_name r = "user") Reference.roles_table))
              (get_password_hash "s" "Abcdef1!") "Abcdef1!" "jti-1" "sid-1" Reference.t0)
    as (resp & s2 & Hlogin); [rewrite Hs1; vm_compute; done|vm_compute; done..|].
  change (user_email _) with "bob@example.com" in Hlogin.
  exists resp, s2. split; [exact Hlogin|].
  apply (registered_account_is_refused Reference.settings Reference.session0 s1 s2
           Reference.roles_table Reference.bob_request "user-2" "s" "jti-1" "sid-1"
           Reference.t0 (Reference.t0 + timedelta_minutes 1) registered resp);
    [done|done| |exact Hregister|exact Hlogin|vm_compute; discriminate].
  intros r Hr. apply list_elem_of_singleton in Hr as ->. done.
Defined.

(** * Properties of the two-factor service *)

Section TwoFactorProperties.
Context `{PasswordContext} `{PasswordHasher} `{TotpLibrary} `{FernetCipher}.

Lemma verify_2fa_code_columns (u : User) (code : string) (is_backup : bool) (now : Z) :
  two_factor_enabled (verify_2fa_code u code is_backup now).2 = two_factor_enabled u
  ∧ totp_secret (verify_2fa_code u code is_backup now).2 = totp_secret u
  ∧ two_factor_verified_at (verify_2fa_code u code is_backup now).2
    = two_factor_verified_at u
  ∧ (0 ≤ failed_2fa_attempts u ≤ MAX_2FA_ATTEMPTS →
     0 ≤ failed_2fa_attempts (verify_2fa_code u code is_backup now).2 ≤ MAX_2FA_ATTEMPTS).
Proof.
  unfold verify_2fa_code, check_locked_out, _verify_backup_code, MAX_2FA_ATTEMPTS.
  repeat case_match; simplify_eq; cbn; repeat split; try done;
    repeat match goal with
           | Hle : (_ <=? _) = false |- _ => apply Z.leb_gt in Hle
           end; lia.
Qed.

Lemma after_op_consistent (u : User) (op : two_factor_op) :
  two_factor_consistent u → two_factor_consistent (after_op u op).
Proof.
  intros Hu.
  destruct op as [secret rnd salts|totp_code now|code is_backup now|rnd salts|password]; cbn.
  - unfold setup_totp. destruct (two_factor_enabled u) eqn:Henabled; [done|].
    destruct Hu as [_ Hcount]. split; [|done]. cbn. congruence.
  - unfold verify_and_enable_totp. destruct (two_factor_enabled u) eqn:Henabled; [done|].
    destruct (usable_secret u) as [secret|] eqn:Hsecret; [|done].
    destruct (verify_totp secret totp_code 1 now); cbn [negb snd]; [|done].
    split; [|unfold MAX_2FA_ATTEMPTS; cbn; lia]. intros _.
    change (usable_secret (set_two_factor true (Some now) 0 u)) with (usable_secret u).
    rewrite Hsecret. by split.
  - destruct (verify_2fa_code_columns u code is_backup now)
      as (Henabled & Htotp & Hat & Hattempts).
    destruct Hu as [Hen Hcount]. split; [|by apply Hattempts].
    rewrite Henabled, Hat. unfold usable_secret. rewrite Htotp. apply Hen.
  - unfold regenerate_backup_codes. by destruct (two_factor_enabled u).
  - unfold disable_two_factor. destruct (two_factor_enabled u) eqn:Henabled; [|done].
    destruct (verify_user_password u password); cbn [negb snd]; [|done].
    split; [done|]. unfold MAX_2FA_ATTEMPTS. cbn. lia.
Qed.

(** X20.  Whatever operations of the two-factor service are run on an
    account, in any order and whether they return or raise, its
    two-factor columns stay consistent: two-factor authentication is
    never enabled without a usable secret and the time of enabling, and
    the attempt counter stays between 0 and [MAX_2FA_ATTEMPTS].  So
    [verify_2fa_code] raises nothing but a [TwoFactorError] on such an
    account: the addition to [two_factor_verified_at] never meets
    [None]. *)
Theorem two_factor_state_consistent (u : User) (ops : list two_factor_op) :
  two_factor_consistent u →
  two_factor_consistent (after_ops u ops)
  ∧ ∀ (code : string) (is_backup : bool) (now : Z) (e : exn),
      (verify_2fa_code (after_ops u ops) code is_backup now).1 = Raise e →
      ∃ msg, e = TwoFactorError msg.
Proof.
  intros Hu.
  assert (Hafter : two_factor_consistent (after_ops u ops)).
  { unfold after_ops. revert u Hu. induction ops as [|op ops IH]; intros u Hu; [done|].
    cbn. apply IH. by apply after_op_consistent. }
  split; [done|]. destruct Hafter as [Hen _]. generalize dependent (after_ops u ops).
  intros u' Hen code is_backup now e. unfold verify_2fa_code.
  destruct (two_factor_enabled u') eqn:Henabled; cbn; [|intros [= <-]; by eexists].
  destruct (Hen eq_refl) as [_ [verified_at Hat]].
  unfold check_locked_out. rewrite Hat.
  destruct (MAX_2FA_ATTEMPTS <=? failed_2fa_attempts u').
  - destruct (now <? _); cbn; [intros [= <-]; by eexists|].
    destruct (if is_backup then _ else _) as [[] u2]; done.
  - destruct (if is_backup then _ else _) as [[] u2]; done.
Qed.

(** X21.  Setting up, confirming and then using TOTP: on an account
    without two-factor authentication, [setup_totp] followed by
    [verify_and_enable_totp] with a code that is valid for the secret
    handed out enables two-factor authentication at that time; from then
    on [verify_2fa_code] answers for every TOTP code what the TOTP
    library answers for that same secret, counting a wrong code as one
    failed attempt and clearing the counter on a right one. *)
Theorem totp_setup_round_trip (u : User) (secret totp_code : string) (rnd : nat → nat)
    (salts : nat → string) (now : Z) :
  two_factor_enabled u = false →
  secret ≠ "" →
  verify_totp secret totp_code 1 now = true →
  ∃ (setup : TotpSetup) (u1 u2 : User),
    setup_totp u secret rnd salts = (Ok setup, u1)
    ∧ setup_secret setup = secret
    ∧ two_factor_enabled u1 = false
    ∧ verify_and_enable_totp u1 totp_code now = (Ok true, u2)
    ∧ two_factor_enabled u2 = true
    ∧ two_factor_verified_at u2 = Some now
    ∧ ∀ (code : string) (now2 : Z),
        (verify_2fa_code u2 code false now2).1 = Ok (verify_totp secret code 1 now2)
        ∧ failed_2fa_attempts (verify_2fa_code u2 code false now2).2
          = (if verify_totp secret code 1 now2 then 0 else 1).
Proof.
  intros Henabled Hsecret Hcode.
  unfold setup_totp. rewrite Henabled.
  do 3 eexists. split; [reflexivity|]. split; [done|]. split; [done|].
  unfold verify_and_enable_totp. cbn.
  apply String.eqb_neq in Hsecret.
  unfold usable_secret. cbn. rewrite Henabled, Hsecret, Hcode. cbn.
  split; [reflexivity|]. split; [done|]. split; [done|].
  intros code now2. unfold verify_2fa_code, check_locked_out, usable_secret. cbn.
  rewrite Hsecret. by destruct (verify_totp secret code 1 now2).
Qed.

(** X22.  Every code that [_generate_backup_codes] produces, whatever the
    draws, is nine characters long with a dash in the middle; there are
    [BACKUP_CODES_COUNT] of them.  None of them therefore passes the
    length bounds of the [code] field of [TwoFactorVerifyRequest] and
    [TwoFactorLoginRequest] (at most eight characters), through which
    backup codes are submitted. *)
Theorem generated_backup_codes_too_long (rnd : nat → nat) :
  length (_generate_backup_codes rnd) = BACKUP_CODES_COUNT
  ∧ ∀ code : string,
      code ∈ _generate_backup_codes rnd →
      String.length code = 9%nat
      ∧ String.get 4 code = Some "-"%char
      ∧ code_length_valid code = false.
Proof.
  split; [unfold _generate_backup_codes; by rewrite length_fmap, length_seq|].
  intros code (i & -> & _)%list_elem_of_fmap.
  unfold code_length_valid, backup_code. cbn. done.
Qed.

End TwoFactorProperties.

Section BackupCodeProperties.
Context `{PasswordContext} `{PasswordHasher} `{TotpLibrary} `{FernetCipher}.

Lemma hash_codes_lookup (salts : nat → string) (codes : list string) (i : nat) :
  hash_codes salts codes !! i
  = (λ code, Some (get_password_hash (salts i) code)) <$> codes !! i.
Proof. unfold hash_codes. apply list_lookup_imap. Qed.

Lemma generated_code_lookup (rnd : nat → nat) (i : nat) :
  (i < BACKUP_CODES_COUNT)%nat →
  _generate_backup_codes rnd !! i = Some (backup_code rnd i).
Proof.
  intros Hi. unfold _generate_backup_codes.
  rewrite list_lookup_fmap, lookup_seq_lt by done. done.
Qed.

Lemma filter_imap_Some {A : Type} (f : nat → A → string) (l : list A) :
  filter is_Some (imap (λ i x, Some (f i x)) l) = imap (λ i x, Some (f i x)) l.
Proof.
  revert f. induction l as [|x l IH]; intros f; [done|].
  rewrite imap_cons, filter_cons. case_decide as Hsome; [|by destruct Hsome].
  f_equal. apply (IH (λ i, f (S i))).
Qed.

Lemma unused_slots_hash_codes (salts : nat → string) (codes : list string) :
  unused_slots (hash_codes salts codes) = length codes.
Proof.
  unfold unused_slots, hash_codes.
  rewrite (filter_imap_Some (λ i code, get_password_hash (salts i) code)).
  apply length_imap.
Qed.

Lemma unused_slots_consume (l : list (option string)) (i : nat) (h : string) :
  l !! i = Some (Some h) →
  unused_slots l = S (unused_slots (<[i := None]> l)).
Proof.
  unfold unused_slots. revert i. induction l as [|slot l IH]; intros i; [done|].
  destruct i as [|i]; cbn [lookup list_lookup insert list_insert].
  - intros [= ->]. rewrite !filter_cons. case_decide as Hsome; [|by destruct Hsome].
    case_decide as Hnone; [by destruct Hnone|]. done.
  - intros Hi. rewrite !filter_cons. case_decide; cbn [length]; by rewrite (IH i Hi).
Qed.

Lemma verify_backup_code_generated (u : User) (salts : nat → string) (codes : list string)
    (i : nat) (code : string) :
  PasswordContract → fernet_round_trip →
  backup_codes u = Some (cipher_encrypt (hash_codes salts codes)) →
  codes !! i = Some code →
  ∃ j : nat,
    (j ≤ i)%nat
    ∧ _verify_backup_code u code
      = (true,
         set_backup_codes (Some (cipher_encrypt (<[j := None]> (hash_codes salts codes))))
           (two_factor_recovery_codes_used u + 1) u)
    ∧ is_Some (hash_codes salts codes !! j ≫= id).
Proof.
  intros Hcontract Hround Hstored Hcode.
  unfold _verify_backup_code. rewrite Hstored, Hround.
  destruct (scan_codes code (hash_codes salts codes) 0) as [j|] eqn:Hscan.
  - apply scan_codes_Some in Hscan as (k & slot & -> & Hk & Hmatch & Hfirst).
    exists k. split; [|split; [done|]].
    + destruct (decide (k ≤ i)%nat) as [|Hgt]; [done|].
      assert (Hslot : slot_matches code (Some (get_password_hash (salts i) code)) = false).
      { apply (Hfirst i); [lia|]. by rewrite hash_codes_lookup, Hcode. }
      unfold slot_matches, get_password_hash, verify_password in Hslot.
      rewrite hash_verifies in Hslot.
      pose proof (hash_not_empty (salts i) code) as Hne.
      apply String.eqb_neq in Hne. by rewrite Hne in Hslot.
    + rewrite Hk. cbn. apply slot_matches_Some in Hmatch as (h & -> & _). by eexists.
  - exfalso. pose proof (proj1 (scan_codes_None _ _ _) Hscan
                           (Some (get_password_hash (salts i) code))) as Hslot.
    assert (Hin : Some (get_password_hash (salts i) code) ∈ hash_codes salts codes).
    { apply list_elem_of_lookup. exists i. by rewrite hash_codes_lookup, Hcode. }
    specialize (Hslot Hin).
    unfold slot_matches, get_password_hash, verify_password in Hslot.
    rewrite hash_verifies in Hslot.
    pose proof (hash_not_empty (salts i) code) as Hne.
    apply String.eqb_neq in Hne. by rewrite Hne in Hslot.
Qed.

(** X23.  The backup codes handed out can be used: after
    [regenerate_backup_codes] on an account with two-factor
    authentication, which returns the codes of [_generate_backup_codes],
    each of the ten codes is accepted by [verify_2fa_code] as a backup
    code (the account not being locked out); the verification clears the
    attempt counter, consumes one slot, and [get_2fa_status] then reports
    nine codes remaining. *)
Theorem regenerated_backup_code_verifies (u : User) (rnd : nat → nat) (salts : nat → string)
    (i : nat) (now : Z) :
  PasswordContract → fernet_round_trip →
  two_factor_enabled u = true →
  failed_2fa_attempts u < MAX_2FA_ATTEMPTS →
  (i < BACKUP_CODES_COUNT)%nat →
  ∃ u1 u2 : User,
    regenerate_backup_codes u rnd salts = (Ok (_generate_backup_codes rnd), u1)
    ∧ backup_codes_remaining (get_2fa_status u1) = 10
    ∧ verify_2fa_code u1 (backup_code rnd i) true now = (Ok true, u2)
    ∧ failed_2fa_attempts u2 = 0
    ∧ two_factor_recovery_codes_used u2 = 1
    ∧ backup_codes_remaining (get_2fa_status u2) = 9.
Proof.
  intros Hcontract Hround Henabled Hattempts Hi.
  unfold regenerate_backup_codes. rewrite Henabled. cbn [negb].
  set (l := hash_codes salts (_generate_backup_codes rnd)).
  set (u1 := set_backup_codes (Some (cipher_encrypt l)) 0 u).
  destruct (verify_backup_code_generated u1 salts (_generate_backup_codes rnd) i
              (backup_code rnd i) Hcontract Hround eq_refl (generated_code_lookup rnd i Hi))
    as (j & _ & Hverify & _).
  exists u1. eexists. split; [reflexivity|].
  split; [unfold get_2fa_status; cbn; by rewrite Henabled|].
  unfold verify_2fa_code, check_locked_out.
  change (two_factor_enabled u1) with (two_factor_enabled u).
  change (failed_2fa_attempts u1) with (failed_2fa_attempts u).
  rewrite Henabled. cbn [negb].
  rewrite (proj2 (Z.leb_gt _ _) Hattempts). rewrite Hverify.
  split; [reflexivity|]. split; [done|]. split; [done|].
  unfold get_2fa_status. cbn. by rewrite Henabled.
Qed.

Lemma verify_2fa_code_backup_columns (u : User) (code : string) (is_backup : bool)
    (now : Z) :
  (backup_codes (verify_2fa_code u code is_backup now).2 = backup_codes u
   ∧ two_factor_recovery_codes_used (verify_2fa_code u code is_backup now).2
     = two_factor_recovery_codes_used u)
  ∨ (backup_codes (verify_2fa_code u code is_backup now).2
     = backup_codes (_verify_backup_code u code).2
     ∧ two_factor_recovery_codes_used (verify_2fa_code u code is_backup now).2
       = two_factor_recovery_codes_used (_verify_backup_code u code).2).
Proof.
  assert (Hreset :
    backup_codes (_verify_backup_code (set_failed_2fa 0 u) code).2
    = backup_codes (_verify_backup_code u code).2
    ∧ two_factor_recovery_codes_used (_verify_backup_code (set_failed_2fa 0 u) code).2
      = two_factor_recovery_codes_used (_verify_backup_code u code).2).
  { unfold _verify_backup_code. cbn. repeat case_match; done. }
  unfold verify_2fa_code, check_locked_out.
  destruct (negb (two_factor_enabled u)); [by left|].
  destruct (MAX_2FA_ATTEMPTS <=? failed_2fa_attempts u).
  - destruct (two_factor_verified_at u) as [verified_at|]; [|by left].
    destruct (now <? _); [by left|].
    destruct is_backup.
    + right. by destruct (_verify_backup_code (set_failed_2fa 0 u) code) as [[] u2].
    + left. change (usable_secret (set_failed_2fa 0 u)) with (usable_secret u).
      destruct (usable_secret u) as [secret|]; [|done].
      by destruct (verify_totp secret code 1 now).
  - destruct is_backup.
    + right. by destruct (_verify_backup_code u code) as [[] u2].
    + left. destruct (usable_secret u) as [secret|]; [|done].
      by destruct (verify_totp secret code 1 now).
Qed.

Lemma verify_backup_code_consistent (u : User) (code : string) :
  fernet_round_trip →
  backup_codes_consistent u →
  backup_codes_consistent (_verify_backup_code u code).2.
Proof.
  intros Hround Hu. unfold _verify_backup_code.
  destruct (backup_codes u) as [encrypted|] eqn:Hstored; [|done].
  unfold backup_codes_consistent in Hu. rewrite Hstored in Hu.
  destruct Hu as (l & -> & Hlen & Hused). rewrite Hround.
  destruct (scan_codes code l 0) as [j|] eqn:Hscan; cbn [snd].
  - apply scan_codes_Some in Hscan as (k & slot & -> & Hk & Hmatch & _).
    apply slot_matches_Some in Hmatch as (h & -> & _).
    unfold backup_codes_consistent. cbn.
    exists (<[k := None]> l). split; [done|]. split; [by rewrite length_insert|].
    rewrite (unused_slots_consume l k h Hk) in Hused. lia.
  - unfold backup_codes_consistent. rewrite Hstored. by exists l.
Qed.

Lemma fresh_codes_consistent (u : User) (rnd : nat → nat) (salts : nat → string) :
  backup_codes_consistent
    (set_backup_codes
       (Some (cipher_encrypt (hash_codes salts (_generate_backup_codes rnd)))) 0 u).
Proof.
  unfold backup_codes_consistent.
  cbn [backup_codes set_backup_codes two_factor_recovery_codes_used].
  exists (hash_codes salts (_generate_backup_codes rnd)). split; [done|].
  rewrite unused_slots_hash_codes. unfold hash_codes. rewrite length_imap.
  unfold _generate_backup_codes. rewrite length_fmap, length_seq. split; [done|lia].
Qed.

Lemma after_op_backup_codes_consistent (u : User) (op : two_factor_op) :
  fernet_round_trip →
  backup_codes_consistent u → backup_codes_consistent (after_op u op).
Proof.
  intros Hround Hu.
  destruct op as [secret rnd salts|totp_code now|code is_backup now|rnd salts|password]; cbn.
  - unfold setup_totp. destruct (two_factor_enabled u); [done|].
    apply fresh_codes_consistent.
  - unfold verify_and_enable_totp. repeat case_match; done.
  - pose proof (verify_backup_code_consistent u code Hround Hu) as Hu'.
    unfold backup_codes_consistent in *.
    destruct (verify_2fa_code_backup_columns u code is_backup now) as [[-> ->]|[-> ->]]; done.
  - unfold regenerate_backup_codes. destruct (two_factor_enabled u); [|done].
    apply fresh_codes_consistent.
  - unfold disable_two_factor. repeat case_match; done.
Qed.

(** X24.  The count of remaining backup codes that [get_2fa_status]
    reports is truthful: whatever operations of the service are run on an
    account whose stored list agrees with its counter of used codes (an
    account without backup codes, for one), the list still has ten slots
    and the count reported for an enabled account is the number of slots
    not yet consumed. *)
Theorem backup_codes_remaining_truthful (u : User) (ops : list two_factor_op) :
  fernet_round_trip →
  backup_codes_consistent u →
  backup_codes_consistent (after_ops u ops)
  ∧ ∀ (encrypted : Ciphertext) (l : list (option string)),
      two_factor_enabled (after_ops u ops) = true →
      backup_codes (after_ops u ops) = Some encrypted →
      cipher_decrypt encrypted = Ok l →
      length l = BACKUP_CODES_COUNT
      ∧ backup_codes_remaining (get_2fa_status (after_ops u ops))
        = Z.of_nat (unused_slots l).
Proof.
  intros Hround Hu.
  assert (Hafter : backup_codes_consistent (after_ops u ops)).
  { unfold after_ops. revert u Hu. induction ops as [|op ops IH]; intros u Hu; [done|].
    cbn. apply IH. by apply after_op_backup_codes_consistent. }
  split; [done|]. generalize dependent (after_ops u ops). clear u Hu.
  intros u Hu encrypted l Henabled Hstored Hdecrypt.
  unfold backup_codes_consistent in Hu. rewrite Hstored in Hu.
  destruct Hu as (l' & -> & Hlen & Hused).
  rewrite Hround in Hdecrypt. injection Hdecrypt as <-.
  split; [done|]. unfold get_2fa_status. cbn. rewrite Henabled, Hstored. cbn.
  rewrite Hused. unfold BACKUP_CODES_COUNT. lia.
Qed.

(** X25.  [disable_two_factor] asks for the password: on an enabled
    account it succeeds exactly when the password verifies against the
    stored hash, and with a wrong password it raises and leaves the
    account as it was.  When it succeeds every two-factor column is
    cleared: [get_2fa_status] reports nothing enabled and no code
    remaining, [verify_2fa_code] refuses every code, and [setup_totp] is
    possible again. *)
Theorem disable_two_factor_clears (u : User) (password : string) :
  two_factor_enabled u = true →
  (verify_user_password u password = false →
   disable_two_factor u password = (Raise (TwoFactorError "Invalid password"), u))
  ∧ (verify_user_password u password = true →
     ∃ u' : User,
       disable_two_factor u password = (Ok true, u')
       ∧ get_2fa_status u'
         = {| status_enabled := false; status_verified_at := None;
              backup_codes_remaining := 0; method_totp := false;
              method_backup_codes := false |}
       ∧ failed_2fa_attempts u' = 0
       ∧ hashed_password u' = hashed_password u
       ∧ (∀ (code : string) (is_backup : bool) (now : Z),
            verify_2fa_code u' code is_backup now
            = (Raise (TwoFactorError "Two-factor authentication is not enabled"), u'))
       ∧ ∀ (secret : string) (rnd : nat → nat) (salts : nat → string),
           ∃ setup u2, setup_totp u' secret rnd salts = (Ok setup, u2)).
Proof.
  intros Henabled. unfold disable_two_factor. rewrite Henabled. cbn [negb].
  split; intros Hpassword; rewrite Hpassword; cbn [negb]; [done|].
  eexists. split; [reflexivity|].
  split; [done|]. split; [done|]. split; [done|]. split; [done|].
  intros secret rnd salts. unfold setup_totp. cbn. by do 2 eexists.
Qed.

(** X26.  The lock-out that does work: on an account whose two-factor
    authentication was enabled less than [LOCKOUT_DURATION] seconds ago,
    [MAX_2FA_ATTEMPTS] wrong TOTP codes in a row bring the counter to
    [MAX_2FA_ATTEMPTS], and from then until [LOCKOUT_DURATION] seconds
    after the enabling every attempt is refused with a [TwoFactorError],
    the right code and backup codes included, and changes nothing. *)
Theorem two_factor_lockout_after_enabling (u : User) (secret : string) (enabled_at : Z)
    (attempts : list (string * Z)) (code : string) (is_backup : bool) (now : Z) :
  two_factor_enabled u = true →
  usable_secret u = Some secret →
  two_factor_verified_at u = Some enabled_at →
  failed_2fa_attempts u = 0 →
  Z.of_nat (length attempts) = MAX_2FA_ATTEMPTS →
  (∀ a, a ∈ attempts → verify_totp secret a.1 1 a.2 = false) →
  now < enabled_at + timedelta_seconds LOCKOUT_DURATION →
  failed_2fa_attempts (after_2fa_attempts u attempts) = MAX_2FA_ATTEMPTS
  ∧ ∃ msg,
      verify_2fa_code (after_2fa_attempts u attempts) code is_backup now
      = (Raise (TwoFactorError msg), after_2fa_attempts u attempts).
Proof.
  intros Henabled Hsecret Hat Hzero Hlen Hwrong Hnow.
  assert (Hrun : ∀ (l : list (string * Z)) (v : User),
            two_factor_enabled v = true → usable_secret v = Some secret →
            two_factor_verified_at v = Some enabled_at →
            failed_2fa_attempts v + Z.of_nat (length l) ≤ MAX_2FA_ATTEMPTS →
            (∀ a, a ∈ l → verify_totp secret a.1 1 a.2 = false) →
            two_factor_enabled (after_2fa_attempts v l) = true
            ∧ two_factor_verified_at (after_2fa_attempts v l) = Some enabled_at
            ∧ failed_2fa_attempts (after_2fa_attempts v l)
              = failed_2fa_attempts v + Z.of_nat (length l)).
  { induction l as [|a l IH]; intros v Hv Hs Hv_at Hle Hl; [cbn; split; [done|split; [done|lia]]|].
    unfold after_2fa_attempts in *. cbn [foldl].
    assert (Hstep : verify_2fa_code v a.1 false a.2
                    = (Ok false, set_failed_2fa (failed_2fa_attempts v + 1) v)).
    { unfold verify_2fa_code, check_locked_out. rewrite Hv. cbn [negb].
      assert ((MAX_2FA_ATTEMPTS <=? failed_2fa_attempts v) = false) as ->
        by (apply Z.leb_gt; cbn [length] in Hle; lia).
      rewrite Hs, (Hl a) by left. done. }
    rewrite Hstep. cbn [snd].
    destruct (IH (set_failed_2fa (failed_2fa_attempts v + 1) v)) as (He & Ha & Hc);
      try done.
    - cbn in *. lia.
    - intros b Hb. apply Hl. by right.
    - split; [done|]. split; [done|]. rewrite Hc. cbn. lia. }
  destruct (Hrun attempts u) as (He & Ha & Hc); try done; [lia|].
  rewrite Hzero in Hc. split; [lia|].
  unfold verify_2fa_code, check_locked_out. rewrite He, Ha, Hc, Hlen. cbn [negb].
  rewrite Z.leb_refl, (proj2 (Z.ltb_lt _ _) Hnow). by eexists.
Qed.

End BackupCodeProperties.

Lemma two_factor_state_consistent_witness :
  two_factor_consistent
    (after_ops Reference.alice
       [OpVerify "000000" false Reference.t0; OpDisable "Secret123!";
        OpSetup "JBSWY3DPEHPK3PXP" Reference.draws Reference.salts]).
Proof.
  apply (two_factor_state_consistent Reference.alice).
  split; [intros _; split; by eexists|]. vm_compute. by split.
Defined.

Lemma totp_setup_round_trip_witness :
  ∃ (setup : TotpSetup) (u1 u2 : User),
    setup_totp Reference.bob "JBSWY3DPEHPK3PXP" Reference.draws Reference.salts
    = (Ok setup, u1)
    ∧ verify_and_enable_totp u1 "otp-JBSWY3DPEHPK3PXP" Reference.t0 = (Ok true, u2)
    ∧ (verify_2fa_code u2 "otp-JBSWY3DPEHPK3PXP" false Reference.t0').1 = Ok true
    ∧ (verify_2fa_code u2 "000000" false Reference.t0').1 = Ok false.
Proof.
  destruct (totp_setup_round_trip Reference.bob "JBSWY3DPEHPK3PXP" "otp-JBSWY3DPEHPK3PXP"
              Reference.draws Reference.salts Reference.t0)
    as (setup & u1 & u2 & Hsetup & _ & _ & Henable & _ & _ & Hverify);
    [vm_compute; done..|].
  exists setup, u1, u2. split; [exact Hsetup|]. split; [exact Henable|].
  split; [apply Hverify|apply Hverify].
Defined.

Lemma generated_backup_codes_too_long_witness :
  code_length_valid (backup_code Reference.draws 0) = false.
Proof.
  apply (generated_backup_codes_too_long Reference.draws).
  unfold _generate_backup_codes. apply list_elem_of_fmap. exists 0%nat.
  split; [done|]. apply elem_of_seq. unfold BACKUP_CODES_COUNT. lia.
Defined.

Lemma regenerated_backup_code_verifies_witness :
  ∃ u1 u2 : User,
    regenerate_backup_codes Reference.alice Reference.draws Reference.salts
    = (Ok (_generate_backup_codes Reference.draws), u1)
    ∧ verify_2fa_code u1 (backup_code Reference.draws 3) true Reference.t0 = (Ok true, u2)
    ∧ backup_codes_remaining (get_2fa_status u2) = 9.
Proof.
  destruct (regenerated_backup_code_verifies Reference.alice Reference.draws Reference.salts
              3 Reference.t0 reference_password_contract reference_fernet_round_trip)
    as (u1 & u2 & Hregenerate & _ & Hverify & _ & _ & Hremaining);
    [done|done|unfold BACKUP_CODES_COUNT; lia|].
  by exists u1, u2.
Defined.

Lemma backup_codes_remaining_truthful_witness :
  backup_codes_consistent
    (after_ops Reference.bob
       [OpSetup "JBSWY3DPEHPK3PXP" Reference.draws Reference.salts;
        OpEnable "otp-JBSWY3DPEHPK3PXP" Reference.t0;
        OpVerify (backup_code Reference.draws 3) true Reference.t0']).
Proof.
  by apply (backup_codes_remaining_truthful Reference.bob _ reference_fernet_round_trip).
Defined.

Lemma disable_two_factor_clears_witness :
  ∃ u' : User,
    disable_two_factor Reference.alice "Secret123!" = (Ok true, u')
    ∧ status_enabled (get_2fa_status u') = false.
Proof.
  destruct (disable_two_factor_clears Reference.alice "Secret123!" eq_refl) as [_ Hright].
  destruct Hright as (u' & Hdisable & Hstatus & _); [vm_compute; reflexivity|].
  exists u'. split; [exact Hdisable|]. by rewrite Hstatus.
Defined.

Lemma two_factor_lockout_after_enabling_witness :
  ∃ msg,
    (verify_2fa_code
       (after_2fa_attempts Reference.alice
          (replicate 5 ("000000", Reference.t0 - timedelta_minutes 58)))
       "otp-JBSWY3DPEHPK3PXP" false (Reference.t0 - timedelta_minutes 56)).1
    = Raise (TwoFactorError msg).
Proof.
  destruct (two_factor_lockout_after_enabling Reference.alice "JBSWY3DPEHPK3PXP"
              (Reference.t0 - timedelta_minutes 60)
              (replicate 5 ("000000", Reference.t0 - timedelta_minutes 58))
              "otp-JBSWY3DPEHPK3PXP" false (Reference.t0 - timedelta_minutes 56))
    as (_ & msg & Hlocked); [done|done|done|done|done| |vm_compute; reflexivity|].
  - intros a Ha. apply elem_of_replicate in Ha as [-> _]. reflexivity.
  - exists msg. by rewrite Hlocked.
Defined.

(** * Further properties of the rate limiter *)

Lemma check_all_length (rl : RateLimiter) (r : Redis) (key : string) (limit window : Z)
    (times : list Z) :
  length (check_all rl r key limit window times) = length times.
Proof.
  revert rl r. induction times as [|t times IH]; intros rl r; [done|].
  cbn. by rewrite IH.
Qed.

Section SlidingWindowRuns.
Variables (rl : RateLimiter) (key : string) (limit window : Z).
Hypothesis Henabled : enabled rl = true.
Hypothesis Hclient : has_client rl = true.
Hypothesis Hwindow : 0 < window.

Lemma check_rate_limit_no_fault (r : Redis) (now : Z) :
  execute_fault r = None → zrange_fault r = None →
  limiter (check_rate_limit rl r key limit window now) = rl
  ∧ server (check_rate_limit rl r key limit window now)
    = (execute_pipeline r key window now).2
  ∧ (answer (check_rate_limit rl r key limit window now)).1.1
    = negb (limit <=? (execute_pipeline r key window now).1).
Proof.
  intros Hexec Hzrange.
  rewrite (check_rate_limit_enabled rl r key limit window now Henabled Hclient).
  unfold check_rate_limit_try. rewrite Hexec, Hzrange.
  destruct (execute_pipeline r key window now) as [count r']. cbn [fst snd].
  by destruct (limit <=? count).
Qed.

Lemma zadd_snoc (x : Z) (l : list Z) :
  (∀ y, y ∈ l → y < x) → zadd x l = l ++ [x].
Proof.
  induction l as [|z l IH]; intros Hlt; [done|]. cbn.
  assert (z < x) by (apply Hlt; left).
  rewrite (proj2 (Z.ltb_ge x z)) by lia. rewrite (proj2 (Z.eqb_neq x z)) by lia.
  rewrite IH; [done|]. intros y Hy. apply Hlt. by right.
Qed.

Lemma filter_ext_in {A : Type} (P Q : A → Prop) `{!∀ x, Decision (P x)}
    `{!∀ x, Decision (Q x)} (l : list A) :
  (∀ x, x ∈ l → P x ↔ Q x) → filter P l = filter Q l.
Proof.
  induction l as [|x l IH]; intros Hiff; [done|].
  rewrite !filter_cons.
  assert (HPQ : P x ↔ Q x) by (apply Hiff; left).
  rewrite IH by (intros y Hy; apply Hiff; by right).
  destruct (decide (P x)), (decide (Q x)); tauto || done.
Qed.

Lemma filter_all {A : Type} (P : A → Prop) `{!∀ x, Decision (P x)} (l : list A) :
  (∀ x, x ∈ l → P x) → filter P l = l.
Proof.
  induction l as [|x l IH]; intros Hall; [done|].
  rewrite filter_cons, IH by (intros y Hy; apply Hall; by right).
  rewrite decide_True; [done|]. apply Hall. left.
Qed.

Lemma sorted_lookup_lt (l : list Z) (a b : nat) (x y : Z) :
  StronglySorted Z.lt l → l !! a = Some x → l !! b = Some y → (a < b)%nat → x < y.
Proof.
  intros Hsorted. revert a b. induction Hsorted as [|z l Hsorted IH Hz]; intros a b; [done|].
  destruct a as [|a], b as [|b]; cbn; try lia.
  - intros [= ->] Hy _. apply list_elem_of_lookup_2 in Hy.
    eapply Forall_forall in Hz; [|exact Hy]. lia.
  - intros Hx Hy Hab. apply (IH a b); [done|done|lia].
Qed.

Lemma sorted_lookup_le (l : list Z) (a b : nat) (x y : Z) :
  StronglySorted Z.lt l → l !! a = Some x → l !! b = Some y → (a ≤ b)%nat → x ≤ y.
Proof.
  intros Hsorted Hx Hy Hab. destruct (decide (a = b)) as [->|Hne].
  - rewrite Hx in Hy. injection Hy as ->. lia.
  - pose proof (sorted_lookup_lt l a b x y Hsorted Hx Hy). lia.
Qed.

Lemma tracks_step (r : Redis) (prev : list Z) (t : Z) :
  (∀ x, x ∈ prev → 0 ≤ x < t) → 0 ≤ t →
  tracks key window r prev →
  tracks key window (execute_pipeline r key window t).2 (prev ++ [t]).
Proof.
  intros Hprev Ht Htracks t' Hlater.
  assert (Htt' : t < t') by (apply Hlater, elem_of_app; right; left).
  unfold execute_pipeline, zset_at at 1. cbn. rewrite lookup_insert_eq. cbn.
  rewrite (Htracks t) by (intros x Hx; by apply Hprev).
  rewrite filter_app.
  destruct (t + timedelta_seconds window <=? t') eqn:Hexpired.
  - apply Z.leb_le in Hexpired. unfold zremrangebyscore. rewrite filter_nil.
    rewrite !filter_none; [done| |].
    + intros x Hx%list_elem_of_singleton. lia.
    + intros x Hx. apply Hprev in Hx. lia.
  - apply Z.leb_gt in Hexpired.
    rewrite zadd_snoc by (intros y [_ Hy]%list_elem_of_filter; by apply Hprev).
    unfold zremrangebyscore. rewrite filter_app. f_equal.
    + rewrite list_filter_filter. apply filter_ext_in.
      intros x Hx. apply Hprev in Hx. lia.
    + apply filter_ext_in. intros x Hx%list_elem_of_singleton. lia.
Qed.

Lemma check_all_tracks (r : Redis) (prev rest : list Z) :
  execute_fault r = None → zrange_fault r = None →
  StronglySorted Z.lt (prev ++ rest) →
  (∀ x, x ∈ prev ++ rest → 0 ≤ x) →
  tracks key window r prev →
  ∀ (i : nat) (t : Z),
    rest !! i = Some t →
    check_all rl r key limit window rest !! i
    = Some (bool_decide
              (Z.of_nat (length (filter (λ x, t - timedelta_seconds window < x)
                                   (prev ++ take i rest))) < limit)).
Proof.
  revert r prev. induction rest as [|t0 rest IH]; intros r prev Hexec Hzrange Hsorted Hpos
    Htracks i t Hi; [done|].
  assert (Hbefore : ∀ x, x ∈ prev → 0 ≤ x < t0).
  { intros x Hx. split; [apply Hpos, elem_of_app; by left|].
    apply list_elem_of_lookup_1 in Hx as [a Ha].
    apply (sorted_lookup_lt (prev ++ t0 :: rest) a (length prev)); [done| | |].
    - by apply lookup_app_l_Some.
    - by apply list_lookup_middle.
    - by apply lookup_lt_Some in Ha. }
  assert (Ht0 : 0 ≤ t0) by (apply Hpos, elem_of_app; right; left).
  destruct (check_rate_limit_no_fault r t0 Hexec Hzrange) as (Hlimiter & Hserver & Hallowed).
  cbn [check_all]. destruct i as [|i].
  - injection Hi as <-. cbn [lookup list_lookup take]. rewrite Hallowed.
    unfold execute_pipeline. cbn [fst].
    rewrite (Htracks t0) by (intros x Hx; by apply Hbefore).
    rewrite app_nil_r. f_equal.
    set (count := Z.of_nat (length _)).
    destruct (limit <=? count) eqn:Hle; cbn [negb]; symmetry.
    + apply bool_decide_eq_false_2. apply Z.leb_le in Hle. lia.
    + apply bool_decide_eq_true_2. apply Z.leb_gt in Hle. lia.
  - cbn [lookup list_lookup] in Hi |- *. rewrite Hlimiter, Hserver.
    rewrite (IH _ (prev ++ [t0])) with (t := t); [|done|done| | | |done].
    + by rewrite <- app_assoc.
    + by rewrite <- app_assoc.
    + by rewrite <- app_assoc.
    + by apply tracks_step.
Qed.

(** X27.  What the limiter answers to a run of requests on a fresh key,
    made at increasing times with the store in reach: the request at
    time [t] is admitted exactly when fewer than [limit] of the earlier
    requests of the run, admitted or rejected alike, were made less than
    [window] seconds before [t]. *)
Theorem check_all_counts_every_request (r : Redis) (times : list Z) :
  execute_fault r = None → zrange_fault r = None →
  keys r !! key = None →
  StronglySorted Z.lt times →
  (∀ t, t ∈ times → 0 ≤ t) →
  length (check_all rl r key limit window times) = length times
  ∧ ∀ (i : nat) (t : Z),
      times !! i = Some t →
      check_all rl r key limit window times !! i
      = Some (bool_decide
                (Z.of_nat (length (filter (λ x, t - timedelta_seconds window < x)
                                     (take i times))) < limit)).
Proof.
  intros Hexec Hzrange Hfresh Hsorted Hpos. split; [apply check_all_length|].
  intros i t Hi.
  apply (check_all_tracks r [] times Hexec Hzrange Hsorted Hpos); [|done].
  intros t' _. unfold zset_at. by rewrite Hfresh.
Qed.

(** X28.  A client that keeps asking is never let in again: on a fresh key
    with a limit of [limit] requests, if every request of a run comes less
    than [window] seconds after the request [limit] places before it, the
    first [limit] requests are admitted and every later one is rejected,
    however long the run lasts, because the rejected requests are counted
    too. *)
Theorem persistent_client_stays_rejected (r : Redis) (times : list Z) :
  execute_fault r = None → zrange_fault r = None →
  keys r !! key = None →
  StronglySorted Z.lt times →
  (∀ t, t ∈ times → 0 ≤ t) →
  0 ≤ limit →
  (∀ (i : nat) (a b : Z),
     times !! i = Some a → times !! (i + Z.to_nat limit)%nat = Some b →
     b - a < timedelta_seconds window) →
  ∀ i : nat,
    (i < length times)%nat →
    check_all rl r key limit window times !! i = Some (bool_decide (Z.of_nat i < limit)).
Proof.
  intros Hexec Hzrange Hfresh Hsorted Hpos Hlimit Hblock i Hi.
  destruct (lookup_lt_is_Some_2 times i Hi) as [t Ht].
  rewrite (check_all_tracks r [] times Hexec Hzrange Hsorted Hpos) with (t := t);
    [|intros t' _; unfold zset_at; by rewrite Hfresh|done].
  cbn [app]. f_equal.
  set (P := λ x, t - timedelta_seconds window < x).
  destruct (decide (Z.of_nat i < limit)) as [Hin|Hout].
  - rewrite !bool_decide_eq_true_2; [done|done|].
    pose proof (length_filter P (take i times)) as Hle.
    rewrite length_take in Hle. lia.
  - rewrite !bool_decide_eq_false_2; [done|done|].
    set (n := Z.to_nat limit). assert (Hn : (n ≤ i)%nat) by lia.
    rewrite <- (take_drop (i - n) (take i times)), filter_app, length_app.
    rewrite (filter_all P (drop (i - n) (take i times))).
    + rewrite length_drop, length_take. lia.
    + intros y Hy. apply list_elem_of_lookup_1 in Hy as [k Hk].
      rewrite lookup_drop in Hk. apply lookup_take_Some in Hk as [Hk Hki].
      destruct (lookup_lt_is_Some_2 times (i - n)) as [a Ha]; [lia|].
      pose proof (Hblock (i - n)%nat a t Ha) as Hclose.
      replace (i - n + Z.to_nat limit)%nat with i in Hclose by lia.
      specialize (Hclose Ht).
      pose proof (sorted_lookup_le times (i - n) (i - n + k) a y Hsorted Ha Hk) as Hay.
      unfold P. lia.
Qed.

(** X29.  The figures that go into the rate-limit headers are sound
    whenever the store answers: on a bucket whose entries are not later
    than [now], the remaining quota is never negative and is below
    [limit] when the request is admitted, and the reset time lies between
    [int(now)] and [int(now) + window], being [int(now) + window] when the
    request is admitted; so the [Retry-After] computed from it at that
    time is between 0 and [window] seconds. *)
Theorem rate_limit_headers_sound (r : Redis) (now : Z) :
  execute_fault r = None → zrange_fault r = None →
  0 ≤ now →
  StronglySorted Z.lt (zset_at r key now) →
  (∀ x, x ∈ zset_at r key now → 0 ≤ x ≤ now) →
  let c := check_rate_limit rl r key limit window now in
  0 ≤ (answer c).1.2
  ∧ ((answer c).1.1 = true → (answer c).1.2 < limit)
  ∧ ((answer c).1.1 = false → (answer c).1.2 = 0)
  ∧ int_timestamp now ≤ (answer c).2 ≤ int_timestamp now + window
  ∧ ((answer c).1.1 = true → (answer c).2 = int_timestamp now + window).
Proof.
  intros Hexec Hzrange Hnow Hsorted Hold c. subst c.
  rewrite (check_rate_limit_enabled rl r key limit window now Henabled Hclient).
  unfold check_rate_limit_try. rewrite Hexec, Hzrange.
  pose proof (zset_at_after_pipeline r key window now) as Hafter.
  rewrite (proj2 (Z.ltb_lt _ _) Hwindow) in Hafter.
  destruct (execute_pipeline r key window now) as [count r'] eqn:Hpipe.
  assert (Hcount : count
                   = Z.of_nat (length (zremrangebyscore 0 (now - timedelta_seconds window)
                                         (zset_at r key now))))
    by (unfold execute_pipeline in Hpipe; by injection Hpipe as <- _).
  cbn [snd] in Hafter.
  assert (Hfull : int_timestamp (now + timedelta_seconds window)
                  = int_timestamp now + window).
  { unfold int_timestamp, timedelta_seconds, us_per_second.
    rewrite !Z.quot_div_nonneg by lia. by rewrite Z.div_add by lia. }
  destruct (limit <=? count) eqn:Hle; cbn [answer fst snd].
  - apply Z.leb_le in Hle. unfold zrange_first. rewrite Hafter.
    split; [done|]. split; [done|]. split; [done|]. split; [|done].
    set (survivors := zremrangebyscore 0 (now - timedelta_seconds window)
                        (zset_at r key now)) in *.
    destruct (head survivors) as [oldest|] eqn:Hhead.
    + assert (Hin : oldest ∈ survivors) by (destruct survivors; [done|]; injection Hhead as ->; left).
      apply list_elem_of_filter in Hin as [Hkeep Hin]. apply Hold in Hin.
      rewrite (head_zadd now oldest survivors Hhead) by lia.
      rewrite <- Hfull. unfold int_timestamp, timedelta_seconds, us_per_second in *.
      split; apply Z.quot_le_mono; lia.
    + destruct survivors; [|done]. cbn [zadd head]. rewrite Hfull. lia.
  - apply Z.leb_gt in Hle. rewrite Hfull.
    split; [lia|]. split; [lia|]. split; [done|]. split; [lia|done].
Qed.

End SlidingWindowRuns.

Lemma reference_times_sorted (n : nat) : StronglySorted Z.lt (Reference.attempt_times n).
Proof.
  unfold Reference.attempt_times. generalize 0%nat.
  induction n as [|n IH]; intros start; cbn; constructor; [apply IH|].
  apply Forall_forall. intros x (i & -> & Hi%elem_of_seq)%list_elem_of_fmap. lia.
Qed.

Lemma reference_times_bounds (n : nat) (t : Z) :
  t ∈ Reference.attempt_times n → Reference.t0 ≤ t < Reference.t0 + Z.of_nat n.
Proof.
  unfold Reference.attempt_times.
  intros (i & -> & Hi%elem_of_seq)%list_elem_of_fmap. lia.
Qed.

Lemma check_all_counts_every_request_witness :
  check_all Reference.rate_limiter Reference.redis0 "k" 2 60 (Reference.attempt_times 4)
    !! 2%nat = Some false.
Proof.
  destruct (check_all_counts_every_request Reference.rate_limiter "k" 2 60 eq_refl eq_refl
              Reference.redis0 (Reference.attempt_times 4) eq_refl eq_refl eq_refl
              (reference_times_sorted 4)) as [_ Hanswers].
  - intros t Ht%reference_times_bounds. unfold Reference.t0, us_per_second in Ht. lia.
  - rewrite (Hanswers 2%nat (Reference.t0 + 2) eq_refl). vm_compute. reflexivity.
Defined.

Lemma persistent_client_stays_rejected_witness :
  check_all Reference.rate_limiter Reference.redis0 "k" 2 60 (Reference.attempt_times 4)
    !! 3%nat = Some false.
Proof.
  apply (persistent_client_stays_rejected Reference.rate_limiter "k" 2 60 eq_refl eq_refl
           Reference.redis0 (Reference.attempt_times 4) eq_refl eq_refl eq_refl
           (reference_times_sorted 4)).
  - intros t Ht%reference_times_bounds. unfold Reference.t0, us_per_second in Ht. lia.
  - done.
  - intros i a b Ha%list_elem_of_lookup_2 Hb%list_elem_of_lookup_2.
    apply reference_times_bounds in Ha, Hb.
    unfold timedelta_seconds, us_per_second. lia.
  - cbn. lia.
Defined.

Lemma rate_limit_headers_sound_witness :
  let c := check_rate_limit Reference.rate_limiter (Reference.redis_with 30000000) "k" 1 60
             Reference.t0 in
  int_timestamp Reference.t0 ≤ (answer c).2 ≤ int_timestamp Reference.t0 + 60.
Proof.
  assert (Hlive : zset_at (Reference.redis_with 30000000) "k" Reference.t0
                  = [Reference.t0 - 30000000]) by reflexivity.
  apply (rate_limit_headers_sound Reference.rate_limiter "k" 1 60 eq_refl eq_refl eq_refl
           (Reference.redis_with 30000000) Reference.t0 eq_refl eq_refl).
  - done.
  - rewrite Hlive. repeat constructor.
  - rewrite Hlive. intros x Hx%list_elem_of_singleton. subst x.
    unfold Reference.t0, us_per_second. lia.
Defined.

(** * The optional authentication dependencies *)

Section OptionalAuthentication.
Context `{JoseLibrary} `{FernetCipher} (settings : Settings).

(** X30.  [get_current_user_optional] never authenticates anyone: it
    reads [token_data.user_id], an attribute that [TokenData] does not
    have, so for every request, the ones [get_current_user] admits
    included, it answers [None].  Its sibling
    [get_optional_current_user] answers with the user exactly when
    [get_current_user] admits the request. *)
Theorem get_current_user_optional_never_authenticates (s : Session)
    (credentials : option Token) (now : Z) :
  get_current_user_optional settings s credentials now = None
  ∧ ∀ current_user : CurrentUser,
      get_optional_current_user settings s credentials now = Some current_user
      ↔ get_current_user settings s credentials now = inr current_user.
Proof.
  split.
  - unfold get_current_user_optional, get_current_user_optional_try.
    destruct credentials as [token|]; [|done].
    by destruct (verify_token settings token "access" now).
  - intros current_user. unfold get_optional_current_user.
    destruct credentials as [token|]; [|done].
    destruct (get_current_user settings s (Some token) now) as [e|cu]; [done|].
    split; by intros [= ->].
Qed.

End OptionalAuthentication.
